(** * The inode layer of the Pintos file system (filesys/inode.c)

    A shallow embedding of [filesys/inode.c]: the on-disk inode record with
    its twelve direct, one single-indirect and one double-indirect block
    pointers, the resolver [byte_to_sector], the growth engine [inode_grow],
    the release engine [inode_free], the sector I/O path [inode_read_at] /
    [inode_write_at] and the registry of open inodes.

    Conventions.
    - [block_sector_t], [size_t] and [unsigned] are 32-bit unsigned, [off_t]
      and [int] are 32-bit signed; they are carried as [Z] and every
      operation that can leave the range is wrapped with [u32] or [s32].
      C division and remainder truncate towards zero: [Z.quot], [Z.rem].
    - A sector is a list of [BLOCK_SECTOR_SIZE] bytes; an array of sector
      numbers is stored in it little-endian, as on the 80x86.
    - C arrays are lists indexed by [zget] / [zset].
    - The device and the free map are one explicit [storage] value threaded
      through every function; the list of open inodes and the inode
      structures it links are the [filesys] value.
    - [while] loops are recursive functions on a fuel argument; each caller
      passes a bound on the number of iterations and the theorems show that
      the bound is never reached.
    - The per-inode lock only brackets the growth step of a write; the
      embedding is sequential and leaves it out. *)

From Stdlib Require Import ZArith List Bool Lia Permutation FinFun.
From Stdlib Require Import Init.Byte Strings.Byte.
Import ListNotations.

Local Open Scope Z_scope.

#[local] Ltac Zify.zify_post_hook ::= Z.to_euclidean_division_equations.

(** ** Machine integers *)

Definition u32 (x : Z) : Z := x mod 4294967296.
Definition s32 (x : Z) : Z := (x + 2147483648) mod 4294967296 - 2147483648.

Arguments u32 : simpl never.
Arguments s32 : simpl never.

(** ** Outcomes

    [Fault] stands for everything after which the C program has no defined
    continuation: a failed [ASSERT], a null or dangling inode pointer, an
    array subscript out of range.  [OutOfFuel] is the loop bound. *)

Inductive result (A : Type) : Type :=
| Ok (a : A)
| Fault
| OutOfFuel.

Arguments Ok {A} a.
Arguments Fault {A}.
Arguments OutOfFuel {A}.

Definition bind {A B : Type} (c : result A) (k : A -> result B) : result B :=
  match c with
  | Ok a => k a
  | Fault => Fault
  | OutOfFuel => OutOfFuel
  end.

Declare Scope result_scope.
Delimit Scope result_scope with result.
Notation "x <- c ;; k" := (bind c (fun x => k))
  (at level 61, c at next level, right associativity) : result_scope.
Notation "' p <- c ;; k" := (bind c (fun x => match x with p => k end))
  (at level 61, p pattern, c at next level, right associativity) : result_scope.
Local Open Scope result_scope.

(** ** Arrays *)

Definition zget {A : Type} (l : list A) (i : Z) (d : A) : A :=
  if i <? 0 then d else nth (Z.to_nat i) l d.

Fixpoint set_nth {A : Type} (l : list A) (n : nat) (v : A) : list A :=
  match l, n with
  | [], _ => []
  | _ :: t, O => v :: t
  | h :: t, S n' => h :: set_nth t n' v
  end.

(** A store outside the array is undefined in C; [zset] leaves the list as
    it is there.  None of the subscripts of [inode_grow] is out of range. *)
Definition zset {A : Type} (l : list A) (i : Z) (v : A) : list A :=
  if i <? 0 then l else set_nth l (Z.to_nat i) v.

(** ** Sectors and their contents *)

Definition BLOCK_SECTOR_SIZE : Z := 512.
Definition INODE_MAGIC : Z := 1229868868.
Definition INDIRECT_BLOCK_SIZE : Z := 128.
Definition DIRECT_BLOCKS : Z := 12.
Definition INDIRECT_BLOCKS : Z := 140.
Definition DOUBLY_BLOCKS : Z := 16524.

(** [(block_sector_t) -1], what [byte_to_sector] returns for "no sector". *)
Definition SECTOR_NONE : Z := 4294967295.

Definition Z_of_byte (b : byte) : Z := Z.of_N (Byte.to_N b).

Definition byte_of_Z (z : Z) : byte :=
  match Byte.of_N (Z.to_N (z mod 256)) with
  | Some b => b
  | None => x00
  end.

Definition le32 (w : Z) : list byte :=
  [byte_of_Z w; byte_of_Z (w / 256); byte_of_Z (w / 65536); byte_of_Z (w / 16777216)].

Definition le_word (l : list byte) : Z :=
  Z_of_byte (nth 0 l x00) + 256 * Z_of_byte (nth 1 l x00)
  + 65536 * Z_of_byte (nth 2 l x00) + 16777216 * Z_of_byte (nth 3 l x00).

(** The bytes of a [block_sector_t buffer[n]]. *)
Definition encode_words (ws : list Z) : list byte := flat_map le32 ws.

(** Reading [n] sector numbers out of a sector image. *)
Fixpoint decode_words (n : nat) (bs : list byte) : list Z :=
  match n with
  | O => []
  | S n' => le_word (firstn 4 bs) :: decode_words n' (skipn 4 bs)
  end.

Definition zeros : list byte := repeat x00 512.

(** ** The collaborators: sector cache and free map *)

Record storage : Type := mk_storage {
  disk : Z -> list byte;
  free_map : list Z
}.

(** Modelled from the spec: the sector cache ([filesys/cache.c] is not among
    the sources).  [cache_read (sector, buffer)] fills a sector-sized buffer
    from sector [sector]; [cache_write (sector, buffer)] persists a
    sector-sized buffer to it.  Write-back is the cache's business: the
    device below is what a later [cache_read] observes. *)
Definition cache_read (sector : Z) (st : storage) : list byte := disk st sector.

Definition cache_write (sector : Z) (buffer : list byte) (st : storage) : storage :=
  {| disk := fun s => if s =? sector then firstn 512 buffer else disk st s;
     free_map := free_map st |}.

(** Modelled from the spec: the free-space allocator ([filesys/free-map.c]
    is not among the sources).  [allocate(1)] reserves one sector of the
    free pool and fails by delivering a distinguished invalid value when
    the pool is exhausted; [release(sector, 1)] returns a sector to the
    pool.  The pool is the list of free sector numbers, handed out from its
    head.  The result is the success flag (which [inode.c] never looks at),
    what ends up in [*sectorp], and the new state. *)
Definition free_map_allocate (st : storage) : bool * Z * storage :=
  match free_map st with
  | [] => (false, SECTOR_NONE, st)
  | s :: pool => (true, s, {| disk := disk st; free_map := pool |})
  end.

Definition free_map_release (sector : Z) (st : storage) : storage :=
  {| disk := disk st; free_map := sector :: free_map st |}.

(** ** On-disk inode *)

Record inode_disk : Type := mk_inode_disk {
  length : Z;            (* off_t: file size in bytes *)
  magic : Z;             (* unsigned *)
  unused : list Z;       (* uint32_t [110] *)
  direct : list Z;       (* block_sector_t [14] *)
  blocks : Z;            (* size_t *)
  is_dir : bool
}.

Definition set_length (id : inode_disk) (v : Z) : inode_disk :=
  mk_inode_disk v (magic id) (unused id) (direct id) (blocks id) (is_dir id).
Definition set_direct (id : inode_disk) (i : Z) (v : Z) : inode_disk :=
  mk_inode_disk (length id) (magic id) (unused id) (zset (direct id) i v)
                (blocks id) (is_dir id).
Definition set_blocks (id : inode_disk) (v : Z) : inode_disk :=
  mk_inode_disk (length id) (magic id) (unused id) (direct id) v (is_dir id).

(** The sector image of the record: [length], [magic], [unused], [direct],
    [blocks], then [is_dir] in one byte and three bytes of padding (zero:
    [inode_create] obtains the record from [calloc]). *)
Definition encode_inode (id : inode_disk) : list byte :=
  le32 (length id) ++ le32 (magic id) ++ encode_words (unused id)
  ++ encode_words (direct id) ++ le32 (blocks id)
  ++ [if is_dir id then x01 else x00; x00; x00; x00].

Definition decode_inode (bs : list byte) : inode_disk :=
  let ws := decode_words 128 bs in
  {| length := s32 (zget ws 0 0);
     magic := zget ws 1 0;
     unused := firstn 110 (skipn 2 ws);
     direct := firstn 14 (skipn 112 ws);
     blocks := zget ws 126 0;
     is_dir := negb (Z_of_byte (nth 508 bs x00) =? 0) |}.

(** [DIV_ROUND_UP (size, BLOCK_SECTOR_SIZE)] in [int], converted to
    [size_t]. *)
Definition bytes_to_sectors (size : Z) : Z :=
  u32 (Z.quot (s32 (size + 512 - 1)) 512).

(** ** In-memory inode *)

Record inode : Type := mk_inode {
  sector : Z;            (* block_sector_t *)
  open_cnt : Z;          (* int *)
  removed : bool;
  deny_write_cnt : Z;    (* int *)
  data : inode_disk
}.

Definition set_data (i : inode) (d : inode_disk) : inode :=
  mk_inode (sector i) (open_cnt i) (removed i) (deny_write_cnt i) d.
Definition set_open_cnt (i : inode) (v : Z) : inode :=
  mk_inode (sector i) v (removed i) (deny_write_cnt i) (data i).
Definition set_removed (i : inode) (v : bool) : inode :=
  mk_inode (sector i) (open_cnt i) v (deny_write_cnt i) (data i).
Definition set_deny_write_cnt (i : inode) (v : Z) : inode :=
  mk_inode (sector i) (open_cnt i) (removed i) v (data i).

Definition inode_length (i : inode) : Z := length (data i).

(** ** Block-index resolver *)

Definition read_index (sector : Z) (st : storage) : list Z :=
  decode_words 128 (cache_read sector st).

Definition byte_to_sector (i : inode) (pos : Z) (st : storage) : Z :=
  if pos <? length (data i) then
    let index := u32 (Z.quot pos BLOCK_SECTOR_SIZE) in
    if index <? DIRECT_BLOCKS then
      zget (direct (data i)) index 0
    else if index <? INDIRECT_BLOCKS then
      let index := u32 (index - DIRECT_BLOCKS) in
      let buffer := read_index (zget (direct (data i)) 12 0) st in
      zget buffer index 0
    else if index <? DOUBLY_BLOCKS then
      let buffer := read_index (zget (direct (data i)) 13 0) st in
      let index := u32 (index - INDIRECT_BLOCKS) in
      let buffer := read_index (zget buffer (index / INDIRECT_BLOCK_SIZE) 0) st in
      zget buffer (index mod INDIRECT_BLOCK_SIZE) 0
    else SECTOR_NONE
  else SECTOR_NONE.

(** ** Growth engine *)

(** What the automatic arrays of [inode_grow] hold before anything is
    stored in them: the function reads none of it, but writes the arrays
    to the device whole. *)
Record grow_stack : Type := mk_grow_stack {
  stack_buffer : list Z;     (* block_sector_t buffer[128] *)
  stack_buffer1 : list Z;    (* block_sector_t buffer1[128] *)
  stack_buffer2 : list Z     (* block_sector_t buffer2[128] *)
}.

(** The loop over the direct blocks.  The flag of the result tells whether
    the loop was left by its [return length]. *)
Fixpoint grow_direct (fuel : nat) (id : inode_disk) (new_sectors : Z) (st : storage)
  : result (bool * inode_disk * Z * storage) :=
  match fuel with
  | O => OutOfFuel
  | S fuel' =>
    if blocks id <? DIRECT_BLOCKS then
      let '(_, s, st) := free_map_allocate st in
      let id := set_direct id (blocks id) s in
      let st := cache_write (zget (direct id) (blocks id) 0) zeros st in
      let new_sectors := u32 (new_sectors - 1) in
      let id := set_blocks id (u32 (blocks id + 1)) in
      if new_sectors =? 0 then Ok (true, id, new_sectors, st)
      else grow_direct fuel' id new_sectors st
    else Ok (false, id, new_sectors, st)
  end.

(** The loop over the entries of the single-indirect block. *)
Fixpoint grow_indirect (fuel : nat) (id : inode_disk) (buffer : list Z)
    (new_sectors : Z) (st : storage) : result (inode_disk * list Z * Z * storage) :=
  match fuel with
  | O => OutOfFuel
  | S fuel' =>
    if blocks id <? INDIRECT_BLOCKS then
      let '(_, s, st) := free_map_allocate st in
      let buffer := zset buffer (u32 (blocks id - DIRECT_BLOCKS)) s in
      let st := cache_write (zget buffer (u32 (blocks id - DIRECT_BLOCKS)) 0) zeros st in
      let new_sectors := u32 (new_sectors - 1) in
      let id := set_blocks id (u32 (blocks id + 1)) in
      if new_sectors =? 0 then Ok (id, buffer, new_sectors, st)
      else grow_indirect fuel' id buffer new_sectors st
    else Ok (id, buffer, new_sectors, st)
  end.

(** The inner loop of the double-indirect tier, over the entries of one
    second-level block. *)
Fixpoint grow_doubly_inner (fuel : nat) (id : inode_disk) (buffer2 : list Z)
    (index2 new_sectors : Z) (st : storage)
  : result (inode_disk * list Z * Z * Z * storage) :=
  match fuel with
  | O => OutOfFuel
  | S fuel' =>
    if index2 <? INDIRECT_BLOCK_SIZE then
      let '(_, s, st) := free_map_allocate st in
      let buffer2 := zset buffer2 index2 s in
      let st := cache_write (zget buffer2 index2 0) zeros st in
      let id := set_blocks id (u32 (blocks id + 1)) in
      let index2 := u32 (index2 + 1) in
      let new_sectors := u32 (new_sectors - 1) in
      if new_sectors =? 0 then Ok (id, buffer2, index2, new_sectors, st)
      else grow_doubly_inner fuel' id buffer2 index2 new_sectors st
    else Ok (id, buffer2, index2, new_sectors, st)
  end.

(** The outer loop, over the entries of the double-indirect block. *)
Fixpoint grow_doubly (fuel : nat) (id : inode_disk) (buffer1 buffer2 : list Z)
    (index1 index2 new_sectors : Z) (st : storage)
  : result (inode_disk * list Z * storage) :=
  match fuel with
  | O => OutOfFuel
  | S fuel' =>
    if index1 <? INDIRECT_BLOCK_SIZE then
      let '(buffer1, buffer2, st) :=
        if index2 =? 0 then
          let '(_, s, st) := free_map_allocate st in
          (zset buffer1 index1 s, buffer2, st)
        else
          (buffer1, read_index (zget buffer1 index1 0) st, st) in
      '(id, buffer2, index2, new_sectors, st) <-
        grow_doubly_inner 129 id buffer2 index2 new_sectors st ;;
      let st := cache_write (zget buffer1 index1 0) (encode_words buffer2) st in
      let index1 := u32 (index1 + 1) in
      let index2 := 0 in
      if new_sectors =? 0 then Ok (id, buffer1, st)
      else grow_doubly fuel' id buffer1 buffer2 index1 index2 new_sectors st
    else Ok (id, buffer1, st)
  end.

(** [inode_grow (id, length)]: the result is the returned [off_t], the
    record [*id] as the function leaves it, and the storage. *)
Definition inode_grow (stk : grow_stack) (id : inode_disk) (len : Z) (st : storage)
  : result (Z * inode_disk * storage) :=
  let new_sectors := u32 (bytes_to_sectors len - bytes_to_sectors (length id)) in
  if new_sectors =? 0 then Ok (len, id, st) else
  (* Handle direct blocks. *)
  '(returned, id, new_sectors, st) <- grow_direct 13 id new_sectors st ;;
  if (returned : bool) then Ok (len, id, st) else
  (* Handle indirect blocks. *)
  let '(id, buffer, st) :=
    if blocks id =? DIRECT_BLOCKS then
      let '(_, s, st) := free_map_allocate st in
      (set_direct id DIRECT_BLOCKS s, stack_buffer stk, st)
    else
      (id, read_index (zget (direct id) DIRECT_BLOCKS 0) st, st) in
  '(id, buffer, new_sectors, st) <- grow_indirect 129 id buffer new_sectors st ;;
  let st := cache_write (zget (direct id) DIRECT_BLOCKS 0) (encode_words buffer) st in
  if new_sectors =? 0 then Ok (len, id, st) else
  (* Handle doubly indirect blocks. *)
  let '(id, buffer1, st) :=
    if blocks id =? INDIRECT_BLOCKS then
      let '(_, s, st) := free_map_allocate st in
      (set_direct id (DIRECT_BLOCKS + 1) s, stack_buffer1 stk, st)
    else
      (id, read_index (zget (direct id) (DIRECT_BLOCKS + 1) 0) st, st) in
  let index1 := u32 (blocks id - INDIRECT_BLOCKS) / INDIRECT_BLOCK_SIZE in
  let index2 := u32 (blocks id - INDIRECT_BLOCKS) mod INDIRECT_BLOCK_SIZE in
  '(id, buffer1, st) <-
    grow_doubly 129 id buffer1 (stack_buffer2 stk) index1 index2 new_sectors st ;;
  let st := cache_write (zget (direct id) (DIRECT_BLOCKS + 1) 0) (encode_words buffer1) st in
  Ok (len, id, st).

(** ** Release engine *)

(** The loop over the direct blocks; the flag tells whether it was left by
    its [return]. *)
Fixpoint free_direct (fuel : nat) (id : inode_disk) (sectors index : Z) (st : storage)
  : result (bool * Z * Z * storage) :=
  match fuel with
  | O => OutOfFuel
  | S fuel' =>
    if index <? DIRECT_BLOCKS then
      let st := free_map_release (zget (direct id) index 0) st in
      let sectors := u32 (sectors - 1) in
      let index := u32 (index + 1) in
      if sectors =? 0 then Ok (true, sectors, index, st)
      else free_direct fuel' id sectors index st
    else Ok (false, sectors, index, st)
  end.

(** [for (i = 0; i < to_free; i++) { free_map_release (buffer[i], 1);
    sectors--; }], started at [i]. *)
Fixpoint free_entries (fuel : nat) (buffer : list Z) (to_free i sectors : Z)
    (st : storage) : result (Z * storage) :=
  match fuel with
  | O => OutOfFuel
  | S fuel' =>
    if i <? to_free then
      let st := free_map_release (zget buffer i 0) st in
      let sectors := u32 (sectors - 1) in
      free_entries fuel' buffer to_free (u32 (i + 1)) sectors st
    else Ok (sectors, st)
  end.

(** The loop over the entries of the double-indirect block.  [buffer1] has
    [INDIRECT_BLOCK_SIZE] elements; the source reads [buffer1[i]] for every
    [i] below [doubly_blocks], whatever that is. *)
Fixpoint free_doubly (fuel : nat) (buffer1 : list Z) (doubly_blocks i sectors : Z)
    (st : storage) : result (Z * storage) :=
  match fuel with
  | O => OutOfFuel
  | S fuel' =>
    if i <? doubly_blocks then
      let to_free := if sectors <? INDIRECT_BLOCK_SIZE then sectors
                     else INDIRECT_BLOCK_SIZE in
      if INDIRECT_BLOCK_SIZE <=? i then Fault else
      let buffer2 := read_index (zget buffer1 i 0) st in
      '(sectors, st) <- free_entries 129 buffer2 to_free 0 sectors st ;;
      let st := free_map_release (zget buffer1 i 0) st in
      free_doubly fuel' buffer1 doubly_blocks (u32 (i + 1)) sectors st
    else Ok (sectors, st)
  end.

Definition inode_free (i : inode) (st : storage) : result storage :=
  let id := data i in
  let sectors := bytes_to_sectors (length id) in
  let index := 0 in
  if sectors =? 0 then Ok st else
  (* Direct Blocks. *)
  '(returned, sectors, index, st) <- free_direct 13 id sectors index st ;;
  if (returned : bool) then Ok st else
  (* Indirect Blocks. *)
  let buffer := read_index (zget (direct id) index 0) st in
  let to_free := if sectors <? INDIRECT_BLOCK_SIZE then sectors
                 else INDIRECT_BLOCK_SIZE in
  '(sectors, st) <- free_entries 129 buffer to_free 0 sectors st ;;
  let st := free_map_release (zget (direct id) index 0) st in
  let index := u32 (index + 1) in
  if sectors =? 0 then Ok st else
  (* Doubly-Indirect Blocks. *)
  let buffer1 := read_index (zget (direct id) index 0) st in
  let doubly_blocks := u32 (sectors + INDIRECT_BLOCK_SIZE - 1) / INDIRECT_BLOCK_SIZE in
  '(_, st) <- free_doubly 130 buffer1 doubly_blocks 0 sectors st ;;
  Ok (free_map_release (zget (direct id) index 0) st).

(** ** Sector I/O path *)

(** [memcpy (dst + pos, src, n)] on lists. *)
Definition memcpy (dst : list byte) (pos : Z) (src : list byte) (n : Z) : list byte :=
  firstn (Z.to_nat pos) dst ++ firstn (Z.to_nat n) src
  ++ skipn (Z.to_nat (pos + n)) dst.

(** The body of the [while] of [inode_read_at].  [mem_ok] tells whether
    [malloc (BLOCK_SECTOR_SIZE)] delivers the bounce buffer, [bounce]
    whether the loop holds one already.  [buffer] is the caller's memory,
    at least [size] bytes of it. *)
Fixpoint read_loop (fuel : nat) (mem_ok : bool) (i : inode) (buffer : list byte)
    (size offset bytes_read : Z) (bounce : bool) (st : storage)
  : result (Z * list byte) :=
  match fuel with
  | O => OutOfFuel
  | S fuel' =>
    if 0 <? size then
      let sector_idx := byte_to_sector i offset st in
      let sector_ofs := Z.rem offset BLOCK_SECTOR_SIZE in
      let inode_left := s32 (inode_length i - offset) in
      let sector_left := BLOCK_SECTOR_SIZE - sector_ofs in
      let min_left := if inode_left <? sector_left then inode_left else sector_left in
      let chunk_size := if size <? min_left then size else min_left in
      if chunk_size <=? 0 then Ok (bytes_read, buffer)
      else if (sector_ofs =? 0) && (chunk_size =? BLOCK_SECTOR_SIZE) then
        let buffer := memcpy buffer bytes_read (cache_read sector_idx st)
                             BLOCK_SECTOR_SIZE in
        read_loop fuel' mem_ok i buffer (s32 (size - chunk_size))
                  (s32 (offset + chunk_size)) (s32 (bytes_read + chunk_size)) bounce st
      else if bounce || mem_ok then
        let bounce_buf := cache_read sector_idx st in
        let buffer := memcpy buffer bytes_read
                             (skipn (Z.to_nat sector_ofs) bounce_buf) chunk_size in
        read_loop fuel' mem_ok i buffer (s32 (size - chunk_size))
                  (s32 (offset + chunk_size)) (s32 (bytes_read + chunk_size)) true st
      else Ok (bytes_read, buffer)
    else Ok (bytes_read, buffer)
  end.

(** [inode_read_at (inode, buffer_, size, offset)]: the number of bytes
    read and the caller's buffer afterwards.  Nothing is written to the
    storage. *)
Definition inode_read_at (mem_ok : bool) (i : inode) (buffer_ : list byte)
    (size offset : Z) (st : storage) : result (Z * list byte) :=
  read_loop (Z.to_nat size + 1) mem_ok i buffer_ size offset 0 false st.

Fixpoint write_loop (fuel : nat) (mem_ok : bool) (i : inode) (buffer : list byte)
    (size offset bytes_written : Z) (bounce : bool) (st : storage)
  : result (Z * storage) :=
  match fuel with
  | O => OutOfFuel
  | S fuel' =>
    if 0 <? size then
      let sector_idx := byte_to_sector i offset st in
      let sector_ofs := Z.rem offset BLOCK_SECTOR_SIZE in
      let inode_left := s32 (inode_length i - offset) in
      let sector_left := BLOCK_SECTOR_SIZE - sector_ofs in
      let min_left := if inode_left <? sector_left then inode_left else sector_left in
      let chunk_size := if size <? min_left then size else min_left in
      if chunk_size <=? 0 then Ok (bytes_written, st)
      else if (sector_ofs =? 0) && (chunk_size =? BLOCK_SECTOR_SIZE) then
        let st := cache_write sector_idx (skipn (Z.to_nat bytes_written) buffer) st in
        write_loop fuel' mem_ok i buffer (s32 (size - chunk_size))
                   (s32 (offset + chunk_size)) (s32 (bytes_written + chunk_size)) bounce st
      else if bounce || mem_ok then
        let bounce_buf :=
          if (0 <? sector_ofs) || (chunk_size <? sector_left)
          then cache_read sector_idx st
          else zeros in
        let bounce_buf := memcpy bounce_buf sector_ofs
                                 (skipn (Z.to_nat bytes_written) buffer) chunk_size in
        let st := cache_write sector_idx bounce_buf st in
        write_loop fuel' mem_ok i buffer (s32 (size - chunk_size))
                   (s32 (offset + chunk_size)) (s32 (bytes_written + chunk_size)) true st
      else Ok (bytes_written, st)
    else Ok (bytes_written, st)
  end.

(** [inode_write_at (inode, buffer_, size, offset)]: the number of bytes
    written, the inode structure afterwards and the storage. *)
Definition inode_write_at (stk : grow_stack) (mem_ok : bool) (i : inode)
    (buffer_ : list byte) (size offset : Z) (st : storage)
  : result (Z * inode * storage) :=
  if negb (deny_write_cnt i =? 0) then Ok (0, i, st) else
  '(i, st) <-
    (if inode_length i <? s32 (offset + size) then
       '(len, id, st) <- inode_grow stk (data i) (s32 (offset + size)) st ;;
       let i := set_data i (set_length id len) in
       Ok (i, cache_write (sector i) (encode_inode (data i)) st)
     else Ok (i, st)) ;;
  '(bytes_written, st) <-
    write_loop (Z.to_nat size + 1) mem_ok i buffer_ size offset 0 false st ;;
  Ok (bytes_written, i, st).

(** [inode_deny_write] and [inode_allow_write], with their assertions. *)
Definition inode_deny_write (i : inode) : result inode :=
  let i := set_deny_write_cnt i (s32 (deny_write_cnt i + 1)) in
  if deny_write_cnt i <=? open_cnt i then Ok i else Fault.

Definition inode_allow_write (i : inode) : result inode :=
  if negb (0 <? deny_write_cnt i) then Fault else
  if negb (deny_write_cnt i <=? open_cnt i) then Fault else
  Ok (set_deny_write_cnt i (s32 (deny_write_cnt i - 1))).

(** [inode_create]: formats a record of [len] bytes at [sector].
    [mem_ok] tells whether [calloc] delivers the record. *)
Definition inode_create (stk : grow_stack) (mem_ok : bool) (sector len : Z)
    (dir : bool) (st : storage) : result (bool * storage) :=
  if len <? 0 then Fault else
  if mem_ok then
    let disk_inode :=
      {| length := 0; magic := INODE_MAGIC; unused := repeat 0 110;
         direct := repeat 0 14; blocks := 0; is_dir := dir |} in
    '(l, disk_inode, st) <- inode_grow stk disk_inode len st ;;
    let disk_inode := set_length disk_inode l in
    if negb (length disk_inode =? len) then Fault else
    Ok (true, cache_write sector (encode_inode disk_inode) st)
  else Ok (false, st).

(** ** The list of open inodes

    [open_inodes] links the [struct inode]s that [inode_open] obtained from
    [malloc] and [inode_close] has not freed yet; no other [struct inode]
    exists.  An element is the address of the structure and its contents,
    in list order; an inode pointer is [None] for [NULL] or the address. *)

Definition handle : Type := option nat.

Record filesys : Type := mk_filesys {
  store : storage;
  open_inodes : list (nat * inode)
}.

Definition inode_init (st : storage) : filesys :=
  {| store := st; open_inodes := [] |}.

Fixpoint find_inode (a : nat) (l : list (nat * inode)) : option inode :=
  match l with
  | [] => None
  | (b, i) :: t => if Nat.eqb a b then Some i else find_inode a t
  end.

Fixpoint update_inode (a : nat) (v : inode) (l : list (nat * inode))
  : list (nat * inode) :=
  match l with
  | [] => []
  | (b, i) :: t => if Nat.eqb a b then (b, v) :: t else (b, i) :: update_inode a v t
  end.

(** [list_remove (&inode->elem)]. *)
Fixpoint list_remove (a : nat) (l : list (nat * inode)) : list (nat * inode) :=
  match l with
  | [] => []
  | (b, i) :: t => if Nat.eqb a b then t else (b, i) :: list_remove a t
  end.

(** The search loop of [inode_open]: the first element whose [sector] is
    the one asked for. *)
Fixpoint find_sector (s : Z) (l : list (nat * inode)) : option nat :=
  match l with
  | [] => None
  | (b, i) :: t => if sector i =? s then Some b else find_sector s t
  end.

(** [malloc] delivers an address that no live structure has. *)
Definition fresh_addr (l : list (nat * inode)) : nat :=
  S (fold_right Nat.max O (map fst l)).

Definition inode_reopen (h : handle) (fs : filesys) : result (handle * filesys) :=
  match h with
  | None => Ok (None, fs)
  | Some a =>
    match find_inode a (open_inodes fs) with
    | None => Fault
    | Some i =>
      let i := set_open_cnt i (s32 (open_cnt i + 1)) in
      Ok (h, {| store := store fs; open_inodes := update_inode a i (open_inodes fs) |})
    end
  end.

(** [inode_open (sector)]; [mem_ok] tells whether [malloc] delivers the
    structure. *)
Definition inode_open (mem_ok : bool) (s : Z) (fs : filesys)
  : result (handle * filesys) :=
  match find_sector s (open_inodes fs) with
  | Some a => inode_reopen (Some a) fs
  | None =>
    if mem_ok then
      let a := fresh_addr (open_inodes fs) in
      let i := {| sector := s; open_cnt := 1; removed := false; deny_write_cnt := 0;
                  data := decode_inode (cache_read s (store fs)) |} in
      Ok (Some a, {| store := store fs; open_inodes := (a, i) :: open_inodes fs |})
    else Ok (None, fs)
  end.

Definition inode_get_inumber (i : inode) : Z := sector i.

Definition inode_close (h : handle) (fs : filesys) : result filesys :=
  match h with
  | None => Ok fs
  | Some a =>
    match find_inode a (open_inodes fs) with
    | None => Fault
    | Some i =>
      let i := set_open_cnt i (s32 (open_cnt i - 1)) in
      if open_cnt i =? 0 then
        let l := list_remove a (open_inodes fs) in
        if removed i then
          let st := free_map_release (sector i) (store fs) in
          st <- inode_free i st ;;
          Ok {| store := st; open_inodes := l |}
        else
          Ok {| store := cache_write (sector i) (encode_inode (data i)) (store fs);
                open_inodes := l |}
      else
        Ok {| store := store fs; open_inodes := update_inode a i (open_inodes fs) |}
    end
  end.

Definition inode_remove (h : handle) (fs : filesys) : result filesys :=
  match h with
  | None => Fault
  | Some a =>
    match find_inode a (open_inodes fs) with
    | None => Fault
    | Some i =>
      Ok {| store := store fs;
            open_inodes := update_inode a (set_removed i true) (open_inodes fs) |}
    end
  end.

Definition inode_get_open_cnt (i : inode) : Z := open_cnt i.
Definition inode_is_dir (i : inode) : bool := is_dir (data i).
Definition inode_is_removed (i : inode) : bool := removed i.

(** The functions that take an inode pointer and neither link nor unlink
    it, run on the structure a handle points to. *)
Definition deref (h : handle) (fs : filesys) : result inode :=
  match h with
  | None => Fault
  | Some a =>
    match find_inode a (open_inodes fs) with
    | None => Fault
    | Some i => Ok i
    end
  end.

Definition store_inode (h : handle) (i : inode) (st : storage) (fs : filesys) : filesys :=
  match h with
  | None => fs
  | Some a => {| store := st; open_inodes := update_inode a i (open_inodes fs) |}
  end.

Definition inode_write_at_ptr (stk : grow_stack) (mem_ok : bool) (h : handle)
    (buffer_ : list byte) (size offset : Z) (fs : filesys) : result (Z * filesys) :=
  i <- deref h fs ;;
  '(n, i, st) <- inode_write_at stk mem_ok i buffer_ size offset (store fs) ;;
  Ok (n, store_inode h i st fs).

Definition inode_read_at_ptr (mem_ok : bool) (h : handle) (buffer_ : list byte)
    (size offset : Z) (fs : filesys) : result (Z * list byte) :=
  i <- deref h fs ;;
  inode_read_at mem_ok i buffer_ size offset (store fs).

Definition inode_deny_write_ptr (h : handle) (fs : filesys) : result filesys :=
  i <- deref h fs ;;
  i <- inode_deny_write i ;;
  Ok (store_inode h i (store fs) fs).

Definition inode_allow_write_ptr (h : handle) (fs : filesys) : result filesys :=
  i <- deref h fs ;;
  i <- inode_allow_write i ;;
  Ok (store_inode h i (store fs) fs).

(** ** Notions used in the statements *)

(** The fields of the record that [inode_grow] has no business with. *)
Definition same_header (id id' : inode_disk) : Prop :=
  length id' = length id /\ magic id' = magic id /\ unused id' = unused id
  /\ is_dir id' = is_dir id.

(** The sector that the block map of [id] gives for the data block of
    index [k]: what [byte_to_sector] computes once it has the index. *)
Definition block_at (id : inode_disk) (st : storage) (k : Z) : Z :=
  if k <? 12 then zget (direct id) k 0
  else if k <? 140 then zget (read_index (zget (direct id) 12 0) st) (k - 12) 0
  else zget (read_index (zget (read_index (zget (direct id) 13 0) st)
                              ((k - 140) / 128) 0) st)
            ((k - 140) mod 128) 0.

(** [n] calls of [f] in a row on one inode structure. *)
Fixpoint iterate (n : nat) (f : inode -> result inode) (i : inode) : result inode :=
  match n with
  | O => Ok i
  | S n' => i' <- f i ;; iterate n' f i'
  end.

(** One call of the interface, as seen on the list of open inodes and the
    storage. *)
Inductive fs_step : filesys -> filesys -> Prop :=
| step_open mem_ok s fs h fs' :
    inode_open mem_ok s fs = Ok (h, fs') -> fs_step fs fs'
| step_reopen h fs h' fs' :
    inode_reopen h fs = Ok (h', fs') -> fs_step fs fs'
| step_close h fs fs' :
    inode_close h fs = Ok fs' -> fs_step fs fs'
| step_remove h fs fs' :
    inode_remove h fs = Ok fs' -> fs_step fs fs'
| step_write stk mem_ok h buffer_ size offset fs n fs' :
    inode_write_at_ptr stk mem_ok h buffer_ size offset fs = Ok (n, fs') ->
    fs_step fs fs'
| step_deny_write h fs fs' :
    inode_deny_write_ptr h fs = Ok fs' -> fs_step fs fs'
| step_allow_write h fs fs' :
    inode_allow_write_ptr h fs = Ok fs' -> fs_step fs fs'
| step_create stk mem_ok s len dir fs ok st' :
    inode_create stk mem_ok s len dir (store fs) = Ok (ok, st') ->
    fs_step fs {| store := st'; open_inodes := open_inodes fs |}.

(** The states that the module can be in after [inode_init]. *)
Inductive reachable : filesys -> Prop :=
| reach_init st : reachable (inode_init st)
| reach_step fs fs' : reachable fs -> fs_step fs fs' -> reachable fs'.

(** At most one in-memory inode per sector, and per address. *)
Definition one_inode_per_sector (fs : filesys) : Prop :=
  NoDup (map (fun e => sector (snd e)) (open_inodes fs))
  /\ NoDup (map fst (open_inodes fs)).


(** A freshly formatted, empty record, as [inode_create] sets it up before
    it grows it. *)
Definition empty_inode_disk (dir : bool) : inode_disk :=
  {| length := 0; magic := INODE_MAGIC; unused := repeat 0 110;
     direct := repeat 0 14; blocks := 0; is_dir := dir |}.

(** A device of zeroed sectors with the free pool [pool]. *)
Definition blank_storage (pool : list Z) : storage :=
  {| disk := fun _ => zeros; free_map := pool |}.


(** Sample values for the concrete instances below. *)
Definition sample_stack : grow_stack :=
  mk_grow_stack (repeat 3735928559 128) (repeat 3735928559 128) (repeat 3735928559 128).

Definition sample_inode (cnt : Z) (id : inode_disk) : inode :=
  {| sector := 7; open_cnt := cnt; removed := false; deny_write_cnt := 0; data := id |}.


(** The state after [inode_init] and one, or two, [inode_open (7)] on a
    blank device. *)
Definition sample_fs : filesys :=
  {| store := blank_storage [];
     open_inodes := [(1%nat, sample_inode 1 (decode_inode zeros))] |}.

Definition sample_fs2 : filesys :=
  {| store := blank_storage [];
     open_inodes := [(1%nat, sample_inode 2 (decode_inode zeros))] |}.


(** The integers from [a] up to, not including, [b]. *)
Definition zrange (a b : Z) : list Z :=
  map (fun k => a + Z.of_nat k) (seq 0 (Z.to_nat (b - a))).

(** The number of second-level index sectors that [n] data blocks use. *)
Definition outer_count (n : Z) : Z := (n - 140 + 127) / 128.

(** Entry [j] of the double-indirect sector. *)
Definition outer_at (id : inode_disk) (st : storage) (j : Z) : Z :=
  zget (read_index (zget (direct id) 13 0) st) j 0.

(** The order in which the release engine is to give back the sectors of
    a record with [n] data blocks: the direct data sectors; the data
    sectors of the single-indirect tier and then its index sector; for each
    second-level index sector in use its data sectors and then that index
    sector; at last the double-indirect sector. *)
Definition release_order (id : inode_disk) (st : storage) (n : Z) : list Z :=
  map (block_at id st) (zrange 0 (Z.min n 12))
  ++ (if 12 <? n then
        map (block_at id st) (zrange 12 (Z.min n 140)) ++ [zget (direct id) 12 0]
      else [])
  ++ (if 140 <? n then
        flat_map (fun j =>
                    map (block_at id st)
                        (zrange (140 + 128 * j) (Z.min n (140 + 128 * (j + 1))))
                    ++ [outer_at id st j])
                 (zrange 0 (outer_count n))
        ++ [zget (direct id) 13 0]
      else []).

(** The index sectors that a record with [n] data blocks uses. *)
Definition index_sectors (id : inode_disk) (st : storage) (n : Z) : list Z :=
  (if 12 <? n then [zget (direct id) 12 0] else [])
  ++ (if 140 <? n then
        map (outer_at id st) (zrange 0 (outer_count n)) ++ [zget (direct id) 13 0]
      else []).

(** Every sector that a record with [n] data blocks uses: the data sectors
    by block index, then the index sectors. *)
Definition all_sectors (id : inode_disk) (st : storage) (n : Z) : list Z :=
  map (block_at id st) (zrange 0 n) ++ index_sectors id st n.

(** [free_map_release] on each element of a list, from its head on. *)
Definition release_all (l : list Z) (st : storage) : storage :=
  fold_left (fun st s => free_map_release s st) l st.


(** [k] rounds of the body that the three data loops of [inode_grow] share:
    allocate a sector into [arr[i]], write the zero sector to it, go on to
    the next element. *)
Fixpoint alloc_fill (k : nat) (arr : list Z) (i : Z) (st : storage) : list Z * storage :=
  match k with
  | O => (arr, st)
  | S k' =>
    let '(_, s, st) := free_map_allocate st in
    alloc_fill k' (zset arr i s) (i + 1) (cache_write s zeros st)
  end.

(** The record with its block pointers and its block count replaced. *)
Definition with_map (id : inode_disk) (arr : list Z) (b : Z) : inode_disk :=
  mk_inode_disk (length id) (magic id) (unused id) arr b (is_dir id).

(** A sector number fits [block_sector_t]. *)
Definition sector_number (s : Z) : Prop := 0 <= s < 4294967296.

(** The number of index sectors that [n] data blocks use. *)
Definition index_count (n : Z) : Z :=
  (if 12 <? n then 1 else 0) + (if 140 <? n then 1 + outer_count n else 0).


(** ** The block map while it grows

    Inside [inode_grow] the double-indirect block lives in [buffer1] and
    reaches the device only at the end.  A [view] is a block map with that
    block given apart from the device: the [direct] array, the
    double-indirect block, the storage, the number of data blocks, and
    whether the double-indirect sector [direct[13]] is allocated. *)
Record view : Type := mk_view {
  v_dir : list Z;
  v_top : list Z;
  v_st : storage;
  v_n : Z;
  v_has_top : bool
}.

Definition vblock_at (v : view) (k : Z) : Z :=
  if k <? 12 then zget (v_dir v) k 0
  else if k <? 140 then zget (read_index (zget (v_dir v) 12 0) (v_st v)) (k - 12) 0
  else zget (read_index (zget (v_top v) ((k - 140) / 128) 0) (v_st v))
            ((k - 140) mod 128) 0.

Definition vindex (v : view) : list Z :=
  (if 12 <? v_n v then [zget (v_dir v) 12 0] else [])
  ++ map (fun j => zget (v_top v) j 0) (zrange 0 (outer_count (v_n v)))
  ++ (if v_has_top v then [zget (v_dir v) 13 0] else []).

Definition vall (v : view) : list Z :=
  map (vblock_at v) (zrange 0 (v_n v)) ++ vindex v.

(** The view of a record on the device. *)
Definition view_of (id : inode_disk) (st : storage) : view :=
  mk_view (direct id) (read_index (zget (direct id) 13 0) st) st (blocks id)
          (140 <? blocks id).

(** A view whose sectors are pairwise distinct and distinct from the free
    sectors. *)
Definition vok (v : view) : Prop :=
  List.length (v_dir v) = 14%nat
  /\ List.length (v_top v) = 128%nat
  /\ 0 <= v_n v <= 16524
  /\ NoDup (vall v ++ free_map (v_st v))
  /\ Forall sector_number (free_map (v_st v))
  /\ (forall j, 0 <= j < outer_count (v_n v) -> sector_number (zget (v_top v) j 0)).

(** [v'] is [v] grown with the sectors [used], taken from the head of the
    free pool. *)
Definition vgrows (v v' : view) (used : list Z) : Prop :=
  0 <= v_n v <= v_n v'
  /\ (forall k, 0 <= k < v_n v -> vblock_at v' k = vblock_at v k)
  /\ free_map (v_st v) = used ++ free_map (v_st v')
  /\ Permutation (vall v') (vall v ++ used)
  /\ (forall k, v_n v <= k < v_n v' ->
      disk (v_st v') (vblock_at v' k) = zeros /\ In (vblock_at v' k) used)
  /\ (forall s, ~ In s used -> ~ In s (vindex v) -> disk (v_st v') s = disk (v_st v) s)
  /\ (forall s, In s (vindex v') -> In s (vindex v) \/ In s used).

(** The well-formedness of a record on the device, and of the free pool
    with respect to it. *)
Definition wf_inode (id : inode_disk) (st : storage) : Prop :=
  List.length (direct id) = 14%nat
  /\ 0 <= blocks id <= 16524
  /\ NoDup (all_sectors id st (blocks id) ++ free_map st)
  /\ Forall sector_number (free_map st).

Definition stack_ok (stk : grow_stack) : Prop :=
  List.length (stack_buffer stk) = 128%nat
  /\ List.length (stack_buffer1 stk) = 128%nat
  /\ List.length (stack_buffer2 stk) = 128%nat.


(** The parts of [inode_grow] behind its comments "Handle doubly indirect
    blocks" and "Handle indirect blocks", as functions of what reaches
    them: the record, the number of sectors still to add, the storage. *)
Definition grow_doubly_tier (stk : grow_stack) (len : Z) (id : inode_disk)
    (new_sectors : Z) (st : storage) : result (Z * inode_disk * storage) :=
  let '(id, buffer1, st) :=
    if blocks id =? INDIRECT_BLOCKS then
      let '(_, s, st) := free_map_allocate st in
      (set_direct id (DIRECT_BLOCKS + 1) s, stack_buffer1 stk, st)
    else
      (id, read_index (zget (direct id) (DIRECT_BLOCKS + 1) 0) st, st) in
  let index1 := u32 (blocks id - INDIRECT_BLOCKS) / INDIRECT_BLOCK_SIZE in
  let index2 := u32 (blocks id - INDIRECT_BLOCKS) mod INDIRECT_BLOCK_SIZE in
  '(id, buffer1, st) <-
    grow_doubly 129 id buffer1 (stack_buffer2 stk) index1 index2 new_sectors st ;;
  let st := cache_write (zget (direct id) (DIRECT_BLOCKS + 1) 0) (encode_words buffer1) st in
  Ok (len, id, st).

Definition grow_indirect_tier (stk : grow_stack) (len : Z) (id : inode_disk)
    (new_sectors : Z) (st : storage) : result (Z * inode_disk * storage) :=
  let '(id, buffer, st) :=
    if blocks id =? DIRECT_BLOCKS then
      let '(_, s, st) := free_map_allocate st in
      (set_direct id DIRECT_BLOCKS s, stack_buffer stk, st)
    else
      (id, read_index (zget (direct id) DIRECT_BLOCKS 0) st, st) in
  '(id, buffer, new_sectors, st) <- grow_indirect 129 id buffer new_sectors st ;;
  let st := cache_write (zget (direct id) DIRECT_BLOCKS 0) (encode_words buffer) st in
  if new_sectors =? 0 then Ok (len, id, st)
  else grow_doubly_tier stk len id new_sectors st.

(** The sectors that growing from [b] data blocks by [n] takes from the
    free map: the data sectors and the index sectors that come into use. *)
Definition sectors_needed (b n : Z) : Z :=
  n + (index_count (b + n) - index_count b).


(** Decidable versions of the side conditions, for concrete instances. *)
Fixpoint nodupb (l : list Z) : bool :=
  match l with
  | [] => true
  | x :: t => negb (existsb (Z.eqb x) t) && nodupb t
  end.

Definition sector_numberb (s : Z) : bool := (0 <=? s) && (s <? 4294967296).

(** A record at the capacity of the block map: 16524 data blocks. *)
Definition full_inode_disk : inode_disk :=
  {| length := 8460288; magic := INODE_MAGIC; unused := repeat 0 110;
     direct := repeat 0 14; blocks := 16524; is_dir := false |}.


(** ** The contents of a file *)

(** The byte at position [p] of the file that the record [id] describes. *)
Definition file_byte (id : inode_disk) (st : storage) (p : Z) : byte :=
  zget (disk st (block_at id st (p / 512))) (p mod 512) x00.

(** Every data block of the record is a full sector image. *)
Definition data_sized (id : inode_disk) (st : storage) : Prop :=
  forall k, 0 <= k < blocks id ->
    List.length (disk st (block_at id st k)) = 512%nat.


(** An inode structure whose record is well formed on the device: the
    record counts exactly the sectors that its length calls for, its data
    blocks are sector images, and the sector of the record itself is
    neither in its block map nor free. *)
Definition inode_ok (i : inode) (st : storage) : Prop :=
  wf_inode (data i) st
  /\ data_sized (data i) st
  /\ 0 <= length (data i) <= 8460288
  /\ blocks (data i) = bytes_to_sectors (length (data i))
  /\ ~ In (sector i) (all_sectors (data i) st (blocks (data i)) ++ free_map st).


(** ** Records in range, files as byte strings *)

(** A record whose fields hold values of their C types. *)
Definition record_ok (id : inode_disk) : Prop :=
  -2147483648 <= length id < 2147483648
  /\ 0 <= magic id < 4294967296
  /\ List.length (unused id) = 110%nat /\ Forall sector_number (unused id)
  /\ List.length (direct id) = 14%nat /\ Forall sector_number (direct id)
  /\ 0 <= blocks id < 4294967296.

(** The bytes of the file, from position 0 to its length. *)
Definition file_contents (i : inode) (st : storage) : list byte :=
  map (file_byte (data i) st) (zrange 0 (length (data i))).

(** The allocated bytes beyond the length of the file are zero. *)
Definition tail_zero (id : inode_disk) (st : storage) : Prop :=
  forall p, length id <= p < 512 * blocks id -> file_byte id st p = x00.

(** A byte string with [new] stored at [offset]: a string shorter than
    [offset] is first extended with zeros up to there. *)
Definition overwrite (old : list byte) (offset : Z) (new : list byte) : list byte :=
  map (fun p => if (offset <=? p) && (p <? offset + Z.of_nat (List.length new))
                then zget new (p - offset) x00 else zget old p x00)
      (zrange 0 (Z.max (Z.of_nat (List.length old))
                       (offset + Z.of_nat (List.length new)))).


(** Every block pointer of the record and every free sector is a value of
    [block_sector_t]. *)
Definition pointers_ok (id : inode_disk) (st : storage) : Prop :=
  List.length (direct id) = 14%nat
  /\ Forall sector_number (direct id)
  /\ Forall sector_number (free_map st).


(** A file of 600 bytes in the sectors 100 and 101 for the instances: 512
    bytes [A], 88 bytes [B], zeros up to the end of the second sector; its
    record is in sector 7 and the sectors 200 to 219 are free.  A second
    file of 10 bytes has its only block in sector 102 and its record in
    sector 8. *)
Definition sample_file_disk : inode_disk :=
  {| length := 600; magic := INODE_MAGIC; unused := repeat 0 110;
     direct := 100 :: 101 :: repeat 0 12; blocks := 2; is_dir := false |}.

Definition sample_file_storage : storage :=
  {| disk := fun s => if s =? 100 then repeat x41 512
                      else if s =? 101 then repeat x42 88 ++ repeat x00 424
                      else zeros;
     free_map := zrange 200 220 |}.

Definition sample_file : inode := sample_inode 1 sample_file_disk.

Definition sample_other_file : inode :=
  {| sector := 8; open_cnt := 1; removed := false; deny_write_cnt := 0;
     data := {| length := 10; magic := INODE_MAGIC; unused := repeat 0 110;
                direct := 102 :: repeat 0 13; blocks := 1; is_dir := false |} |}.

(** * Properties *)

(** ** Machine integers and arrays *)

Lemma u32_small x : 0 <= x < 4294967296 -> u32 x = x.
Proof. unfold u32. intros H. apply Z.mod_small. exact H. Qed.

Lemma u32_range x : 0 <= u32 x < 4294967296.
Proof. unfold u32. apply Z.mod_pos_bound. lia. Qed.

Lemma s32_small x : -2147483648 <= x < 2147483648 -> s32 x = x.
Proof. unfold s32. intros H. rewrite Z.mod_small; lia. Qed.

Lemma bytes_to_sectors_nonneg size :
  0 <= size <= 2147483136 -> bytes_to_sectors size = (size + 511) / 512.
Proof.
  intros H. unfold bytes_to_sectors.
  rewrite s32_small by lia.
  rewrite Z.quot_div_nonneg by lia.
  rewrite u32_small; [f_equal; lia|].
  split; [apply Z.div_pos; lia|].
  apply Z.div_lt_upper_bound; lia.
Qed.

Lemma bytes_to_sectors_range size : 0 <= bytes_to_sectors size < 4294967296.
Proof. apply u32_range. Qed.

Lemma length_set_nth {A} (l : list A) n v : List.length (set_nth l n v) = List.length l.
Proof.
  revert n; induction l as [|h t IH]; intros [|n]; simpl; auto.
Qed.

Lemma nth_set_nth_same {A} (l : list A) n v d :
  (n < List.length l)%nat -> nth n (set_nth l n v) d = v.
Proof.
  revert n; induction l as [|h t IH]; intros [|n] H; simpl in *; try lia; auto.
  apply IH; lia.
Qed.

Lemma nth_set_nth_other {A} (l : list A) n m v d :
  n <> m -> nth m (set_nth l n v) d = nth m l d.
Proof.
  revert n m; induction l as [|h t IH]; intros [|n] [|m] H; simpl; auto; try congruence.
Qed.

Lemma length_zset {A} (l : list A) i v : List.length (zset l i v) = List.length l.
Proof. unfold zset. destruct (i <? 0); auto using length_set_nth. Qed.

Lemma zget_zset_same {A} (l : list A) i v d :
  0 <= i < Z.of_nat (List.length l) -> zget (zset l i v) i d = v.
Proof.
  intros H. unfold zget, zset.
  destruct (Z.ltb_spec i 0); [lia|].
  apply nth_set_nth_same. lia.
Qed.

Lemma zget_zset_other {A} (l : list A) i j v d :
  i <> j -> zget (zset l i v) j d = zget l j d.
Proof.
  intros H. unfold zget, zset.
  destruct (Z.ltb_spec j 0); auto.
  destruct (Z.ltb_spec i 0); auto.
  apply nth_set_nth_other. lia.
Qed.

(** ** Null handles (C10) *)

(** C10: [inode_close] of a null handle returns at once and leaves the
    list of open inodes and the storage as they are; [inode_reopen] of a
    null handle returns null and changes no count. *)
Theorem null_handle_is_ignored (fs : filesys) :
  inode_close None fs = Ok fs /\ inode_reopen None fs = Ok (None, fs).
Proof. split; reflexivity. Qed.

(** ** The growth engine always returns, and never touches [length] *)

Lemma same_header_refl id : same_header id id.
Proof. repeat split. Qed.

Lemma same_header_trans a b c : same_header a b -> same_header b c -> same_header a c.
Proof. unfold same_header. intuition congruence. Qed.

Lemma same_header_set_direct id i v : same_header id (set_direct id i v).
Proof. repeat split. Qed.

Lemma same_header_set_blocks id v : same_header id (set_blocks id v).
Proof. repeat split. Qed.

Create HintDb grow.
#[local] Hint Resolve same_header_refl same_header_set_direct same_header_set_blocks : grow.

Ltac rsimpl :=
  cbn [blocks direct length magic unused is_dir set_blocks set_direct set_length
       disk free_map fst snd] in *.

Lemma free_map_allocate_cases st :
  (free_map st = [] /\ free_map_allocate st = (false, SECTOR_NONE, st))
  \/ (exists s pool, free_map st = s :: pool
        /\ free_map_allocate st = (true, s, {| disk := disk st; free_map := pool |})).
Proof.
  unfold free_map_allocate. destruct (free_map st) as [|s pool]; [left|right]; eauto.
Qed.

(** The loops, one iteration unfolded. *)
Lemma grow_direct_S fuel id n st :
  grow_direct (S fuel) id n st =
  if blocks id <? DIRECT_BLOCKS then
    let '(_, s, st) := free_map_allocate st in
    let id := set_direct id (blocks id) s in
    let st := cache_write (zget (direct id) (blocks id) 0) zeros st in
    let new_sectors := u32 (n - 1) in
    let id := set_blocks id (u32 (blocks id + 1)) in
    if new_sectors =? 0 then Ok (true, id, new_sectors, st)
    else grow_direct fuel id new_sectors st
  else Ok (false, id, n, st).
Proof. reflexivity. Qed.

Lemma grow_indirect_S fuel id buffer n st :
  grow_indirect (S fuel) id buffer n st =
  if blocks id <? INDIRECT_BLOCKS then
    let '(_, s, st) := free_map_allocate st in
    let buffer := zset buffer (u32 (blocks id - DIRECT_BLOCKS)) s in
    let st := cache_write (zget buffer (u32 (blocks id - DIRECT_BLOCKS)) 0) zeros st in
    let new_sectors := u32 (n - 1) in
    let id := set_blocks id (u32 (blocks id + 1)) in
    if new_sectors =? 0 then Ok (id, buffer, new_sectors, st)
    else grow_indirect fuel id buffer new_sectors st
  else Ok (id, buffer, n, st).
Proof. reflexivity. Qed.

Lemma grow_doubly_inner_S fuel id buffer2 index2 n st :
  grow_doubly_inner (S fuel) id buffer2 index2 n st =
  if index2 <? INDIRECT_BLOCK_SIZE then
    let '(_, s, st) := free_map_allocate st in
    let buffer2 := zset buffer2 index2 s in
    let st := cache_write (zget buffer2 index2 0) zeros st in
    let id := set_blocks id (u32 (blocks id + 1)) in
    let index2 := u32 (index2 + 1) in
    let new_sectors := u32 (n - 1) in
    if new_sectors =? 0 then Ok (id, buffer2, index2, new_sectors, st)
    else grow_doubly_inner fuel id buffer2 index2 new_sectors st
  else Ok (id, buffer2, index2, n, st).
Proof. reflexivity. Qed.

Lemma grow_doubly_S fuel id buffer1 buffer2 index1 index2 n st :
  grow_doubly (S fuel) id buffer1 buffer2 index1 index2 n st =
  if index1 <? INDIRECT_BLOCK_SIZE then
    let '(buffer1, buffer2, st) :=
      if index2 =? 0 then
        let '(_, s, st) := free_map_allocate st in
        (zset buffer1 index1 s, buffer2, st)
      else
        (buffer1, read_index (zget buffer1 index1 0) st, st) in
    '(id, buffer2, index2, new_sectors, st) <-
      grow_doubly_inner 129 id buffer2 index2 n st ;;
    let st := cache_write (zget buffer1 index1 0) (encode_words buffer2) st in
    let index1 := u32 (index1 + 1) in
    let index2 := 0 in
    if new_sectors =? 0 then Ok (id, buffer1, st)
    else grow_doubly fuel id buffer1 buffer2 index1 index2 new_sectors st
  else Ok (id, buffer1, st).
Proof. reflexivity. Qed.

#[global] Opaque grow_direct grow_indirect grow_doubly_inner grow_doubly.

Lemma grow_direct_total fuel : forall id n st,
  0 <= blocks id -> Z.max 0 (DIRECT_BLOCKS - blocks id) < Z.of_nat fuel ->
  exists r id' n' st',
    grow_direct fuel id n st = Ok (r, id', n', st')
    /\ same_header id id' /\ blocks id <= blocks id'
    /\ (r = false -> DIRECT_BLOCKS <= blocks id').
Proof.
  unfold DIRECT_BLOCKS.
  induction fuel as [|fuel IH]; intros id n st Hb Hf; [lia|].
  rewrite grow_direct_S. unfold DIRECT_BLOCKS.
  destruct (Z.ltb_spec (blocks id) 12) as [Hlt|Hge].
  - destruct (free_map_allocate st) as [[ok s] st1]. cbv zeta.
    destruct (Z.eqb_spec (u32 (n - 1)) 0) as [Hz|Hz].
    + do 4 eexists. split; [reflexivity|]. rsimpl.
      rewrite u32_small by lia. repeat split; auto; try lia; discriminate.
    + match goal with |- context [grow_direct fuel ?i ?m ?s] =>
        destruct (IH i m s) as (r & id' & n' & st' & E & Hh & Hle & Hr) end.
      * rsimpl. rewrite u32_small by lia. lia.
      * rsimpl. rewrite u32_small by lia. lia.
      * rewrite E. do 4 eexists. split; [reflexivity|].
        rsimpl. rewrite u32_small in Hle by lia.
        split; [exact Hh|]. split; [lia|exact Hr].
  - do 4 eexists. split; [reflexivity|].
    split; [apply same_header_refl|]. split; [lia|]. intros _. lia.
Qed.

Lemma grow_indirect_total fuel : forall id buffer n st,
  0 <= blocks id -> Z.max 0 (INDIRECT_BLOCKS - blocks id) < Z.of_nat fuel ->
  exists id' buffer' n' st',
    grow_indirect fuel id buffer n st = Ok (id', buffer', n', st')
    /\ same_header id id' /\ direct id' = direct id.
Proof.
  unfold INDIRECT_BLOCKS.
  induction fuel as [|fuel IH]; intros id buffer n st Hb Hf; [lia|].
  rewrite grow_indirect_S. unfold INDIRECT_BLOCKS.
  destruct (Z.ltb_spec (blocks id) 140) as [Hlt|Hge].
  - destruct (free_map_allocate st) as [[ok s] st1]. cbv zeta.
    destruct (Z.eqb_spec (u32 (n - 1)) 0) as [Hz|Hz].
    + do 4 eexists. split; [reflexivity|]. split; [|reflexivity].
      apply same_header_set_blocks.
    + match goal with |- context [grow_indirect fuel ?i ?b ?m ?s] =>
        destruct (IH i b m s) as (id' & b' & n' & st' & E & Hh & Hd) end.
      * rsimpl. rewrite u32_small by lia. lia.
      * rsimpl. rewrite u32_small by lia. lia.
      * rewrite E. do 4 eexists. split; [reflexivity|].
        split; [exact Hh | exact Hd].
  - do 4 eexists. split; [reflexivity|]. split; [apply same_header_refl | reflexivity].
Qed.

Lemma grow_doubly_inner_total fuel : forall id buffer2 index2 n st,
  0 <= index2 -> Z.max 0 (INDIRECT_BLOCK_SIZE - index2) < Z.of_nat fuel ->
  exists id' buffer2' index2' n' st',
    grow_doubly_inner fuel id buffer2 index2 n st = Ok (id', buffer2', index2', n', st')
    /\ same_header id id' /\ direct id' = direct id.
Proof.
  unfold INDIRECT_BLOCK_SIZE.
  induction fuel as [|fuel IH]; intros id buffer2 index2 n st Hb Hf; [lia|].
  rewrite grow_doubly_inner_S. unfold INDIRECT_BLOCK_SIZE.
  destruct (Z.ltb_spec index2 128) as [Hlt|Hge].
  - destruct (free_map_allocate st) as [[ok s] st1]. cbv zeta.
    destruct (Z.eqb_spec (u32 (n - 1)) 0) as [Hz|Hz].
    + do 5 eexists. split; [reflexivity|]. split; [|reflexivity].
      apply same_header_set_blocks.
    + match goal with |- context [grow_doubly_inner fuel ?i ?b ?x ?m ?s] =>
        destruct (IH i b x m s) as (id' & b' & x' & n' & st' & E & Hh & Hd) end.
      * rewrite u32_small by lia. lia.
      * rewrite u32_small by lia. lia.
      * rewrite E. do 5 eexists. split; [reflexivity|].
        split; [exact Hh | exact Hd].
  - do 5 eexists. split; [reflexivity|]. split; [apply same_header_refl | reflexivity].
Qed.

Lemma grow_doubly_total fuel : forall id buffer1 buffer2 index1 index2 n st,
  0 <= index1 -> 0 <= index2 < INDIRECT_BLOCK_SIZE ->
  Z.max 0 (INDIRECT_BLOCK_SIZE - index1) < Z.of_nat fuel ->
  exists id' buffer1' st',
    grow_doubly fuel id buffer1 buffer2 index1 index2 n st = Ok (id', buffer1', st')
    /\ same_header id id' /\ direct id' = direct id.
Proof.
  unfold INDIRECT_BLOCK_SIZE.
  induction fuel as [|fuel IH]; intros id buffer1 buffer2 index1 index2 n st H1 H2 Hf; [lia|].
  rewrite grow_doubly_S. unfold INDIRECT_BLOCK_SIZE.
  destruct (Z.ltb_spec index1 128) as [Hlt|Hge].
  - assert (Egen : forall b1 bb ss,
        exists id' buffer1' st',
          ('(id0, buffer3, _, new_sectors, st0) <- grow_doubly_inner 129 id bb index2 n ss;;
           (let st1 := cache_write (zget b1 index1 0) (encode_words buffer3) st0 in
            let index1' := u32 (index1 + 1) in
            let index2' := 0 in
            if new_sectors =? 0
            then Ok (id0, b1, st1)
            else grow_doubly fuel id0 b1 buffer3 index1' index2' new_sectors st1))
          = Ok (id', buffer1', st')
          /\ same_header id id' /\ direct id' = direct id).
    { intros b1 bb ss.
      destruct (grow_doubly_inner_total 129 id bb index2 n ss)
        as (id1 & b2 & x2 & n1 & st1 & E & Hh & Hd);
        [lia | unfold INDIRECT_BLOCK_SIZE; lia |].
      rewrite E. cbn [bind]. cbv zeta.
      destruct (Z.eqb_spec n1 0).
      - do 3 eexists. split; [reflexivity|]. split; assumption.
      - match goal with |- context [grow_doubly fuel id1 ?a ?b ?x 0 n1 ?s] =>
          destruct (IH id1 a b x 0 n1 s) as (id' & b1' & st' & E2 & Hh2 & Hd2) end.
        + rewrite u32_small by lia. lia.
        + lia.
        + rewrite u32_small by lia. lia.
        + rewrite E2. do 3 eexists. split; [reflexivity|].
          split; [eapply same_header_trans; eassumption | congruence]. }
    destruct (index2 =? 0).
    + destruct (free_map_allocate st) as [[ok s] st2]. apply Egen.
    + apply Egen.
  - do 3 eexists. split; [reflexivity|]. split; [apply same_header_refl | reflexivity].
Qed.

Lemma inode_grow_total stk id len st :
  0 <= blocks id ->
  exists id' st', inode_grow stk id len st = Ok (len, id', st') /\ same_header id id'.
Proof.
  intros Hb. unfold inode_grow.
  destruct (u32 (bytes_to_sectors len - bytes_to_sectors (length id)) =? 0).
  { do 2 eexists. split; [reflexivity | apply same_header_refl]. }
  destruct (grow_direct_total 13 id
              (u32 (bytes_to_sectors len - bytes_to_sectors (length id))) st)
    as (r & id1 & n1 & st1 & E1 & Hh1 & Hle1 & Hr1);
    [lia | unfold DIRECT_BLOCKS; lia |].
  rewrite E1. cbn [bind].
  destruct r.
  { do 2 eexists. split; [reflexivity | exact Hh1]. }
  specialize (Hr1 eq_refl). unfold DIRECT_BLOCKS in Hr1.
  assert (Hind : forall id2 buf st2, same_header id id2 -> 12 <= blocks id2 ->
    exists id' st',
      ('(id0, buffer, new_sectors, st0) <- grow_indirect 129 id2 buf n1 st2;;
       (let st3 := cache_write (zget (direct id0) DIRECT_BLOCKS 0) (encode_words buffer) st0 in
        if new_sectors =? 0
        then Ok (len, id0, st3)
        else
         let
         '(id3, buffer1, st4) :=
          if blocks id0 =? INDIRECT_BLOCKS
          then
           let
           '(_, s, st4) := free_map_allocate st3 in
            (set_direct id0 (DIRECT_BLOCKS + 1) s, stack_buffer1 stk, st4)
          else (id0, read_index (zget (direct id0) (DIRECT_BLOCKS + 1) 0) st3, st3) in
          let index1 := u32 (blocks id3 - INDIRECT_BLOCKS) / INDIRECT_BLOCK_SIZE in
          let index2 := u32 (blocks id3 - INDIRECT_BLOCKS) mod INDIRECT_BLOCK_SIZE in
          '(id4, buffer2, st5) <-
          grow_doubly 129 id3 buffer1 (stack_buffer2 stk) index1 index2 new_sectors st4;;
          (let st6 :=
             cache_write (zget (direct id4) (DIRECT_BLOCKS + 1) 0) (encode_words buffer2) st5 in
           Ok (len, id4, st6)))) = Ok (len, id', st') /\ same_header id id').
  { intros id2 buf st2 Hh2 Hb2.
    destruct (grow_indirect_total 129 id2 buf n1 st2)
      as (id3 & b3 & n3 & st3 & E3 & Hh3 & Hd3);
      [lia | unfold INDIRECT_BLOCKS; lia |].
    rewrite E3. cbn [bind]. cbv zeta.
    destruct (n3 =? 0).
    { do 2 eexists. split; [reflexivity|]. eapply same_header_trans; eassumption. }
    assert (Hdbl : forall id4 b1 st4, same_header id id4 ->
      exists id' st',
        ('(id5, buffer2, st5) <-
           grow_doubly 129 id4 b1 (stack_buffer2 stk)
             (u32 (blocks id4 - INDIRECT_BLOCKS) / INDIRECT_BLOCK_SIZE)
             (u32 (blocks id4 - INDIRECT_BLOCKS) mod INDIRECT_BLOCK_SIZE) n3 st4;;
         Ok (len, id5,
             cache_write (zget (direct id5) (DIRECT_BLOCKS + 1) 0) (encode_words buffer2) st5))
        = Ok (len, id', st') /\ same_header id id').
    { intros id4 b1 st4 Hh4.
      pose proof (u32_range (blocks id4 - INDIRECT_BLOCKS)) as Hu.
      match goal with |- context [grow_doubly 129 id4 b1 ?b2 ?x1 ?x2 n3 st4] =>
        destruct (grow_doubly_total 129 id4 b1 b2 x1 x2 n3 st4)
          as (id5 & b5 & st5 & E5 & Hh5 & Hd5) end.
      - unfold INDIRECT_BLOCK_SIZE. lia.
      - unfold INDIRECT_BLOCK_SIZE. lia.
      - unfold INDIRECT_BLOCK_SIZE. lia.
      - rewrite E5. cbn [bind]. do 2 eexists. split; [reflexivity|].
        eapply same_header_trans; eassumption. }
    destruct (blocks id3 =? INDIRECT_BLOCKS).
    - destruct (free_map_allocate _) as [[ok s] st4].
      apply Hdbl. eapply same_header_trans; [|apply same_header_set_direct].
      eapply same_header_trans; eassumption.
    - apply Hdbl. eapply same_header_trans; eassumption. }
  destruct (blocks id1 =? DIRECT_BLOCKS).
  - destruct (free_map_allocate st1) as [[ok s] st2].
    apply Hind; [|rsimpl; lia].
    eapply same_header_trans; [exact Hh1 | apply same_header_set_direct].
  - apply Hind; [exact Hh1 | lia].
Qed.

(** ** Growth within the last allocated sector (C9) *)

(** C9, as amended: [inode_grow] returns for every record and every target
    length, returns the target length, and leaves the [length] field of the
    record as it was (the caller stores the result there).  When the target
    needs as many sectors as the current length, the call allocates
    nothing, writes no sector and leaves the record and the storage as they
    are: that is when [bytes_to_sectors] gives the same for both, which for
    lengths from 0 to 2147483136, where the rounding up stays within [int],
    is to say that [length / 512] rounded up is the same for both. *)
Theorem inode_grow_leaves_length (stk : grow_stack) (id : inode_disk) (len : Z)
    (st : storage) :
  0 <= blocks id ->
  (exists id' st',
     inode_grow stk id len st = Ok (len, id', st') /\ length id' = length id)
  /\ (bytes_to_sectors len = bytes_to_sectors (length id) ->
      inode_grow stk id len st = Ok (len, id, st))
  /\ (0 <= length id <= 2147483136 -> 0 <= len <= 2147483136 ->
      (len + 511) / 512 = (length id + 511) / 512 ->
      inode_grow stk id len st = Ok (len, id, st)).
Proof.
  intros Hb.
  assert (Hsame : bytes_to_sectors len = bytes_to_sectors (length id) ->
            inode_grow stk id len st = Ok (len, id, st)).
  { intros Heq. unfold inode_grow. rewrite Heq, Z.sub_diag. reflexivity. }
  split; [|split].
  - destruct (inode_grow_total stk id len st Hb) as (id' & st' & E & Hh).
    exists id', st'. split; [exact E | apply Hh].
  - exact Hsame.
  - intros HL Hlen Hceil. apply Hsame.
    rewrite !bytes_to_sectors_nonneg by lia. exact Hceil.
Qed.

(** An instance within an allocated sector: the sample file of 600 bytes in
    two sectors grown to 1000 bytes. *)
Lemma inode_grow_leaves_length_witness :
  (exists id' st',
     inode_grow sample_stack sample_file_disk 1000 sample_file_storage
     = Ok (1000, id', st') /\ length id' = 600)
  /\ inode_grow sample_stack sample_file_disk 1000 sample_file_storage
     = Ok (1000, sample_file_disk, sample_file_storage).
Proof.
  destruct (inode_grow_leaves_length sample_stack sample_file_disk 1000
              sample_file_storage) as (H1 & _ & H3).
  - cbn. lia.
  - split; [exact H1|]. apply H3; [cbn; lia | lia | reflexivity].
Defined.

(** C9, the claim as stated: above 2147483136 the sum [size + 511] of
    [DIV_ROUND_UP] leaves the range of [int].  For a record of 2147483137
    bytes and the target 2147483647, the largest [off_t], the lengths
    divided by 512 and rounded up are equal (4194304), but the two calls of
    [bytes_to_sectors] differ by one on the 80x86, and [inode_grow] takes a
    sector from the free map, stores it in [direct[0]] and counts a
    block. *)
Lemma inode_grow_rounding_overflow :
  (2147483647 + 511) / 512
  = (length (set_length (empty_inode_disk false) 2147483137) + 511) / 512
  /\ match inode_grow sample_stack (set_length (empty_inode_disk false) 2147483137)
                      2147483647 (blank_storage [100]) with
     | Ok (l, id', st') =>
       l = 2147483647 /\ blocks id' = 1 /\ zget (direct id') 0 0 = 100
       /\ free_map st' = []
     | _ => False
     end.
Proof. vm_compute. repeat split. Qed.

(** ** The resolver (C3) *)

Lemma byte_to_sector_block_at i pos st :
  0 <= pos < length (data i) -> pos < 8460288 ->
  byte_to_sector i pos st = block_at (data i) st (pos / 512).
Proof.
  intros Hp Hc. unfold byte_to_sector, block_at.
  unfold BLOCK_SECTOR_SIZE, DIRECT_BLOCKS, INDIRECT_BLOCKS, DOUBLY_BLOCKS,
    INDIRECT_BLOCK_SIZE.
  destruct (Z.ltb_spec pos (length (data i))); [|lia].
  rewrite Z.quot_div_nonneg by lia.
  assert (Hq : 0 <= pos / 512 < 16524)
    by (split; [apply Z.div_pos; lia | apply Z.div_lt_upper_bound; lia]).
  rewrite (u32_small (pos / 512)) by lia.
  destruct (Z.ltb_spec (pos / 512) 12); [reflexivity|].
  destruct (Z.ltb_spec (pos / 512) 140).
  - rewrite u32_small by lia. reflexivity.
  - destruct (Z.ltb_spec (pos / 512) 16524); [|lia].
    rewrite u32_small by lia. reflexivity.
Qed.

(** C3: [byte_to_sector] returns the invalid sector for a position at or
    beyond the length of the inode; below it, with [index] the position
    divided by the sector size, it returns [direct[index]] for an index
    below 12, entry [index - 12] of the single-indirect sector for an index
    from 12 to 139, and for an index from 140 to 16523 entry
    [(index - 140) % 128] of the sector that entry [(index - 140) / 128] of
    the double-indirect sector names.  The function is a function of the
    inode and the storage and gives back neither: it changes nothing. *)
Theorem byte_to_sector_resolves (i : inode) (pos : Z) (st : storage) :
  let index := u32 (Z.quot pos BLOCK_SECTOR_SIZE) in
  let id := data i in
  (0 <= pos < 2147483648 -> index = pos / BLOCK_SECTOR_SIZE)
  /\ (length id <= pos -> byte_to_sector i pos st = SECTOR_NONE)
  /\ (pos < length id ->
      (index < 12 -> byte_to_sector i pos st = zget (direct id) index 0)
      /\ (12 <= index < 140 ->
          byte_to_sector i pos st
          = zget (read_index (zget (direct id) 12 0) st) (index - 12) 0)
      /\ (140 <= index < 16524 ->
          let outer := (index - 140) / 128 in
          let inner := (index - 140) mod 128 in
          byte_to_sector i pos st
          = zget (read_index (zget (read_index (zget (direct id) 13 0) st) outer 0) st)
                 inner 0)).
Proof.
  cbv zeta. unfold byte_to_sector, BLOCK_SECTOR_SIZE, DIRECT_BLOCKS, INDIRECT_BLOCKS,
    DOUBLY_BLOCKS, INDIRECT_BLOCK_SIZE.
  pose proof (u32_range (Z.quot pos 512)) as Hr.
  split; [|split].
  - intros Hp. rewrite Z.quot_div_nonneg by lia. apply u32_small.
    split; [apply Z.div_pos; lia | apply Z.div_lt_upper_bound; lia].
  - intros Hp. destruct (Z.ltb_spec pos (length (data i))); [lia | reflexivity].
  - intros Hp. destruct (Z.ltb_spec pos (length (data i))); [|lia].
    split; [|split]; intros Hi.
    + destruct (Z.ltb_spec (u32 (Z.quot pos 512)) 12); [reflexivity | lia].
    + destruct (Z.ltb_spec (u32 (Z.quot pos 512)) 12); [lia|].
      destruct (Z.ltb_spec (u32 (Z.quot pos 512)) 140); [|lia].
      rewrite (u32_small (_ - 12)) by lia. reflexivity.
    + destruct (Z.ltb_spec (u32 (Z.quot pos 512)) 12); [lia|].
      destruct (Z.ltb_spec (u32 (Z.quot pos 512)) 140); [lia|].
      destruct (Z.ltb_spec (u32 (Z.quot pos 512)) 16524); [|lia].
      rewrite (u32_small (_ - 140)) by lia. reflexivity.
Qed.

(** ** Denying and allowing writes, repeated *)

Lemma set_deny_write_cnt_same i : set_deny_write_cnt i (deny_write_cnt i) = i.
Proof. destruct i; reflexivity. Qed.

Lemma iterate_deny (n : nat) : forall i,
  0 <= deny_write_cnt i -> deny_write_cnt i + Z.of_nat n <= open_cnt i ->
  open_cnt i < 2147483648 ->
  iterate n inode_deny_write i
  = Ok (set_deny_write_cnt i (deny_write_cnt i + Z.of_nat n)).
Proof.
  induction n as [|n IH]; intros i H0 Hn Ho.
  - cbn [iterate]. rewrite Z.add_0_r, set_deny_write_cnt_same. reflexivity.
  - cbn [iterate]. unfold inode_deny_write at 1.
    cbn [deny_write_cnt open_cnt set_deny_write_cnt].
    rewrite s32_small by lia.
    destruct (Z.leb_spec (deny_write_cnt i + 1) (open_cnt i)); [|lia].
    cbn [bind]. rewrite IH; cbn [deny_write_cnt open_cnt set_deny_write_cnt]; try lia.
    unfold set_deny_write_cnt. cbn. do 2 f_equal. lia.
Qed.

Lemma iterate_allow (n : nat) : forall i,
  Z.of_nat n <= deny_write_cnt i <= open_cnt i -> open_cnt i < 2147483648 ->
  iterate n inode_allow_write i
  = Ok (set_deny_write_cnt i (deny_write_cnt i - Z.of_nat n)).
Proof.
  induction n as [|n IH]; intros i Hn Ho.
  - cbn [iterate]. rewrite Z.sub_0_r, set_deny_write_cnt_same. reflexivity.
  - cbn [iterate]. unfold inode_allow_write at 1.
    destruct (Z.ltb_spec 0 (deny_write_cnt i)); [|lia].
    destruct (Z.leb_spec (deny_write_cnt i) (open_cnt i)); [|lia].
    cbn [negb bind]. rewrite s32_small by lia.
    rewrite IH; cbn [deny_write_cnt open_cnt set_deny_write_cnt]; try lia.
    unfold set_deny_write_cnt. cbn. do 2 f_equal. lia.
Qed.

(** ** The list of open inodes *)

Lemma find_inode_update a v l b :
  find_inode b (update_inode a v l)
  = if Nat.eqb b a then option_map (fun _ => v) (find_inode a l) else find_inode b l.
Proof.
  induction l as [|[c i] t IH]; cbn [update_inode find_inode].
  - destruct (Nat.eqb b a); reflexivity.
  - destruct (Nat.eqb_spec a c) as [Eac|Hac]; cbn [find_inode option_map].
    + subst c. destruct (Nat.eqb_spec b a); reflexivity.
    + destruct (Nat.eqb_spec b c) as [Ebc|Hbc].
      * subst c. destruct (Nat.eqb_spec b a); [congruence | reflexivity].
      * exact IH.
Qed.

Lemma map_fst_update a v l : map fst (update_inode a v l) = map fst l.
Proof.
  induction l as [|[c i] t IH]; cbn [update_inode map]; auto.
  destruct (Nat.eqb a c); cbn [map fst]; congruence.
Qed.

Lemma map_sector_update a v l i :
  find_inode a l = Some i -> sector v = sector i ->
  map (fun e => sector (snd e)) (update_inode a v l) = map (fun e => sector (snd e)) l.
Proof.
  induction l as [|[c j] t IH]; cbn [update_inode find_inode map]; auto.
  destruct (Nat.eqb a c); cbn [map snd]; intros F E.
  - inversion F; subst. congruence.
  - f_equal. auto.
Qed.

Lemma length_update a v l : List.length (update_inode a v l) = List.length l.
Proof.
  induction l as [|[c j] t IH]; cbn [update_inode]; auto.
  destruct (Nat.eqb a c); cbn [List.length]; congruence.
Qed.

Lemma find_sector_in s l a : find_sector s l = Some a -> In a (map fst l).
Proof.
  induction l as [|[c j] t IH]; cbn [find_sector map fst]; [discriminate|].
  destruct (sector j =? s); intros E.
  - inversion E. left; reflexivity.
  - right; auto.
Qed.


Lemma find_inode_in_pair a l i : find_inode a l = Some i -> In (a, i) l.
Proof.
  induction l as [|[c j] t IH]; cbn [find_inode]; [discriminate|].
  destruct (Nat.eqb_spec a c); intros E; [left; congruence | right; auto].
Qed.

Lemma find_sector_some s l a :
  NoDup (map fst l) -> find_sector s l = Some a ->
  exists i, find_inode a l = Some i /\ sector i = s.
Proof.
  induction l as [|[c j] t IH]; cbn [find_sector find_inode map fst]; [discriminate|].
  intros Hnd. inversion Hnd as [|x xs Hnin Hnd']; subst.
  destruct (Z.eqb_spec (sector j) s) as [Hs|Hs]; intros E.
  - inversion E; subst. rewrite Nat.eqb_refl. eauto.
  - destruct (Nat.eqb_spec a c) as [->|Hac].
    + exfalso. apply Hnin. eapply find_sector_in; eauto.
    + auto.
Qed.

Lemma find_sector_none s l :
  find_sector s l = None -> ~ In s (map (fun e => sector (snd e)) l).
Proof.
  induction l as [|[c j] t IH]; cbn [find_sector map snd]; [auto|].
  destruct (Z.eqb_spec (sector j) s); [discriminate|].
  intros E [H|H]; [congruence | exact (IH E H)].
Qed.

Lemma fresh_addr_above l a : In a (map fst l) -> (a < fresh_addr l)%nat.
Proof.
  unfold fresh_addr. induction l as [|[c j] t IH]; cbn [map fst fold_right In].
  - intros [].
  - intros [->|H]; [lia|]. specialize (IH H). lia.
Qed.

Lemma fresh_addr_fresh l : ~ In (fresh_addr l) (map fst l).
Proof. intros H. apply fresh_addr_above in H. lia. Qed.

Lemma list_remove_subset a l e : In e (list_remove a l) -> In e l.
Proof.
  induction l as [|[c j] t IH]; cbn [list_remove]; [auto|].
  destruct (Nat.eqb a c); cbn [In]; tauto.
Qed.

Lemma NoDup_map_list_remove {B} (f : nat * inode -> B) a l :
  NoDup (map f l) -> NoDup (map f (list_remove a l)).
Proof.
  induction l as [|[c j] t IH]; cbn [list_remove map]; [auto|].
  intros Hnd. inversion Hnd as [|x xs Hnin Hnd']; subst.
  destruct (Nat.eqb a c); [exact Hnd'|].
  cbn [map]. constructor; [|auto].
  intros Hin. apply Hnin. apply in_map_iff in Hin. destruct Hin as (e & He & Hin).
  apply in_map_iff. exists e. split; [exact He|]. eapply list_remove_subset; eauto.
Qed.


Lemma one_inode_per_sector_update fs st a v i :
  one_inode_per_sector fs -> find_inode a (open_inodes fs) = Some i ->
  sector v = sector i ->
  one_inode_per_sector {| store := st; open_inodes := update_inode a v (open_inodes fs) |}.
Proof.
  intros [Hs Ha] F E. unfold one_inode_per_sector. cbn [open_inodes].
  rewrite map_fst_update, (map_sector_update _ _ _ _ F E). split; assumption.
Qed.

Lemma one_inode_per_sector_remove fs st a :
  one_inode_per_sector fs ->
  one_inode_per_sector {| store := st; open_inodes := list_remove a (open_inodes fs) |}.
Proof.
  intros [Hs Ha]. split; cbn [open_inodes]; apply NoDup_map_list_remove; assumption.
Qed.

Lemma one_inode_per_sector_store fs st :
  one_inode_per_sector fs ->
  one_inode_per_sector {| store := st; open_inodes := open_inodes fs |}.
Proof. intros H; exact H. Qed.

Lemma inode_reopen_ok a i fs :
  find_inode a (open_inodes fs) = Some i ->
  inode_reopen (Some a) fs
  = Ok (Some a, {| store := store fs;
                   open_inodes := update_inode a (set_open_cnt i (s32 (open_cnt i + 1)))
                                               (open_inodes fs) |}).
Proof. intros F. unfold inode_reopen. rewrite F. reflexivity. Qed.

Lemma inode_write_at_sector stk mem_ok i buffer_ size offset st n i' st' :
  inode_write_at stk mem_ok i buffer_ size offset st = Ok (n, i', st') ->
  sector i' = sector i.
Proof.
  unfold inode_write_at.
  destruct (negb (deny_write_cnt i =? 0)); [intros E; inversion E; reflexivity|].
  destruct (inode_length i <? s32 (offset + size)).
  - destruct (inode_grow stk (data i) (s32 (offset + size)) st) as [[[l id] st1]| |];
      cbn [bind]; try discriminate.
    match goal with |- context [write_loop ?f ?m ?j ?b ?s ?o ?w ?bn ?t] =>
      destruct (write_loop f m j b s o w bn t) as [[bw st2]| |] end;
      cbn [bind]; try discriminate.
    intros E; inversion E; reflexivity.
  - cbn [bind].
    match goal with |- context [write_loop ?f ?m ?j ?b ?s ?o ?w ?bn ?t] =>
      destruct (write_loop f m j b s o w bn t) as [[bw st2]| |] end;
      cbn [bind]; try discriminate.
    intros E; inversion E; reflexivity.
Qed.

Lemma fs_step_one_inode_per_sector fs fs' :
  one_inode_per_sector fs -> fs_step fs fs' -> one_inode_per_sector fs'.
Proof.
  intros Hinv Hstep.
  destruct Hstep;
    match goal with E0 : _ = Ok _ |- _ => rename E0 into E end.
  - (* inode_open *)
    unfold inode_open in E. destruct (find_sector s (open_inodes fs)) as [a|] eqn:F.
    + destruct (find_sector_some _ _ _ (proj2 Hinv) F) as (i & Fi & Hs).
      rewrite (inode_reopen_ok _ _ _ Fi) in E. inversion E; subst.
      eapply one_inode_per_sector_update; eauto.
    + destruct mem_ok; inversion E; subst; [|exact Hinv].
      destruct Hinv as [Hs Ha]. split; cbn [open_inodes map fst snd sector].
      * constructor; [apply find_sector_none; exact F | exact Hs].
      * constructor; [apply fresh_addr_fresh | exact Ha].
  - (* inode_reopen *)
    unfold inode_reopen in E. destruct h as [a|]; [|inversion E; subst; exact Hinv].
    destruct (find_inode a (open_inodes fs)) as [i|] eqn:F; [|discriminate].
    inversion E; subst. eapply one_inode_per_sector_update; eauto.
  - (* inode_close *)
    unfold inode_close in E. destruct h as [a|]; [|inversion E; subst; exact Hinv].
    destruct (find_inode a (open_inodes fs)) as [i|] eqn:F; [|discriminate].
    cbn [open_cnt set_open_cnt removed sector data] in E.
    destruct (s32 (open_cnt i - 1) =? 0).
    + destruct (removed i).
      * destruct (inode_free _ _) as [st1| |]; cbn [bind] in E; try discriminate.
        inversion E; subst. apply one_inode_per_sector_remove; exact Hinv.
      * inversion E; subst. apply one_inode_per_sector_remove; exact Hinv.
    + inversion E; subst. eapply one_inode_per_sector_update; eauto.
  - (* inode_remove *)
    unfold inode_remove in E. destruct h as [a|]; [|discriminate].
    destruct (find_inode a (open_inodes fs)) as [i|] eqn:F; [|discriminate].
    inversion E; subst. eapply one_inode_per_sector_update; eauto.
  - (* inode_write_at *)
    unfold inode_write_at_ptr, deref in E. destruct h as [a|]; [|discriminate].
    destruct (find_inode a (open_inodes fs)) as [i|] eqn:F; [|discriminate].
    cbn [bind] in E.
    destruct (inode_write_at stk mem_ok i buffer_ size offset (store fs))
      as [[[k i'] st1]| |] eqn:W;
      cbn [bind] in E; try discriminate.
    inversion E; subst. cbn [store_inode].
    eapply one_inode_per_sector_update; eauto.
    eapply inode_write_at_sector; eauto.
  - (* inode_deny_write *)
    unfold inode_deny_write_ptr, deref in E. destruct h as [a|]; [|discriminate].
    destruct (find_inode a (open_inodes fs)) as [i|] eqn:F; [|discriminate].
    cbn [bind] in E. unfold inode_deny_write in E.
    destruct (_ <=? _); cbn [bind] in E; [|discriminate].
    inversion E; subst. cbn [store_inode].
    eapply one_inode_per_sector_update; eauto.
  - (* inode_allow_write *)
    unfold inode_allow_write_ptr, deref in E. destruct h as [a|]; [|discriminate].
    destruct (find_inode a (open_inodes fs)) as [i|] eqn:F; [|discriminate].
    cbn [bind] in E. unfold inode_allow_write in E.
    destruct (negb (0 <? _)); cbn [bind] in E; [discriminate|].
    destruct (negb (_ <=? _)); cbn [bind] in E; [discriminate|].
    inversion E; subst. cbn [store_inode].
    eapply one_inode_per_sector_update; eauto.
  - (* inode_create *)
    exact Hinv.
Qed.

Lemma reachable_one_inode_per_sector fs : reachable fs -> one_inode_per_sector fs.
Proof.
  induction 1 as [st | fs fs' _ IH Hstep].
  - split; constructor.
  - eapply fs_step_one_inode_per_sector; eauto.
Qed.

(** ** Opening an inode that is open already (C6) *)

(** C6: in every state that the module reaches after [inode_init], no two
    in-memory inodes have the same sector; when the list of open inodes
    holds an inode for sector [s], [inode_open (s)] returns that very inode
    with its [open_cnt] one higher ([int] arithmetic), links no new inode,
    leaves every other inode and the storage as they are, and the state it
    leaves has again at most one inode per sector. *)
Theorem inode_open_shares_handle (mem_ok : bool) (s : Z) (fs : filesys)
    (a : nat) (i : inode) :
  reachable fs ->
  find_inode a (open_inodes fs) = Some i -> sector i = s ->
  one_inode_per_sector fs
  /\ exists fs',
      inode_open mem_ok s fs = Ok (Some a, fs')
      /\ find_inode a (open_inodes fs') = Some (set_open_cnt i (s32 (open_cnt i + 1)))
      /\ (open_cnt i < 2147483647 ->
          -2147483648 <= open_cnt i ->
          inode_get_open_cnt (set_open_cnt i (s32 (open_cnt i + 1))) = open_cnt i + 1)
      /\ (forall b, b <> a -> find_inode b (open_inodes fs') = find_inode b (open_inodes fs))
      /\ List.length (open_inodes fs') = List.length (open_inodes fs)
      /\ map fst (open_inodes fs') = map fst (open_inodes fs)
      /\ store fs' = store fs
      /\ one_inode_per_sector fs'.
Proof.
  intros Hr F Hs.
  pose proof (reachable_one_inode_per_sector fs Hr) as Hinv.
  split; [exact Hinv|].
  assert (Fs : find_sector s (open_inodes fs) = Some a).
  { destruct (find_sector s (open_inodes fs)) as [b|] eqn:Fb.
    - destruct (find_sector_some _ _ _ (proj2 Hinv) Fb) as (j & Fj & Hj).
      f_equal. destruct (Nat.eq_dec b a) as [|Hne]; [assumption|exfalso].
      (* two elements with sector [s] at different addresses *)
      destruct Hinv as [Hnd _].
      apply find_inode_in_pair in F. apply find_inode_in_pair in Fj.
      revert Hnd F Fj. generalize (open_inodes fs) as l.
      induction l as [|[c k] t IH]; cbn [map In snd]; [tauto|].
      intros Hnd. inversion Hnd as [|x xs Hnin Hnd']; subst x xs.
      intros [E1|I1] [E2|I2].
      + congruence.
      + inversion E1; subst. apply Hnin. apply in_map_iff.
        exists (b, j). split; [cbn; congruence | exact I2].
      + inversion E2; subst. apply Hnin. apply in_map_iff.
        exists (a, i). split; [cbn; congruence | exact I1].
      + exact (IH Hnd' I1 I2).
    - exfalso. apply (find_sector_none _ _ Fb). apply in_map_iff.
      exists (a, i). split; [exact Hs | apply find_inode_in_pair; exact F]. }
  eexists. split.
  { unfold inode_open. rewrite Fs. apply inode_reopen_ok. exact F. }
  cbn [open_inodes store].
  split. { rewrite find_inode_update, Nat.eqb_refl, F. reflexivity. }
  split. { intros H1 H2. cbn. apply s32_small. lia. }
  split. { intros b Hb. rewrite find_inode_update.
           destruct (Nat.eqb_spec b a); [contradiction | reflexivity]. }
  split. { apply length_update. }
  split. { apply map_fst_update. }
  split. { reflexivity. }
  eapply one_inode_per_sector_update; eauto.
Qed.

(** ** The cases of a close *)


Lemma inode_close_cases a i fs :
  find_inode a (open_inodes fs) = Some i ->
  let j := set_open_cnt i (s32 (open_cnt i - 1)) in
  (open_cnt j <> 0 ->
   inode_close (Some a) fs
   = Ok {| store := store fs; open_inodes := update_inode a j (open_inodes fs) |})
  /\ (open_cnt j = 0 -> removed i = true ->
      inode_close (Some a) fs
      = (st <- inode_free j (free_map_release (sector i) (store fs)) ;;
         Ok {| store := st; open_inodes := list_remove a (open_inodes fs) |}))
  /\ (open_cnt j = 0 -> removed i = false ->
      inode_close (Some a) fs
      = Ok {| store := cache_write (sector i) (encode_inode (data i)) (store fs);
              open_inodes := list_remove a (open_inodes fs) |}).
Proof.
  intros F j. unfold inode_close. rewrite F. fold j.
  cbn [open_cnt removed sector data set_open_cnt j].
  destruct (Z.eqb_spec (s32 (open_cnt i - 1)) 0) as [Hz|Hz].
  - split; [intros H; contradiction|].
    split; intros _ Hr; rewrite Hr; reflexivity.
  - split; [reflexivity|]. split; intros H; contradiction.
Qed.

(** ** Growth on an exhausted free map (C5) *)

(** C5: what the code does when the allocator has nothing to give.  An
    empty record grown to one sector on an empty free pool: [inode_grow]
    does not look at the result of [free_map_allocate]; it returns the
    target length, counts a block, leaves the invalid sector number in
    [direct[0]] and writes the zero sector to that sector number. *)
Theorem inode_grow_ignores_exhaustion (stk : grow_stack) :
  exists id' st',
    inode_grow stk (empty_inode_disk false) 512 (blank_storage []) = Ok (512, id', st')
    /\ blocks id' = 1
    /\ zget (direct id') 0 0 = SECTOR_NONE
    /\ block_at id' st' 0 = SECTOR_NONE
    /\ free_map st' = [].
Proof.
  do 2 eexists. split; [vm_compute; reflexivity|].
  repeat split.
Qed.

(** ** Concrete instances *)

Lemma byte_to_sector_resolves_witness :
  byte_to_sector
    (sample_inode 1 (set_length (set_direct (empty_inode_disk false) 0 40) 100)) 5
    (blank_storage [])
  = 40.
Proof.
  pose proof (byte_to_sector_resolves
    (sample_inode 1 (set_length (set_direct (empty_inode_disk false) 0 40) 100)) 5
    (blank_storage [])) as H.
  cbv zeta in H. destruct H as (_ & _ & H).
  destruct (H ltac:(cbn; lia)) as (H1 & _).
  rewrite (H1 ltac:(vm_compute; reflexivity)). reflexivity.
Defined.

Lemma sample_fs_reachable : reachable sample_fs.
Proof.
  apply (reach_step (inode_init (blank_storage [])) sample_fs (reach_init _)).
  apply (step_open true 7 (inode_init (blank_storage [])) (Some 1%nat) sample_fs).
  reflexivity.
Defined.

Lemma inode_open_shares_handle_witness :
  reachable sample_fs
  /\ one_inode_per_sector sample_fs
  /\ exists fs',
      inode_open true 7 sample_fs = Ok (Some 1%nat, fs')
      /\ List.length (open_inodes fs') = 1%nat
      /\ store fs' = store sample_fs.
Proof.
  split; [exact sample_fs_reachable|].
  destruct (inode_open_shares_handle true 7 sample_fs 1%nat
              (sample_inode 1 (decode_inode zeros))
              sample_fs_reachable eq_refl eq_refl)
    as (Hinv & fs' & E & _ & _ & _ & Hlen & _ & Hst & _).
  split; [exact Hinv|].
  exists fs'. split; [exact E|]. split; [exact Hlen | exact Hst].
Defined.

(** ** Integer ranges *)

Lemma zrange_nil a b : b <= a -> zrange a b = [].
Proof. intros H. unfold zrange. replace (Z.to_nat (b - a)) with O by lia. reflexivity. Qed.

Lemma zrange_cons a b : a < b -> zrange a b = a :: zrange (a + 1) b.
Proof.
  intros H. unfold zrange.
  replace (Z.to_nat (b - a)) with (S (Z.to_nat (b - (a + 1)))) by lia.
  cbn [seq map]. f_equal; [lia|].
  rewrite <- (seq_shift _ 0), map_map. apply map_ext. intros k. lia.
Qed.

Lemma seq_as_map s m : seq s m = map (fun k => (s + k)%nat) (seq 0 m).
Proof.
  induction m as [|m IH] in s |- *; [reflexivity|].
  cbn [seq map]. f_equal; [lia|].
  rewrite <- (seq_shift m 0), map_map, (IH (S s)). apply map_ext. intros k. lia.
Qed.

Lemma zrange_app a b c : a <= b <= c -> zrange a c = zrange a b ++ zrange b c.
Proof.
  intros H. unfold zrange.
  replace (Z.to_nat (c - a)) with (Z.to_nat (b - a) + Z.to_nat (c - b))%nat by lia.
  rewrite seq_app, map_app. f_equal.
  cbn [Nat.add]. rewrite (seq_as_map (Z.to_nat (b - a))), map_map.
  apply map_ext. intros k. lia.
Qed.

Lemma zrange_snoc a b : a <= b -> zrange a (b + 1) = zrange a b ++ [b].
Proof.
  intros H. rewrite (zrange_app a b (b + 1)) by lia. f_equal.
  rewrite zrange_cons by lia. rewrite zrange_nil by lia. reflexivity.
Qed.

Lemma in_zrange a b x : In x (zrange a b) <-> a <= x < b.
Proof.
  unfold zrange. rewrite in_map_iff. split.
  - intros (k & <- & Hk). apply in_seq in Hk. lia.
  - intros H. exists (Z.to_nat (x - a)). split; [lia|]. apply in_seq. lia.
Qed.

Lemma length_zrange a b : List.length (zrange a b) = Z.to_nat (b - a).
Proof. unfold zrange. rewrite length_map, length_seq. reflexivity. Qed.

Lemma NoDup_zrange a b : NoDup (zrange a b).
Proof.
  unfold zrange. generalize (Z.to_nat (b - a)) as m. intros m.
  apply Injective_map_NoDup; [|apply seq_NoDup].
  intros x y. lia.
Qed.

Lemma map_zrange_shift {B} (f : Z -> B) a b c :
  map f (zrange (a + c) (b + c)) = map (fun x => f (x + c)) (zrange a b).
Proof.
  unfold zrange. replace (b + c - (a + c)) with (b - a) by lia.
  rewrite !map_map. apply map_ext. intros k. f_equal. lia.
Qed.

Lemma map_ext_zrange {B} (f g : Z -> B) a b :
  (forall x, a <= x < b -> f x = g x) -> map f (zrange a b) = map g (zrange a b).
Proof. intros H. apply map_ext_in. intros x Hx. apply H, in_zrange, Hx. Qed.

(** ** The release engine (C4) *)

Lemma free_direct_S fuel id sectors index st :
  free_direct (S fuel) id sectors index st =
  if index <? DIRECT_BLOCKS then
    let st := free_map_release (zget (direct id) index 0) st in
    let sectors := u32 (sectors - 1) in
    let index := u32 (index + 1) in
    if sectors =? 0 then Ok (true, sectors, index, st)
    else free_direct fuel id sectors index st
  else Ok (false, sectors, index, st).
Proof. reflexivity. Qed.

Lemma free_entries_S fuel buffer to_free i sectors st :
  free_entries (S fuel) buffer to_free i sectors st =
  if i <? to_free then
    let st := free_map_release (zget buffer i 0) st in
    let sectors := u32 (sectors - 1) in
    free_entries fuel buffer to_free (u32 (i + 1)) sectors st
  else Ok (sectors, st).
Proof. reflexivity. Qed.

Lemma free_doubly_S fuel buffer1 doubly_blocks i sectors st :
  free_doubly (S fuel) buffer1 doubly_blocks i sectors st =
  if i <? doubly_blocks then
    let to_free := if sectors <? INDIRECT_BLOCK_SIZE then sectors
                   else INDIRECT_BLOCK_SIZE in
    if INDIRECT_BLOCK_SIZE <=? i then Fault else
    let buffer2 := read_index (zget buffer1 i 0) st in
    '(sectors, st) <- free_entries 129 buffer2 to_free 0 sectors st ;;
    let st := free_map_release (zget buffer1 i 0) st in
    free_doubly fuel buffer1 doubly_blocks (u32 (i + 1)) sectors st
  else Ok (sectors, st).
Proof. reflexivity. Qed.

#[global] Opaque free_direct free_entries free_doubly.

Lemma release_all_cons s l st :
  release_all (s :: l) st = release_all l (free_map_release s st).
Proof. reflexivity. Qed.

Lemma release_all_app l1 l2 st :
  release_all (l1 ++ l2) st = release_all l2 (release_all l1 st).
Proof. unfold release_all. apply fold_left_app. Qed.

Lemma release_all_spec l st :
  release_all l st = {| disk := disk st; free_map := rev l ++ free_map st |}.
Proof.
  induction l as [|s l IH] in st |- *.
  - destruct st; reflexivity.
  - rewrite release_all_cons, IH. unfold free_map_release. cbn [disk free_map rev].
    rewrite <- app_assoc. reflexivity.
Qed.

Lemma disk_release_all l st : disk (release_all l st) = disk st.
Proof. rewrite release_all_spec. reflexivity. Qed.

Lemma read_index_disk s st st' : disk st = disk st' -> read_index s st = read_index s st'.
Proof. intros H. unfold read_index, cache_read. rewrite H. reflexivity. Qed.

Lemma free_direct_run fuel : forall id sectors index st,
  0 <= index <= 12 -> 0 < sectors < 4294967296 ->
  Z.max 0 (12 - index) < Z.of_nat fuel ->
  free_direct fuel id sectors index st
  = Ok ((index <? 12) && (sectors <=? 12 - index),
        sectors - Z.min sectors (12 - index),
        index + Z.min sectors (12 - index),
        release_all (map (fun k => zget (direct id) k 0)
                         (zrange index (index + Z.min sectors (12 - index)))) st).
Proof.
  induction fuel as [|fuel IH]; intros id sectors index st Hi Hs Hf; [lia|].
  rewrite free_direct_S. unfold DIRECT_BLOCKS.
  destruct (Z.ltb_spec index 12) as [Hlt|Hge].
  - cbv zeta. rewrite (u32_small (sectors - 1)), (u32_small (index + 1)) by lia.
    destruct (Z.eqb_spec (sectors - 1) 0) as [Hz|Hz].
    + replace (Z.min sectors (12 - index)) with 1 by lia.
      destruct (Z.leb_spec sectors (12 - index)); [|lia].
      rewrite zrange_cons, zrange_nil by lia. cbn [map andb].
      rewrite release_all_cons. cbn [release_all fold_left].
      repeat f_equal; lia.
    + rewrite IH by lia.
      rewrite (zrange_cons index) by lia. cbn [map].
      rewrite release_all_cons.
      replace (index + 1 + Z.min (sectors - 1) (12 - (index + 1)))
        with (index + Z.min sectors (12 - index)) by lia.
      replace (sectors - 1 - Z.min (sectors - 1) (12 - (index + 1)))
        with (sectors - Z.min sectors (12 - index)) by lia.
      replace ((index + 1 <? 12) && (sectors - 1 <=? 12 - (index + 1)))
        with (true && (sectors <=? 12 - index)); [reflexivity|].
      destruct (Z.ltb_spec (index + 1) 12), (Z.leb_spec (sectors - 1) (12 - (index + 1))),
        (Z.leb_spec sectors (12 - index)); cbn [andb]; try reflexivity; exfalso; lia.
  - replace (Z.min sectors (12 - index)) with 0 by lia.
    rewrite Z.add_0_r, Z.sub_0_r, zrange_nil by lia. reflexivity.
Qed.

Lemma free_entries_run fuel : forall buffer to_free i sectors st,
  0 <= i -> to_free - i <= sectors < 4294967296 -> to_free < 4294967296 ->
  Z.max 0 (to_free - i) < Z.of_nat fuel ->
  free_entries fuel buffer to_free i sectors st
  = Ok (sectors - Z.max 0 (to_free - i),
        release_all (map (fun k => zget buffer k 0) (zrange i to_free)) st).
Proof.
  induction fuel as [|fuel IH]; intros buffer to_free i sectors st Hi Hs Ht Hf; [lia|].
  rewrite free_entries_S.
  destruct (Z.ltb_spec i to_free) as [Hlt|Hge].
  - cbv zeta. rewrite (u32_small (sectors - 1)), (u32_small (i + 1)) by lia.
    rewrite IH by lia.
    rewrite (zrange_cons i) by lia. cbn [map]. rewrite release_all_cons.
    replace (sectors - 1 - Z.max 0 (to_free - (i + 1)))
      with (sectors - Z.max 0 (to_free - i)) by lia.
    reflexivity.
  - rewrite zrange_nil by lia. replace (Z.max 0 (to_free - i)) with 0 by lia.
    rewrite Z.sub_0_r. reflexivity.
Qed.

Lemma flat_map_ext_in {A B} (f g : A -> list B) l :
  (forall x, In x l -> f x = g x) -> flat_map f l = flat_map g l.
Proof.
  induction l as [|a l IH]; intros H; [reflexivity|].
  cbn [flat_map]. rewrite (H a) by (left; reflexivity).
  f_equal. apply IH. intros x Hx. apply H. right; exact Hx.
Qed.

Lemma free_doubly_run fuel : forall buffer1 doubly_blocks i sectors st st0,
  disk st = disk st0 ->
  0 <= i -> doubly_blocks <= 128 -> 0 <= sectors < 4294967296 ->
  doubly_blocks = i + (sectors + 127) / 128 ->
  doubly_blocks - i < Z.of_nat fuel ->
  free_doubly fuel buffer1 doubly_blocks i sectors st
  = Ok (0,
        release_all
          (flat_map (fun j =>
                       map (fun k => zget (read_index (zget buffer1 j 0) st0) k 0)
                           (zrange 0 (Z.min (sectors - 128 * (j - i)) 128))
                       ++ [zget buffer1 j 0])
                    (zrange i doubly_blocks)) st).
Proof.
  induction fuel as [|fuel IH];
    intros buffer1 db i sectors st st0 Hd Hi Hdb Hs Heq Hf; [lia|].
  rewrite free_doubly_S. unfold INDIRECT_BLOCK_SIZE.
  destruct (Z.ltb_spec i db) as [Hlt|Hge].
  - cbv zeta.
    destruct (Z.leb_spec 128 i); [lia|].
    assert (Hpos : 0 < sectors) by lia.
    set (to_free := if sectors <? 128 then sectors else 128).
    assert (Htf : to_free = Z.min sectors 128)
      by (unfold to_free; destruct (Z.ltb_spec sectors 128); lia).
    rewrite free_entries_run by lia.
    cbn [bind]. rewrite (u32_small (i + 1)) by lia.
    replace (sectors - Z.max 0 (to_free - 0)) with (sectors - to_free) by lia.
    rewrite (IH _ _ _ _ _ st0); try lia.
    + rewrite (zrange_cons i db) by lia. cbn [flat_map].
      rewrite !release_all_app. cbn [release_all fold_left].
      rewrite (read_index_disk _ st st0 Hd).
      replace (sectors - 128 * (i - i)) with sectors by lia.
      rewrite <- Htf.
      do 3 f_equal. apply flat_map_ext_in.
      intros j Hj. apply in_zrange in Hj.
      replace (sectors - to_free - 128 * (j - (i + 1))) with (sectors - 128 * (j - i)) by lia.
      reflexivity.
    + unfold free_map_release. cbn [disk]. rewrite disk_release_all. exact Hd.
  - rewrite zrange_nil by lia. cbn [flat_map release_all fold_left].
    repeat f_equal. lia.
Qed.

Lemma block_at_direct id st k : k < 12 -> block_at id st k = zget (direct id) k 0.
Proof. intros H. unfold block_at. destruct (Z.ltb_spec k 12); [reflexivity | lia]. Qed.

Lemma block_at_indirect id st k :
  12 <= k < 140 ->
  block_at id st k = zget (read_index (zget (direct id) 12 0) st) (k - 12) 0.
Proof.
  intros H. unfold block_at.
  destruct (Z.ltb_spec k 12); [lia|]. destruct (Z.ltb_spec k 140); [reflexivity | lia].
Qed.

Lemma block_at_doubly id st k :
  140 <= k ->
  block_at id st k
  = zget (read_index (outer_at id st ((k - 140) / 128)) st) ((k - 140) mod 128) 0.
Proof.
  intros H. unfold block_at, outer_at.
  destruct (Z.ltb_spec k 12); [lia|]. destruct (Z.ltb_spec k 140); [lia | reflexivity].
Qed.

Lemma inode_free_run i st :
  bytes_to_sectors (length (data i)) <= 16524 ->
  inode_free i st
  = Ok (release_all (release_order (data i) st (bytes_to_sectors (length (data i)))) st).
Proof.
  intros Hn. unfold inode_free, release_order.
  pose proof (bytes_to_sectors_range (length (data i))) as Hr.
  set (n := bytes_to_sectors (length (data i))) in *.
  set (id := data i).
  destruct (Z.eqb_spec n 0) as [Hz|Hz].
  { rewrite Hz. cbn. reflexivity. }
  rewrite free_direct_run by lia. cbn [bind].
  change (0 <? 12) with true. cbn [andb]. rewrite !Z.add_0_l, !Z.sub_0_r.
  assert (Hdir : map (fun k => zget (direct id) k 0) (zrange 0 (Z.min n 12))
                 = map (block_at id st) (zrange 0 (Z.min n 12))).
  { apply map_ext_zrange. intros x Hx. symmetry. apply block_at_direct. lia. }
  rewrite Hdir.
  destruct (Z.leb_spec n 12) as [Hle|Hgt].
  { destruct (Z.ltb_spec 12 n); [lia|]. destruct (Z.ltb_spec 140 n); [lia|].
    rewrite !app_nil_r. reflexivity. }
  destruct (Z.ltb_spec 12 n); [|lia].
  replace (Z.min n 12) with 12 by lia.
  unfold INDIRECT_BLOCK_SIZE.
  set (st1 := release_all (map (block_at id st) (zrange 0 12)) st).
  assert (Hd1 : disk st1 = disk st) by apply disk_release_all.
  set (to_free := if n - 12 <? 128 then n - 12 else 128).
  assert (Htf : to_free = Z.min n 140 - 12)
    by (unfold to_free; destruct (Z.ltb_spec (n - 12) 128); lia).
  rewrite free_entries_run by lia.
  cbn [bind]. replace (u32 (12 + 1)) with 13 by reflexivity.
  rewrite (read_index_disk _ st1 st Hd1).
  assert (Hind : map (fun k => zget (read_index (zget (direct id) 12 0) st) k 0)
                     (zrange 0 to_free)
                 = map (block_at id st) (zrange 12 (Z.min n 140))).
  { rewrite Htf.
    replace (zrange 12 (Z.min n 140)) with (zrange (0 + 12) (Z.min n 140 - 12 + 12))
      by (f_equal; lia).
    rewrite map_zrange_shift. apply map_ext_zrange. intros x Hx.
    rewrite block_at_indirect by lia.
    replace (x + 12 - 12) with x by lia. reflexivity. }
  rewrite Hind.
  replace (n - 12 - Z.max 0 (to_free - 0)) with (n - Z.min n 140) by lia.
  destruct (Z.eqb_spec (n - Z.min n 140) 0) as [Hz2|Hz2].
  { destruct (Z.ltb_spec 140 n); [lia|]. rewrite app_nil_r.
    rewrite !release_all_app. reflexivity. }
  destruct (Z.ltb_spec 140 n); [|lia].
  replace (Z.min n 140) with 140 by lia.
  rewrite (u32_small (n - 140 + 128 - 1)) by lia.
  set (st2 := free_map_release (zget (direct id) 12 0)
                (release_all (map (block_at id st) (zrange 12 140)) st1)).
  assert (Hd2 : disk st2 = disk st).
  { unfold st2, free_map_release. cbn [disk]. rewrite disk_release_all. exact Hd1. }
  rewrite (read_index_disk _ st2 st Hd2).
  rewrite (free_doubly_run 130 _ _ 0 (n - 140) st2 st Hd2); try lia.
  cbn [bind].
  replace ((n - 140 + 128 - 1) / 128) with (outer_count n)
    by (unfold outer_count; f_equal; lia).
  assert (Hdbl :
    flat_map (fun j =>
                map (fun k => zget (read_index
                                      (zget (read_index (zget (direct id) 13 0) st) j 0) st) k 0)
                    (zrange 0 (Z.min (n - 140 - 128 * (j - 0)) 128))
                ++ [zget (read_index (zget (direct id) 13 0) st) j 0])
             (zrange 0 (outer_count n))
    = flat_map (fun j =>
                  map (block_at id st)
                      (zrange (140 + 128 * j) (Z.min n (140 + 128 * (j + 1))))
                  ++ [outer_at id st j])
               (zrange 0 (outer_count n))).
  { apply flat_map_ext_in. intros j Hj. apply in_zrange in Hj.
    unfold outer_count in Hj.
    assert (Hjn : 140 + 128 * j < n).
    { assert (j * 128 <= n - 140 + 127 - 128); [|lia].
      destruct Hj as [_ Hj]. apply Z.lt_le_pred in Hj.
      transitivity (Z.pred ((n - 140 + 127) / 128) * 128); [nia|].
      pose proof (Z.mul_div_le (n - 140 + 127) 128 ltac:(lia)). lia. }
    f_equal.
    replace (zrange (140 + 128 * j) (Z.min n (140 + 128 * (j + 1))))
      with (zrange (0 + (140 + 128 * j))
                   (Z.min (n - 140 - 128 * (j - 0)) 128 + (140 + 128 * j)))
      by (f_equal; lia).
    rewrite map_zrange_shift. apply map_ext_zrange. intros x Hx.
    rewrite block_at_doubly by lia. unfold outer_at.
    replace ((x + (140 + 128 * j) - 140) / 128) with j by lia.
    replace ((x + (140 + 128 * j) - 140) mod 128) with x by lia.
    reflexivity. }
  rewrite Hdbl.
  unfold st2, st1. rewrite !release_all_app. reflexivity.
Qed.

Lemma flat_map_snoc_perm {A B} (f : A -> list B) (g : A -> B) l :
  Permutation (flat_map (fun j => f j ++ [g j]) l) (flat_map f l ++ map g l).
Proof.
  induction l as [|a l IH]; cbn [flat_map map]; [constructor|].
  rewrite <- !app_assoc. apply Permutation_app_head.
  cbn [app]. apply Permutation_cons_app.
  etransitivity; [exact IH|]. reflexivity.
Qed.

Lemma flat_map_ranges {B} (h : Z -> B) a n (m : nat) :
  a <= n ->
  flat_map (fun j => map h (zrange (a + 128 * j) (Z.min n (a + 128 * (j + 1)))))
           (zrange 0 (Z.of_nat m))
  = map h (zrange a (Z.min n (a + 128 * Z.of_nat m))).
Proof.
  intros Han. induction m as [|m IH].
  - cbn [Z.of_nat]. rewrite zrange_nil by lia. rewrite (zrange_nil a) by lia. reflexivity.
  - rewrite Nat2Z.inj_succ, <- Z.add_1_r.
    rewrite zrange_snoc by lia. rewrite flat_map_app, IH.
    cbn [flat_map]. rewrite app_nil_r, <- map_app. f_equal.
    destruct (Z.le_gt_cases n (a + 128 * Z.of_nat m)).
    + rewrite (zrange_nil (a + 128 * Z.of_nat m)) by lia.
      rewrite app_nil_r. f_equal. lia.
    + replace (Z.min n (a + 128 * Z.of_nat m)) with (a + 128 * Z.of_nat m) by lia.
      symmetry. apply zrange_app. lia.
Qed.

Lemma outer_count_covers n : 140 < n -> 0 < outer_count n /\ n <= 140 + 128 * outer_count n.
Proof. unfold outer_count. intros H. lia. Qed.

Lemma release_order_perm id st n :
  Permutation (release_order id st n) (all_sectors id st n).
Proof.
  unfold release_order, all_sectors, index_sectors.
  destruct (Z.ltb_spec 12 n) as [H12|H12].
  - rewrite (zrange_app 0 12 n) by lia. replace (Z.min n 12) with 12 by lia.
    destruct (Z.ltb_spec 140 n) as [H140|H140].
    + rewrite (zrange_app 12 140 n) by lia. replace (Z.min n 140) with 140 by lia.
      rewrite !map_app, <- !app_assoc.
      do 2 apply Permutation_app_head. cbn [app].
      destruct (outer_count_covers n H140) as [Hpos Hcov].
      pose proof (flat_map_ranges (block_at id st) 140 n (Z.to_nat (outer_count n))
                    ltac:(lia)) as Hfm.
      rewrite Z2Nat.id in Hfm by lia.
      replace (Z.min n (140 + 128 * outer_count n)) with n in Hfm by lia.
      rewrite <- Hfm.
      etransitivity.
      { apply Permutation_cons; [reflexivity|].
        apply Permutation_app_tail. apply flat_map_snoc_perm. }
      set (D := flat_map _ _). set (O := map (outer_at id st) _).
      rewrite <- app_assoc.
      apply (Permutation_cons_app D (O ++ [zget (direct id) 13 0])). reflexivity.
    + replace (Z.min n 140) with n by lia. rewrite !app_nil_r.
      rewrite map_app, <- app_assoc. reflexivity.
  - destruct (Z.ltb_spec 140 n); [lia|]. replace (Z.min n 12) with n by lia.
    reflexivity.
Qed.

(** C4, as amended: for a record whose length asks for at most 16524 data
    sectors, the capacity of the block map, [inode_free] returns and gives
    back to the free map, in this order, the direct data sectors, the data
    sectors of the single-indirect tier and then its index sector, for each
    second-level index sector in use its data sectors and then that index
    sector, and at last the double-indirect sector ([release_order]; the
    free pool grows at its head, so it ends up holding the list reversed).
    That list holds the sector of every data block below the block count
    and every index sector in use exactly once each ([all_sectors]), so
    that nothing is released twice when the block map names no sector
    twice.  For a zero-length record nothing is released and the storage is
    left as it is. *)
Theorem inode_free_releases_block_map (i : inode) (st : storage) :
  let id := data i in
  let n := bytes_to_sectors (length id) in
  n <= DOUBLY_BLOCKS ->
  inode_free i st
  = Ok {| disk := disk st; free_map := rev (release_order id st n) ++ free_map st |}
  /\ Permutation (release_order id st n) (all_sectors id st n)
  /\ (NoDup (all_sectors id st n) -> NoDup (release_order id st n))
  /\ (n = 0 -> inode_free i st = Ok st).
Proof.
  cbv zeta. unfold DOUBLY_BLOCKS. intros Hn.
  split; [|split; [|split]].
  - rewrite inode_free_run by exact Hn. rewrite release_all_spec. reflexivity.
  - apply release_order_perm.
  - intros Hnd. eapply Permutation_NoDup; [|exact Hnd].
    symmetry. apply release_order_perm.
  - intros Hz. unfold inode_free. rewrite Hz. reflexivity.
Qed.

Lemma inode_free_releases_block_map_witness :
  bytes_to_sectors 1200 <= DOUBLY_BLOCKS
  /\ inode_free
       (sample_inode 1 (set_length (set_direct (set_direct (set_direct
          (empty_inode_disk false) 0 40) 1 41) 2 42) 1200))
       (blank_storage [50])
     = Ok (blank_storage [42; 41; 40; 50]).
Proof.
  split; [vm_compute; discriminate|].
  rewrite (proj1 (inode_free_releases_block_map
    (sample_inode 1 (set_length (set_direct (set_direct (set_direct
          (empty_inode_disk false) 0 40) 1 41) 2 42) 1200))
    (blank_storage [50]) ltac:(vm_compute; discriminate))).
  reflexivity.
Defined.

(** C4, the claim as stated: a record whose length asks for 16525 sectors
    makes [inode_free] read [buffer1[128]], past the end of the array. *)
Lemma inode_free_beyond_capacity :
  bytes_to_sectors 8460800 = 16525
  /\ inode_free (sample_inode 1 (set_length (empty_inode_disk false) 8460800))
                (blank_storage [])
     = Fault.
Proof. split; vm_compute; reflexivity. Qed.

(** ** Sector images of index blocks *)

Lemma Z_of_byte_range b : 0 <= Z_of_byte b < 256.
Proof.
  unfold Z_of_byte. pose proof (Byte.to_N_bounded b). lia.
Qed.

Lemma Z_of_byte_of_Z z : Z_of_byte (byte_of_Z z) = z mod 256.
Proof.
  unfold Z_of_byte, byte_of_Z.
  destruct (Byte.of_N (Z.to_N (z mod 256))) as [b|] eqn:E.
  - apply Byte.to_of_N in E. rewrite E. lia.
  - apply Byte.of_N_None_iff in E. lia.
Qed.

Lemma le_word_le32 w rest : le_word (firstn 4 (le32 w ++ rest)) = u32 w.
Proof.
  unfold le32, le_word, u32. cbn [app firstn nth].
  rewrite !Z_of_byte_of_Z. lia.
Qed.

Lemma le_word_range l : 0 <= le_word l < 4294967296.
Proof.
  unfold le_word.
  pose proof (Z_of_byte_range (nth 0 l x00)).
  pose proof (Z_of_byte_range (nth 1 l x00)).
  pose proof (Z_of_byte_range (nth 2 l x00)).
  pose proof (Z_of_byte_range (nth 3 l x00)).
  lia.
Qed.

Lemma length_decode_words n bs : List.length (decode_words n bs) = n.
Proof. induction n as [|n IH] in bs |- *; cbn [decode_words List.length]; auto. Qed.

Lemma decode_words_range n : forall bs j,
  0 <= zget (decode_words n bs) j 0 < 4294967296.
Proof.
  intros bs j. unfold zget. destruct (j <? 0); [lia|].
  generalize (Z.to_nat j) as m. clear j.
  induction n as [|n IH] in bs |- *; intros m.
  - destruct m; cbn; lia.
  - destruct m as [|m]; cbn [decode_words nth]; [apply le_word_range | apply IH].
Qed.

Lemma length_encode_words ws : List.length (encode_words ws) = (4 * List.length ws)%nat.
Proof.
  unfold encode_words. induction ws as [|w ws IH]; [reflexivity|].
  cbn [flat_map]. rewrite length_app, IH. cbn [le32 List.length]. lia.
Qed.

Lemma decode_encode_words ws rest :
  decode_words (List.length ws) (encode_words ws ++ rest) = map u32 ws.
Proof.
  unfold encode_words. induction ws as [|w ws IH]; [reflexivity|].
  cbn [flat_map List.length decode_words map]. rewrite <- app_assoc.
  rewrite le_word_le32. f_equal.
  cbn [le32 app skipn]. exact IH.
Qed.

Lemma read_index_cache_write_same s ws st :
  List.length ws = 128%nat ->
  read_index s (cache_write s (encode_words ws) st) = map u32 ws.
Proof.
  intros Hl. unfold read_index, cache_read, cache_write. cbn [disk].
  rewrite Z.eqb_refl.
  rewrite firstn_all2 by (rewrite length_encode_words; lia).
  rewrite <- Hl, <- (app_nil_r (encode_words ws)). apply decode_encode_words.
Qed.

Lemma read_index_cache_write_other s s' buf st :
  s <> s' -> read_index s (cache_write s' buf st) = read_index s st.
Proof.
  intros H. unfold read_index, cache_read, cache_write. cbn [disk].
  destruct (Z.eqb_spec s s'); [contradiction | reflexivity].
Qed.

Lemma length_read_index s st : List.length (read_index s st) = 128%nat.
Proof. apply length_decode_words. Qed.

Lemma read_index_range s st j : 0 <= zget (read_index s st) j 0 < 4294967296.
Proof. apply decode_words_range. Qed.

Lemma zget_map_u32 ws j :
  0 <= zget ws j 0 < 4294967296 -> zget (map u32 ws) j 0 = zget ws j 0.
Proof.
  unfold zget. destruct (j <? 0); [reflexivity|].
  intros H. transitivity (nth (Z.to_nat j) (map u32 ws) (u32 0)); [reflexivity|].
  rewrite map_nth. apply u32_small. exact H.
Qed.

(** ** Allocating and zeroing a run of sectors *)

Lemma alloc_fill_S k arr i st :
  alloc_fill (S k) arr i st =
  let '(_, s, st) := free_map_allocate st in
  alloc_fill k (zset arr i s) (i + 1) (cache_write s zeros st).
Proof. reflexivity. Qed.

Lemma alloc_fill_free_map k : forall arr i st,
  free_map (snd (alloc_fill k arr i st)) = skipn k (free_map st).
Proof.
  induction k as [|k IH]; intros arr i st; [reflexivity|].
  rewrite alloc_fill_S. unfold free_map_allocate.
  destruct (free_map st) as [|s pool] eqn:E.
  - rewrite IH. cbn [cache_write free_map]. rewrite E. destruct k; reflexivity.
  - rewrite IH. reflexivity.
Qed.

Lemma alloc_fill_length k : forall arr i st,
  List.length (fst (alloc_fill k arr i st)) = List.length arr.
Proof.
  induction k as [|k IH]; intros arr i st; [reflexivity|].
  rewrite alloc_fill_S. destruct (free_map_allocate st) as [[ok s] st1].
  rewrite IH. apply length_zset.
Qed.

Lemma alloc_fill_outside k : forall arr i st j d,
  j < i \/ i + Z.of_nat k <= j ->
  zget (fst (alloc_fill k arr i st)) j d = zget arr j d.
Proof.
  induction k as [|k IH]; intros arr i st j d Hj; [reflexivity|].
  rewrite alloc_fill_S. destruct (free_map_allocate st) as [[ok s] st1].
  rewrite IH by lia. apply zget_zset_other. lia.
Qed.

Lemma alloc_fill_inside k : forall arr i st t d,
  (k <= List.length (free_map st))%nat ->
  0 <= i -> i + Z.of_nat k <= Z.of_nat (List.length arr) ->
  0 <= t < Z.of_nat k ->
  zget (fst (alloc_fill k arr i st)) (i + t) d = zget (free_map st) t 0.
Proof.
  induction k as [|k IH]; intros arr i st t d Hp Hi Hk Ht; [lia|].
  rewrite alloc_fill_S. unfold free_map_allocate.
  destruct (free_map st) as [|s pool] eqn:E; [cbn in Hp; lia|].
  cbn [List.length] in Hp.
  destruct (Z.eq_dec t 0) as [->|Hne].
  - rewrite Z.add_0_r, alloc_fill_outside by lia.
    rewrite zget_zset_same by lia. reflexivity.
  - replace (i + t) with (i + 1 + (t - 1)) by lia.
    rewrite IH; cbn [cache_write free_map]; try lia.
    + unfold zget. destruct (Z.ltb_spec (t - 1) 0); [lia|].
      destruct (Z.ltb_spec t 0); [lia|].
      replace (Z.to_nat t) with (S (Z.to_nat (t - 1))) by lia. reflexivity.
    + rewrite length_zset. lia.
Qed.

Lemma firstn_512_zeros : firstn 512 zeros = zeros.
Proof. reflexivity. Qed.

Lemma alloc_fill_disk k : forall arr i st s,
  (k <= List.length (free_map st))%nat ->
  disk (snd (alloc_fill k arr i st)) s
  = if existsb (Z.eqb s) (firstn k (free_map st)) then zeros else disk st s.
Proof.
  induction k as [|k IH]; intros arr i st s Hp; [reflexivity|].
  rewrite alloc_fill_S. unfold free_map_allocate.
  destruct (free_map st) as [|a pool] eqn:E; [cbn in Hp; lia|].
  cbn [List.length] in Hp.
  rewrite IH by (cbn [cache_write free_map]; lia).
  cbn [cache_write free_map disk firstn existsb].
  destruct (existsb (Z.eqb s) (firstn k pool)); [rewrite orb_true_r; reflexivity|].
  rewrite orb_false_r. destruct (s =? a); [apply firstn_512_zeros | reflexivity].
Qed.

Lemma existsb_eqb_in s l : existsb (Z.eqb s) l = true <-> In s l.
Proof.
  rewrite existsb_exists. split.
  - intros (x & Hx & E). apply Z.eqb_eq in E. subst. exact Hx.
  - intros H. exists s. split; [exact H | apply Z.eqb_refl].
Qed.

Lemma alloc_fill_zeroed k arr i st s :
  (k <= List.length (free_map st))%nat ->
  In s (firstn k (free_map st)) -> disk (snd (alloc_fill k arr i st)) s = zeros.
Proof.
  intros Hp Hs. rewrite alloc_fill_disk by exact Hp.
  apply existsb_eqb_in in Hs. rewrite Hs. reflexivity.
Qed.

Lemma alloc_fill_frame k arr i st s :
  (k <= List.length (free_map st))%nat ->
  ~ In s (firstn k (free_map st)) -> disk (snd (alloc_fill k arr i st)) s = disk st s.
Proof.
  intros Hp Hs. rewrite alloc_fill_disk by exact Hp.
  destruct (existsb (Z.eqb s) (firstn k (free_map st))) eqn:E; [|reflexivity].
  apply existsb_eqb_in in E. contradiction.
Qed.

(** ** The data loops of the growth engine, run *)

Lemma with_map_same id : with_map id (direct id) (blocks id) = id.
Proof. destruct id; reflexivity. Qed.

Lemma grow_direct_run fuel : forall id n st,
  0 <= blocks id -> 1 <= n < 4294967296 -> List.length (direct id) = 14%nat ->
  Z.max 0 (12 - blocks id) < Z.of_nat fuel ->
  grow_direct fuel id n st
  = Ok ((blocks id <? 12) && (n <=? 12 - blocks id),
        with_map id
          (fst (alloc_fill (Z.to_nat (Z.min n (12 - blocks id))) (direct id) (blocks id) st))
          (blocks id + Z.max 0 (Z.min n (12 - blocks id))),
        n - Z.max 0 (Z.min n (12 - blocks id)),
        snd (alloc_fill (Z.to_nat (Z.min n (12 - blocks id))) (direct id) (blocks id) st)).
Proof.
  induction fuel as [|fuel IH]; intros id n st Hb Hn Hl Hf; [lia|].
  rewrite grow_direct_S. unfold DIRECT_BLOCKS.
  destruct (Z.ltb_spec (blocks id) 12) as [Hlt|Hge].
  - replace (Z.to_nat (Z.min n (12 - blocks id)))
      with (S (Z.to_nat (Z.min (n - 1) (12 - (blocks id + 1))))) by lia.
    rewrite alloc_fill_S.
    destruct (free_map_allocate st) as [[ok s] st1]. cbv zeta. rsimpl.
    rewrite zget_zset_same by lia.
    rewrite (u32_small (n - 1)), (u32_small (blocks id + 1)) by lia.
    destruct (Z.eqb_spec (n - 1) 0) as [Hz|Hz].
    + replace (Z.min (n - 1) (12 - (blocks id + 1))) with 0 by lia.
      cbn [Z.to_nat alloc_fill fst snd].
      destruct (Z.leb_spec n (12 - blocks id)); [|lia]. cbn [andb].
      replace (Z.max 0 (Z.min n (12 - blocks id))) with 1 by lia.
      replace (n - 1) with 0 by lia. reflexivity.
    + rewrite IH; rsimpl; try lia; [|rewrite length_zset; exact Hl].
      replace (blocks id + 1 + Z.max 0 (Z.min (n - 1) (12 - (blocks id + 1))))
        with (blocks id + Z.max 0 (Z.min n (12 - blocks id))) by lia.
      replace (n - 1 - Z.max 0 (Z.min (n - 1) (12 - (blocks id + 1))))
        with (n - Z.max 0 (Z.min n (12 - blocks id))) by lia.
      replace ((blocks id + 1 <? 12) && (n - 1 <=? 12 - (blocks id + 1)))
        with (true && (n <=? 12 - blocks id)); [reflexivity|].
      destruct (Z.ltb_spec (blocks id + 1) 12), (Z.leb_spec (n - 1) (12 - (blocks id + 1))),
        (Z.leb_spec n (12 - blocks id)); cbn [andb]; try reflexivity; exfalso; lia.
  - replace (Z.min n (12 - blocks id)) with (12 - blocks id) by lia.
    replace (Z.to_nat (12 - blocks id)) with O by lia.
    replace (Z.max 0 (12 - blocks id)) with 0 by lia.
    cbn [alloc_fill fst snd andb]. rewrite Z.add_0_r, Z.sub_0_r, with_map_same.
    reflexivity.
Qed.

Lemma grow_indirect_run fuel : forall id buffer n st,
  12 <= blocks id -> 1 <= n < 4294967296 -> List.length buffer = 128%nat ->
  Z.max 0 (140 - blocks id) < Z.of_nat fuel ->
  grow_indirect fuel id buffer n st
  = Ok (set_blocks id (blocks id + Z.max 0 (Z.min n (140 - blocks id))),
        fst (alloc_fill (Z.to_nat (Z.min n (140 - blocks id))) buffer (blocks id - 12) st),
        n - Z.max 0 (Z.min n (140 - blocks id)),
        snd (alloc_fill (Z.to_nat (Z.min n (140 - blocks id))) buffer (blocks id - 12) st)).
Proof.
  induction fuel as [|fuel IH]; intros id buffer n st Hb Hn Hl Hf; [lia|].
  rewrite grow_indirect_S. unfold INDIRECT_BLOCKS, DIRECT_BLOCKS.
  destruct (Z.ltb_spec (blocks id) 140) as [Hlt|Hge].
  - replace (Z.to_nat (Z.min n (140 - blocks id)))
      with (S (Z.to_nat (Z.min (n - 1) (140 - (blocks id + 1))))) by lia.
    rewrite alloc_fill_S.
    destruct (free_map_allocate st) as [[ok s] st1]. cbv zeta.
    rewrite (u32_small (blocks id - 12)) by lia.
    rewrite zget_zset_same by lia.
    rewrite (u32_small (n - 1)), (u32_small (blocks id + 1)) by lia.
    destruct (Z.eqb_spec (n - 1) 0) as [Hz|Hz].
    + replace (Z.min (n - 1) (140 - (blocks id + 1))) with 0 by lia.
      cbn [Z.to_nat alloc_fill fst snd].
      replace (Z.max 0 (Z.min n (140 - blocks id))) with 1 by lia.
      replace (n - 1) with 0 by lia. reflexivity.
    + rewrite IH; rsimpl; try lia; [|rewrite length_zset; exact Hl].
      replace (blocks id + 1 + Z.max 0 (Z.min (n - 1) (140 - (blocks id + 1))))
        with (blocks id + Z.max 0 (Z.min n (140 - blocks id))) by lia.
      replace (n - 1 - Z.max 0 (Z.min (n - 1) (140 - (blocks id + 1))))
        with (n - Z.max 0 (Z.min n (140 - blocks id))) by lia.
      replace (blocks id + 1 - 12) with (blocks id - 12 + 1) by lia.
      reflexivity.
  - replace (Z.min n (140 - blocks id)) with (140 - blocks id) by lia.
    replace (Z.to_nat (140 - blocks id)) with O by lia.
    replace (Z.max 0 (140 - blocks id)) with 0 by lia.
    cbn [alloc_fill fst snd]. rewrite Z.add_0_r, Z.sub_0_r.
    destruct id; reflexivity.
Qed.

Lemma grow_doubly_inner_run fuel : forall id buffer2 index2 n st,
  0 <= index2 <= 128 -> 1 <= n < 4294967296 ->
  0 <= blocks id /\ blocks id + (128 - index2) < 4294967296 ->
  List.length buffer2 = 128%nat ->
  Z.max 0 (128 - index2) < Z.of_nat fuel ->
  grow_doubly_inner fuel id buffer2 index2 n st
  = Ok (set_blocks id (blocks id + Z.min n (128 - index2)),
        fst (alloc_fill (Z.to_nat (Z.min n (128 - index2))) buffer2 index2 st),
        index2 + Z.min n (128 - index2),
        n - Z.min n (128 - index2),
        snd (alloc_fill (Z.to_nat (Z.min n (128 - index2))) buffer2 index2 st)).
Proof.
  induction fuel as [|fuel IH]; intros id buffer2 index2 n st Hi Hn Hb Hl Hf; [lia|].
  rewrite grow_doubly_inner_S. unfold INDIRECT_BLOCK_SIZE.
  destruct (Z.ltb_spec index2 128) as [Hlt|Hge].
  - replace (Z.to_nat (Z.min n (128 - index2)))
      with (S (Z.to_nat (Z.min (n - 1) (128 - (index2 + 1))))) by lia.
    rewrite alloc_fill_S.
    destruct (free_map_allocate st) as [[ok s] st1]. cbv zeta.
    rewrite zget_zset_same by lia.
    rewrite (u32_small (n - 1)), (u32_small (blocks id + 1)), (u32_small (index2 + 1)) by lia.
    destruct (Z.eqb_spec (n - 1) 0) as [Hz|Hz].
    + replace (Z.min (n - 1) (128 - (index2 + 1))) with 0 by lia.
      cbn [Z.to_nat alloc_fill fst snd].
      replace (Z.min n (128 - index2)) with 1 by lia.
      replace (n - 1) with 0 by lia. reflexivity.
    + rewrite IH; rsimpl; try lia; [|rewrite length_zset; exact Hl].
      replace (blocks id + 1 + Z.min (n - 1) (128 - (index2 + 1)))
        with (blocks id + Z.min n (128 - index2)) by lia.
      replace (index2 + 1 + Z.min (n - 1) (128 - (index2 + 1)))
        with (index2 + Z.min n (128 - index2)) by lia.
      replace (n - 1 - Z.min (n - 1) (128 - (index2 + 1)))
        with (n - Z.min n (128 - index2)) by lia.
      reflexivity.
  - replace (Z.min n (128 - index2)) with 0 by lia.
    cbn [Z.to_nat alloc_fill fst snd]. rewrite !Z.add_0_r, Z.sub_0_r.
    destruct id; reflexivity.
Qed.

(** ** Views *)

Lemma block_at_view id st k : block_at id st k = vblock_at (view_of id st) k.
Proof. reflexivity. Qed.

Lemma outer_count_small n : n <= 140 -> outer_count n <= 0.
Proof. unfold outer_count. intros H. lia. Qed.

Lemma all_sectors_view id st : all_sectors id st (blocks id) = vall (view_of id st).
Proof.
  unfold all_sectors, vall, index_sectors, vindex, view_of.
  cbn [v_dir v_top v_st v_n v_has_top].
  change (map (block_at id st)) with (map (vblock_at (view_of id st))).
  unfold view_of. f_equal. f_equal.
  destruct (Z.ltb_spec 140 (blocks id)); [reflexivity|].
  rewrite zrange_nil by (apply outer_count_small; lia). reflexivity.
Qed.

Lemma index_sectors_view id st : index_sectors id st (blocks id) = vindex (view_of id st).
Proof.
  unfold index_sectors, vindex, view_of.
  cbn [v_dir v_top v_st v_n v_has_top]. f_equal.
  destruct (Z.ltb_spec 140 (blocks id)); [reflexivity|].
  rewrite zrange_nil by (apply outer_count_small; lia). reflexivity.
Qed.

Lemma NoDup_app_l {A} (l1 l2 : list A) : NoDup (l1 ++ l2) -> NoDup l1.
Proof. apply NoDup_app_remove_r. Qed.

Lemma NoDup_app_r {A} (l1 l2 : list A) : NoDup (l1 ++ l2) -> NoDup l2.
Proof. apply NoDup_app_remove_l. Qed.

Lemma NoDup_app_disjoint {A} (l1 l2 : list A) x :
  NoDup (l1 ++ l2) -> In x l1 -> In x l2 -> False.
Proof.
  induction l1 as [|a l1 IH]; cbn [app In]; intros H H1 H2; [exact H1|].
  apply NoDup_cons_iff in H. destruct H as [Hnin Hnd].
  destruct H1 as [->|H1].
  - apply Hnin. apply in_or_app. right; exact H2.
  - exact (IH Hnd H1 H2).
Qed.

Lemma in_vall_block v k : 0 <= k < v_n v -> In (vblock_at v k) (vall v).
Proof.
  intros H. unfold vall. apply in_or_app. left.
  apply in_map. apply in_zrange. exact H.
Qed.

Lemma in_vall_index v s : In s (vindex v) -> In s (vall v).
Proof. intros H. unfold vall. apply in_or_app. right; exact H. Qed.

Lemma vgrows_trans v1 v2 v3 u1 u2 :
  vok v2 -> vgrows v1 v2 u1 -> vgrows v2 v3 u2 -> vgrows v1 v3 (u1 ++ u2).
Proof.
  intros (_ & _ & _ & Hnd & _ & _)
         (A1 & A2 & A3 & A4 & A5 & A6 & A7) (B1 & B2 & B3 & B4 & B5 & B6 & B7).
  unfold vgrows. split; [lia|].
  split. { intros k Hk. rewrite B2 by lia. apply A2. exact Hk. }
  split. { rewrite A3, B3, app_assoc. reflexivity. }
  split. { rewrite B4, A4, app_assoc. reflexivity. }
  assert (Hu2 : forall s, In s (vall v2) -> ~ In s u2).
  { intros s Hs Hin. apply (NoDup_app_disjoint _ _ s Hnd Hs).
    rewrite B3. apply in_or_app. left; exact Hin. }
  assert (Hdi : forall k, 0 <= k < v_n v2 -> ~ In (vblock_at v2 k) (vindex v2)).
  { intros k Hk Hin. apply NoDup_app_l in Hnd. unfold vall in Hnd.
    apply (NoDup_app_disjoint _ _ (vblock_at v2 k) Hnd); [|exact Hin].
    apply in_map. apply in_zrange. exact Hk. }
  split.
  { intros k Hk. destruct (Z.lt_ge_cases k (v_n v2)) as [Hlt|Hge].
    - destruct (A5 k ltac:(lia)) as [Hz Hin].
      rewrite B2 by lia. split; [|apply in_or_app; left; exact Hin].
      rewrite B6; [exact Hz | apply Hu2, in_vall_block; lia | apply Hdi; lia].
    - destruct (B5 k ltac:(lia)) as [Hz Hin].
      split; [exact Hz | apply in_or_app; right; exact Hin]. }
  split.
  { intros s Hs1 Hs2.
    assert (~ In s u1 /\ ~ In s u2) as [Hn1 Hn2]
      by (split; intros H; apply Hs1, in_or_app; [left|right]; exact H).
    rewrite B6; [apply A6; assumption | exact Hn2 |].
    intros Hin. destruct (A7 s Hin); contradiction. }
  intros s Hs. destruct (B7 s Hs) as [H|H].
  - destruct (A7 s H) as [H'|H']; [left; exact H' | right; apply in_or_app; left; exact H'].
  - right; apply in_or_app; right; exact H.
Qed.

Lemma vok_grows v v' used :
  vok v -> vgrows v v' used ->
  List.length (v_dir v') = 14%nat -> List.length (v_top v') = 128%nat ->
  v_n v' <= 16524 ->
  (forall j, 0 <= j < outer_count (v_n v') -> sector_number (zget (v_top v') j 0)) ->
  vok v'.
Proof.
  intros (_ & _ & Hn & Hnd & Hr & _) (G1 & _ & G3 & G4 & _) Hd Ht Hn' Hrange.
  unfold vok. split; [exact Hd|]. split; [exact Ht|]. split; [lia|].
  split; [|split; [|exact Hrange]].
  - eapply Permutation_NoDup; [|exact Hnd].
    rewrite G3, app_assoc. apply Permutation_app_tail. symmetry. exact G4.
  - rewrite G3 in Hr. apply Forall_app in Hr. apply Hr.
Qed.

Lemma vgrows_of_step v v' newI newD :
  0 <= v_n v <= v_n v' ->
  (forall k, 0 <= k < v_n v -> vblock_at v' k = vblock_at v k) ->
  map (vblock_at v') (zrange (v_n v) (v_n v')) = newD ->
  Permutation (vindex v') (vindex v ++ newI) ->
  free_map (v_st v) = (newI ++ newD) ++ free_map (v_st v') ->
  (forall s, In s newD -> disk (v_st v') s = zeros) ->
  (forall s, ~ In s (newI ++ newD) -> ~ In s (vindex v) ->
             disk (v_st v') s = disk (v_st v) s) ->
  vgrows v v' (newI ++ newD).
Proof.
  intros Hn H2 H3 H4 H5 H6 H7. unfold vgrows.
  split; [exact Hn|]. split; [exact H2|]. split; [exact H5|].
  split.
  { unfold vall. rewrite (zrange_app 0 (v_n v) (v_n v')) by lia.
    rewrite map_app, H3, (map_ext_zrange _ _ 0 (v_n v) H2).
    rewrite <- !app_assoc. apply Permutation_app_head.
    rewrite H4. rewrite (Permutation_app_comm newI newD).
    rewrite !app_assoc. apply Permutation_app_tail. apply Permutation_app_comm. }
  split.
  { intros k Hk.
    assert (Hin : In (vblock_at v' k) newD).
    { rewrite <- H3. apply in_map. apply in_zrange. exact Hk. }
    split; [apply H6; exact Hin | apply in_or_app; right; exact Hin]. }
  split; [exact H7|].
  intros s Hs. apply (Permutation_in _ H4) in Hs. apply in_app_or in Hs.
  destruct Hs as [Hs|Hs]; [left; exact Hs | right; apply in_or_app; left; exact Hs].
Qed.

Lemma map_zrange_firstn (f : Z -> Z) a (k : nat) pool :
  (k <= List.length pool)%nat ->
  (forall t, 0 <= t < Z.of_nat k -> f (a + t) = zget pool t 0) ->
  map f (zrange a (a + Z.of_nat k)) = firstn k pool.
Proof.
  revert a pool. induction k as [|k IH]; intros a pool Hk Hf.
  - rewrite zrange_nil by lia. reflexivity.
  - destruct pool as [|p pool]; [cbn in Hk; lia|].
    rewrite zrange_cons by lia. cbn [map firstn]. f_equal.
    + rewrite <- (Z.add_0_r a) at 1. rewrite Hf by lia. reflexivity.
    + replace (a + Z.of_nat (S k)) with (a + 1 + Z.of_nat k) by lia.
      apply IH; [cbn in Hk; lia|].
      intros t Ht. replace (a + 1 + t) with (a + (t + 1)) by lia.
      rewrite Hf by lia. unfold zget.
      destruct (Z.ltb_spec (t + 1) 0); [lia|]. destruct (Z.ltb_spec t 0); [lia|].
      replace (Z.to_nat (t + 1)) with (S (Z.to_nat t)) by lia. reflexivity.
Qed.

Lemma zget_in_range {A} (l : list A) t d :
  0 <= t < Z.of_nat (List.length l) -> In (zget l t d) l.
Proof.
  intros H. unfold zget. destruct (Z.ltb_spec t 0); [lia|].
  apply nth_In. lia.
Qed.

Lemma zget_firstn {A} (l : list A) (k : nat) t d :
  0 <= t < Z.of_nat k -> zget (firstn k l) t d = zget l t d.
Proof.
  intros H. unfold zget. destruct (Z.ltb_spec t 0); [lia|].
  apply nth_firstn_lt || (rewrite nth_firstn; destruct (Nat.ltb_spec (Z.to_nat t) k); [reflexivity|lia]).
Qed.

Lemma read_index_ext y st st' : disk st y = disk st' y -> read_index y st = read_index y st'.
Proof. intros H. unfold read_index, cache_read. rewrite H. reflexivity. Qed.

(** What filling entries [i .. i + k) of an index block and writing the
    block to sector [x] does. *)
Lemma block_fill_facts (k : nat) buf i x st :
  let af := alloc_fill k buf i st in
  let st' := cache_write x (encode_words (fst af)) (snd af) in
  (k <= List.length (free_map st))%nat ->
  0 <= i -> i + Z.of_nat k <= 128 -> List.length buf = 128%nat ->
  Forall sector_number (free_map st) ->
  read_index x st' = map u32 (fst af)
  /\ (forall t, 0 <= t < Z.of_nat k ->
      zget (read_index x st') (i + t) 0 = zget (free_map st) t 0)
  /\ (forall r, r < i \/ i + Z.of_nat k <= r ->
      zget (read_index x st') r 0 = zget (map u32 buf) r 0)
  /\ (forall s, s <> x -> In s (firstn k (free_map st)) -> disk st' s = zeros)
  /\ (forall s, s <> x -> ~ In s (firstn k (free_map st)) -> disk st' s = disk st s)
  /\ free_map st' = skipn k (free_map st).
Proof.
  intros af st' Hk Hi Hik Hl Hr.
  assert (Hlen : List.length (fst af) = 128%nat)
    by (unfold af; rewrite alloc_fill_length; exact Hl).
  assert (Hread : read_index x st' = map u32 (fst af))
    by (apply read_index_cache_write_same; exact Hlen).
  assert (Hdisk : forall s, s <> x -> disk st' s = disk (snd af) s).
  { intros s Hs. unfold st', cache_write. cbn [disk].
    destruct (Z.eqb_spec s x); [contradiction | reflexivity]. }
  split; [exact Hread|]. split; [|split; [|split; [|split]]].
  - intros t Ht. rewrite Hread.
    assert (E : zget (fst af) (i + t) 0 = zget (free_map st) t 0)
      by (apply alloc_fill_inside; lia).
    rewrite zget_map_u32; [exact E|]. rewrite E.
    rewrite Forall_forall in Hr. apply Hr. apply zget_in_range. lia.
  - intros r Hr'. rewrite Hread. unfold zget. destruct (r <? 0) eqn:E0; [reflexivity|].
    transitivity (nth (Z.to_nat r) (map u32 (fst af)) (u32 0)); [reflexivity|].
    transitivity (nth (Z.to_nat r) (map u32 buf) (u32 0)); [|reflexivity].
    rewrite !map_nth. f_equal.
    pose proof (alloc_fill_outside k buf i st r 0 Hr') as E.
    unfold zget in E. rewrite E0 in E. exact E.
  - intros s Hs Hin. rewrite Hdisk by exact Hs. apply alloc_fill_zeroed; assumption.
  - intros s Hs Hin. rewrite Hdisk by exact Hs. apply alloc_fill_frame; assumption.
  - unfold st'. cbn [cache_write free_map]. apply alloc_fill_free_map.
Qed.

Ltac vsimpl := cbn [v_dir v_top v_st v_n v_has_top] in *.

(** *** The direct tier *)

Lemma step_direct v (k : nat) :
  vok v -> v_n v + Z.of_nat k <= 12 ->
  (k <= List.length (free_map (v_st v)))%nat ->
  let af := alloc_fill k (v_dir v) (v_n v) (v_st v) in
  let v' := mk_view (fst af) (v_top v) (snd af) (v_n v + Z.of_nat k) (v_has_top v) in
  vgrows v v' (firstn k (free_map (v_st v))) /\ vok v'.
Proof.
  intros Hok Hk Hp af v'.
  pose proof Hok as (Hd & Ht & Hn & Hnd & Hr & Hj).
  assert (Hg : vgrows v v' ([] ++ firstn k (free_map (v_st v)))).
  { apply vgrows_of_step; unfold v'; vsimpl.
    - lia.
    - intros j Hjk. unfold vblock_at. vsimpl.
      destruct (Z.ltb_spec j 12); [|lia].
      unfold af. apply alloc_fill_outside. lia.
    - apply map_zrange_firstn; [exact Hp|].
      intros t Htk. unfold vblock_at. vsimpl.
      destruct (Z.ltb_spec (v_n v + t) 12); [|lia].
      unfold af. apply alloc_fill_inside; lia.
    - rewrite app_nil_r. unfold vindex. vsimpl.
      destruct (Z.ltb_spec 12 (v_n v + Z.of_nat k)); [lia|].
      destruct (Z.ltb_spec 12 (v_n v)); [lia|].
      rewrite !zrange_nil by (apply outer_count_small; lia).
      unfold af. rewrite alloc_fill_outside by lia. reflexivity.
    - cbn [app]. unfold af. rewrite alloc_fill_free_map.
      symmetry. apply firstn_skipn.
    - intros s Hs. unfold af. apply alloc_fill_zeroed; assumption.
    - intros s Hs _. unfold af. apply alloc_fill_frame; [exact Hp | exact Hs]. }
  cbn [app] in Hg. split; [exact Hg|].
  eapply vok_grows; [exact Hok | exact Hg | | | |]; unfold v'; vsimpl.
  - unfold af. rewrite alloc_fill_length. exact Hd.
  - exact Ht.
  - lia.
  - intros j Hjr. pose proof (outer_count_small (v_n v + Z.of_nat k)). lia.
Qed.

Lemma NoDup_map_zrange_inj (f : Z -> Z) a b i j :
  NoDup (map f (zrange a b)) -> a <= i < b -> a <= j < b -> f i = f j -> i = j.
Proof.
  intros Hnd Hi Hj E.
  assert (Hinj : forall l, NoDup (map f l) -> forall x y, In x l -> In y l -> f x = f y -> x = y).
  { clear. induction l as [|h t IH]; cbn [map In]; intros Hnd x y Hx Hy E; [contradiction|].
    apply NoDup_cons_iff in Hnd. destruct Hnd as [Hnin Hnd].
    destruct Hx as [->|Hx], Hy as [->|Hy].
    - reflexivity.
    - exfalso. apply Hnin. rewrite E. apply in_map. exact Hy.
    - exfalso. apply Hnin. rewrite <- E. apply in_map. exact Hx.
    - exact (IH Hnd x y Hx Hy E). }
  apply (Hinj _ Hnd); [apply in_zrange; exact Hi | apply in_zrange; exact Hj | exact E].
Qed.

(** What [vok] says about the sectors of a view, spelled out. *)
Lemma vok_facts v :
  vok v ->
  NoDup (free_map (v_st v))
  /\ (forall s, In s (free_map (v_st v)) -> ~ In s (vall v))
  /\ (forall k, 0 <= k < v_n v -> ~ In (vblock_at v k) (vindex v))
  /\ (forall j, 12 < v_n v -> 0 <= j < outer_count (v_n v) ->
      zget (v_top v) j 0 <> zget (v_dir v) 12 0)
  /\ (forall i j, 0 <= i < outer_count (v_n v) -> 0 <= j < outer_count (v_n v) ->
      zget (v_top v) i 0 = zget (v_top v) j 0 -> i = j)
  /\ (v_has_top v = true ->
      (12 < v_n v -> zget (v_dir v) 13 0 <> zget (v_dir v) 12 0)
      /\ (forall j, 0 <= j < outer_count (v_n v) ->
          zget (v_top v) j 0 <> zget (v_dir v) 13 0)).
Proof.
  intros (_ & _ & _ & Hnd & _ & _).
  pose proof (NoDup_app_l _ _ Hnd) as Hva.
  pose proof (NoDup_app_r _ _ Hva) as Hvi. fold (vindex v) in Hvi.
  split; [apply (NoDup_app_r _ _ Hnd)|].
  split.
  { intros s Hs Hin. exact (NoDup_app_disjoint _ _ s Hnd Hin Hs). }
  split.
  { intros k Hk Hin. unfold vall in Hva.
    apply (NoDup_app_disjoint _ _ (vblock_at v k) Hva); [|exact Hin].
    apply in_map. apply in_zrange. exact Hk. }
  unfold vindex in Hvi.
  assert (Htops : NoDup (map (fun j => zget (v_top v) j 0) (zrange 0 (outer_count (v_n v))))).
  { apply NoDup_app_r in Hvi. apply NoDup_app_l in Hvi. exact Hvi. }
  split.
  { intros j H12 Hj E. destruct (Z.ltb_spec 12 (v_n v)); [|lia].
    apply (NoDup_app_disjoint _ _ (zget (v_dir v) 12 0) Hvi); [left; reflexivity|].
    apply in_or_app. left. rewrite <- E.
    apply (in_map (fun j => zget (v_top v) j 0)). apply in_zrange. exact Hj. }
  split.
  { intros i j Hi Hj E.
    exact (NoDup_map_zrange_inj _ _ _ i j Htops Hi Hj E). }
  intros Hht. rewrite Hht in Hvi. split.
  - intros H12 E. destruct (Z.ltb_spec 12 (v_n v)); [|lia].
    apply (NoDup_app_disjoint _ _ (zget (v_dir v) 12 0) Hvi); [left; reflexivity|].
    apply in_or_app. right. left. exact E.
  - intros j Hj E. apply NoDup_app_r in Hvi.
    apply (NoDup_app_disjoint _ _ (zget (v_dir v) 13 0) Hvi); [|left; reflexivity].
    rewrite <- E.
    apply (in_map (fun j => zget (v_top v) j 0)). apply in_zrange. exact Hj.
Qed.

Lemma in_vindex_d12 v : 12 < v_n v -> In (zget (v_dir v) 12 0) (vindex v).
Proof.
  intros H. unfold vindex. destruct (Z.ltb_spec 12 (v_n v)); [|lia]. left; reflexivity.
Qed.

Lemma in_vindex_top v j :
  0 <= j < outer_count (v_n v) -> In (zget (v_top v) j 0) (vindex v).
Proof.
  intros H. unfold vindex. apply in_or_app. right. apply in_or_app. left.
  apply (in_map (fun j => zget (v_top v) j 0)). apply in_zrange. exact H.
Qed.

Lemma in_vindex_d13 v : v_has_top v = true -> In (zget (v_dir v) 13 0) (vindex v).
Proof.
  intros H. unfold vindex. rewrite H. apply in_or_app. right. apply in_or_app. right.
  left; reflexivity.
Qed.

Lemma in_firstn {A} (l : list A) k x : In x (firstn k l) -> In x l.
Proof. intros H. rewrite <- (firstn_skipn k l). apply in_or_app. left; exact H. Qed.

(** *** The single-indirect tier *)

Lemma vblock_at_low v k : k < 12 -> vblock_at v k = zget (v_dir v) k 0.
Proof. intros H. unfold vblock_at. destruct (Z.ltb_spec k 12); [reflexivity | lia]. Qed.

Lemma vblock_at_mid v k :
  12 <= k < 140 ->
  vblock_at v k = zget (read_index (zget (v_dir v) 12 0) (v_st v)) (k - 12) 0.
Proof.
  intros H. unfold vblock_at.
  destruct (Z.ltb_spec k 12); [lia|]. destruct (Z.ltb_spec k 140); [reflexivity | lia].
Qed.

Lemma vblock_at_high v k :
  140 <= k ->
  vblock_at v k
  = zget (read_index (zget (v_top v) ((k - 140) / 128) 0) (v_st v)) ((k - 140) mod 128) 0.
Proof.
  intros H. unfold vblock_at.
  destruct (Z.ltb_spec k 12); [lia|]. destruct (Z.ltb_spec k 140); [lia | reflexivity].
Qed.

Lemma step_single_alloc v (k : nat) buf s rest :
  vok v -> v_n v = 12 -> free_map (v_st v) = s :: rest ->
  (1 <= k <= 128)%nat -> (k <= List.length rest)%nat -> List.length buf = 128%nat ->
  let st0 := {| disk := disk (v_st v); free_map := rest |} in
  let af := alloc_fill k buf 0 st0 in
  let st' := cache_write s (encode_words (fst af)) (snd af) in
  let v' := mk_view (zset (v_dir v) 12 s) (v_top v) st' (12 + Z.of_nat k) (v_has_top v) in
  vgrows v v' (s :: firstn k rest) /\ vok v'.
Proof.
  intros Hok Hn Hpool Hk Hkr Hbuf st0 af st' v'.
  pose proof Hok as (Hd & Ht & _ & Hnd & Hr & Hj).
  destruct (vok_facts v Hok) as (Hndp & Hpv & _).
  rewrite Hpool in Hr, Hndp, Hpv.
  apply NoDup_cons_iff in Hndp. destruct Hndp as [Hsr Hndr].
  apply Forall_cons_iff in Hr. destruct Hr as [_ Hrr].
  destruct (block_fill_facts k buf 0 s st0) as (B1 & B2 & B3 & B4 & B5 & B6);
    [exact Hkr | lia | lia | exact Hbuf | exact Hrr |].
  fold af in B1, B2, B3, B4, B5, B6. fold st' in B1, B2, B3, B4, B5, B6.
  cbn [free_map st0] in B2, B4, B5, B6. cbn [disk st0] in B5.
  assert (Hg : vgrows v v' ([s] ++ firstn k rest)).
  { apply vgrows_of_step; unfold v'; vsimpl.
    - lia.
    - intros j Hjk. rewrite !vblock_at_low by lia. vsimpl.
      apply zget_zset_other. lia.
    - rewrite Hn. apply map_zrange_firstn; [exact Hkr|].
      intros t Htk. rewrite vblock_at_mid by lia. vsimpl.
      rewrite zget_zset_same by lia.
      replace (12 + t - 12) with (0 + t) by lia. apply B2. exact Htk.
    - unfold vindex. vsimpl. rewrite Hn.
      destruct (Z.ltb_spec 12 (12 + Z.of_nat k)); [|lia].
      change (12 <? 12) with false.
      rewrite !zrange_nil by (apply outer_count_small; lia).
      rewrite zget_zset_same by lia. rewrite zget_zset_other by lia.
      cbn [map app]. apply Permutation_cons_append.
    - rewrite Hpool, B6. cbn [app]. f_equal. symmetry. apply firstn_skipn.
    - intros x Hx. apply B4; [|exact Hx].
      intros ->. apply Hsr. eapply in_firstn; eauto.
    - intros x Hx _. apply B5.
      + intros ->. apply Hx. left; reflexivity.
      + intros Hin. apply Hx. right; exact Hin. }
  cbn [app] in Hg. split; [exact Hg|].
  eapply vok_grows; [exact Hok | exact Hg | | | |]; unfold v'; vsimpl.
  - rewrite length_zset. exact Hd.
  - exact Ht.
  - lia.
  - intros j Hjr. pose proof (outer_count_small (12 + Z.of_nat k)). lia.
Qed.

Lemma step_single_read v (k : nat) :
  vok v -> 12 < v_n v -> v_n v + Z.of_nat k <= 140 ->
  (k <= List.length (free_map (v_st v)))%nat ->
  let d12 := zget (v_dir v) 12 0 in
  let af := alloc_fill k (read_index d12 (v_st v)) (v_n v - 12) (v_st v) in
  let st' := cache_write d12 (encode_words (fst af)) (snd af) in
  let v' := mk_view (v_dir v) (v_top v) st' (v_n v + Z.of_nat k) (v_has_top v) in
  vgrows v v' (firstn k (free_map (v_st v))) /\ vok v'.
Proof.
  intros Hok Hn Hk Hkp d12 af st' v'.
  pose proof Hok as (Hd & Ht & _ & Hnd & Hr & Hj).
  destruct (vok_facts v Hok) as (Hndp & Hpv & _).
  destruct (block_fill_facts k (read_index d12 (v_st v)) (v_n v - 12) d12 (v_st v))
    as (B1 & B2 & B3 & B4 & B5 & B6);
    [exact Hkp | lia | lia | apply length_read_index | exact Hr |].
  fold af in B1, B2, B3, B4, B5, B6. fold st' in B1, B2, B3, B4, B5, B6.
  assert (Hd12 : forall x, In x (free_map (v_st v)) -> x <> d12).
  { intros x Hx ->. apply (Hpv _ Hx). apply in_vall_index, in_vindex_d12. exact Hn. }
  assert (Hg : vgrows v v' ([] ++ firstn k (free_map (v_st v)))).
  { apply vgrows_of_step; unfold v'; vsimpl.
    - lia.
    - intros j Hjk. destruct (Z.lt_ge_cases j 12).
      + rewrite !vblock_at_low by lia. reflexivity.
      + rewrite !vblock_at_mid by lia. vsimpl. fold d12.
        rewrite B3 by lia. apply zget_map_u32. apply read_index_range.
    - apply map_zrange_firstn; [exact Hkp|].
      intros t Htk. rewrite vblock_at_mid by lia. vsimpl. fold d12.
      replace (v_n v + t - 12) with (v_n v - 12 + t) by lia. apply B2. exact Htk.
    - rewrite app_nil_r. unfold vindex. vsimpl.
      destruct (Z.ltb_spec 12 (v_n v + Z.of_nat k)); [|lia].
      destruct (Z.ltb_spec 12 (v_n v)); [|lia].
      rewrite !zrange_nil by (apply outer_count_small; lia). reflexivity.
    - cbn [app]. rewrite B6. symmetry. apply firstn_skipn.
    - intros x Hx. apply B4; [|exact Hx]. apply Hd12. eapply in_firstn; eauto.
    - intros x Hx Hxi. apply B5; [|exact Hx].
      intros ->. apply Hxi. apply in_vindex_d12. exact Hn. }
  cbn [app] in Hg. split; [exact Hg|].
  eapply vok_grows; [exact Hok | exact Hg | | | |]; unfold v'; vsimpl.
  - exact Hd.
  - exact Ht.
  - lia.
  - intros j Hjr. pose proof (outer_count_small (v_n v + Z.of_nat k)). lia.
Qed.

Lemma outer_index_bound n k : 140 <= k < n -> 0 <= (k - 140) / 128 < outer_count n.
Proof. unfold outer_count. intros H. lia. Qed.

Lemma step_single_rewrite v :
  vok v -> 140 <= v_n v ->
  let d12 := zget (v_dir v) 12 0 in
  let st' := cache_write d12 (encode_words (read_index d12 (v_st v))) (v_st v) in
  let v' := mk_view (v_dir v) (v_top v) st' (v_n v) (v_has_top v) in
  vgrows v v' [] /\ vok v'.
Proof.
  intros Hok Hn d12 st' v'.
  pose proof Hok as (Hd & Ht & Hn16 & Hnd & Hr & Hj).
  destruct (vok_facts v Hok) as (Hndp & Hpv & _ & Htop12 & _).
  assert (Hread : read_index d12 st' = map u32 (read_index d12 (v_st v))).
  { apply read_index_cache_write_same. apply length_read_index. }
  assert (Hg : vgrows v v' ([] ++ [])).
  { apply vgrows_of_step; unfold v'; vsimpl.
    - lia.
    - intros j Hjk. destruct (Z.lt_ge_cases j 12); [|destruct (Z.lt_ge_cases j 140)].
      + rewrite !vblock_at_low by lia. reflexivity.
      + rewrite !vblock_at_mid by lia. vsimpl. fold d12. rewrite Hread.
        apply zget_map_u32. apply read_index_range.
      + rewrite !vblock_at_high by lia. vsimpl. f_equal.
        apply read_index_cache_write_other. apply Htop12; [lia|].
        apply outer_index_bound. lia.
    - rewrite zrange_nil by lia. reflexivity.
    - rewrite app_nil_r. reflexivity.
    - reflexivity.
    - intros x [].
    - intros x _ Hxi. unfold st', cache_write. cbn [disk].
      destruct (Z.eqb_spec x d12) as [->|]; [|reflexivity].
      exfalso. apply Hxi. apply in_vindex_d12. lia. }
  cbn [app] in Hg. split; [exact Hg|].
  eapply vok_grows; [exact Hok | exact Hg | | | |]; unfold v'; vsimpl; assumption || lia.
Qed.

(** *** The double-indirect tier *)

Lemma step_top_alloc v top' t rest :
  vok v -> v_n v = 140 -> v_has_top v = false -> free_map (v_st v) = t :: rest ->
  List.length top' = 128%nat ->
  let v' := mk_view (zset (v_dir v) 13 t) top'
                    {| disk := disk (v_st v); free_map := rest |} 140 true in
  vgrows v v' [t] /\ vok v'.
Proof.
  intros Hok Hn Hht Hpool Htop v'.
  pose proof Hok as (Hd & Ht & _ & Hnd & Hr & Hj).
  assert (Hg : vgrows v v' ([t] ++ [])).
  { apply vgrows_of_step; unfold v'; vsimpl.
    - lia.
    - intros j Hjk. destruct (Z.lt_ge_cases j 12).
      + rewrite !vblock_at_low by lia. vsimpl. apply zget_zset_other. lia.
      + rewrite !vblock_at_mid by lia. vsimpl.
        rewrite zget_zset_other by lia. reflexivity.
    - rewrite zrange_nil by lia. reflexivity.
    - unfold vindex. vsimpl. rewrite Hn, Hht.
      change (12 <? 140) with true.
      rewrite !zrange_nil by (apply outer_count_small; lia).
      rewrite zget_zset_other by lia. rewrite zget_zset_same by lia. reflexivity.
    - rewrite Hpool. reflexivity.
    - intros x [].
    - intros x _ _. reflexivity. }
  split; [exact Hg|].
  eapply vok_grows; [exact Hok | exact Hg | | | |]; unfold v'; vsimpl.
  - rewrite length_zset. exact Hd.
  - exact Htop.
  - lia.
  - intros j Hjr. pose proof (outer_count_small 140). lia.
Qed.

Lemma step_outer_alloc v (k : nat) i1 buffer2 o rest :
  vok v -> 0 <= i1 < 128 -> v_n v = 140 + 128 * i1 -> v_has_top v = true ->
  free_map (v_st v) = o :: rest ->
  (1 <= k <= 128)%nat -> (k <= List.length rest)%nat ->
  List.length buffer2 = 128%nat -> v_n v + Z.of_nat k <= 16524 ->
  let st0 := {| disk := disk (v_st v); free_map := rest |} in
  let af := alloc_fill k buffer2 0 st0 in
  let st' := cache_write o (encode_words (fst af)) (snd af) in
  let v' := mk_view (v_dir v) (zset (v_top v) i1 o) st' (v_n v + Z.of_nat k) true in
  vgrows v v' (o :: firstn k rest) /\ vok v'.
Proof.
  intros Hok Hi1 Hn Hht Hpool Hk Hkr Hbuf Hcap st0 af st' v'.
  pose proof Hok as (Hd & Ht & _ & Hnd & Hr & Hj).
  destruct (vok_facts v Hok) as (Hndp & Hpv & _ & Htop12 & _).
  rewrite Hpool in Hr, Hndp, Hpv.
  apply NoDup_cons_iff in Hndp. destruct Hndp as [Hor Hndr].
  apply Forall_cons_iff in Hr. destruct Hr as [Hro Hrr].
  destruct (block_fill_facts k buffer2 0 o st0) as (B1 & B2 & B3 & B4 & B5 & B6);
    [exact Hkr | lia | lia | exact Hbuf | exact Hrr |].
  fold af in B1, B2, B3, B4, B5, B6. fold st' in B1, B2, B3, B4, B5, B6.
  cbn [free_map st0] in B2, B4, B5, B6. cbn [disk st0] in B5.
  assert (Hoc : outer_count (v_n v) = i1) by (rewrite Hn; unfold outer_count; lia).
  assert (Hoc' : outer_count (v_n v + Z.of_nat k) = i1 + 1)
    by (rewrite Hn; unfold outer_count; lia).
  assert (Hframe : forall y, In y (vindex v) -> read_index y st' = read_index y (v_st v)).
  { intros y Hy. apply read_index_ext. apply B5.
    - intros ->. apply (Hpv o); [left; reflexivity | apply in_vall_index; exact Hy].
    - intros Hin. apply (Hpv y); [right; eapply in_firstn; eauto|].
      apply in_vall_index; exact Hy. }
  assert (Hg : vgrows v v' ([o] ++ firstn k rest)).
  { apply vgrows_of_step; unfold v'; vsimpl.
    - lia.
    - intros j Hjk. destruct (Z.lt_ge_cases j 12); [|destruct (Z.lt_ge_cases j 140)].
      + rewrite !vblock_at_low by lia. reflexivity.
      + rewrite !vblock_at_mid by lia. vsimpl. f_equal.
        apply Hframe. apply in_vindex_d12. lia.
      + rewrite !vblock_at_high by lia. vsimpl.
        pose proof (outer_index_bound (v_n v) j ltac:(lia)) as Hb. rewrite Hoc in Hb.
        rewrite zget_zset_other by lia. f_equal.
        apply Hframe. apply in_vindex_top. rewrite Hoc. exact Hb.
    - apply map_zrange_firstn; [exact Hkr|].
      intros t Htk. rewrite vblock_at_high by lia. vsimpl. rewrite Hn.
      replace ((140 + 128 * i1 + t - 140) / 128) with i1 by lia.
      replace ((140 + 128 * i1 + t - 140) mod 128) with (0 + t) by lia.
      rewrite zget_zset_same by lia. apply B2. exact Htk.
    - unfold vindex. vsimpl. rewrite Hoc, Hoc', Hht.
      destruct (Z.ltb_spec 12 (v_n v + Z.of_nat k)); [|lia].
      destruct (Z.ltb_spec 12 (v_n v)); [|lia].
      rewrite zrange_snoc by lia. rewrite map_app. cbn [map].
      rewrite zget_zset_same by lia.
      rewrite (map_ext_zrange (fun j => zget (zset (v_top v) i1 o) j 0)
                              (fun j => zget (v_top v) j 0))
        by (intros x Hx; apply zget_zset_other; lia).
      rewrite <- !app_assoc. apply Permutation_app_head. apply Permutation_app_head.
      cbn [app]. apply perm_swap.
    - rewrite Hpool, B6. cbn [app]. f_equal. symmetry. apply firstn_skipn.
    - intros x Hx. apply B4; [|exact Hx].
      intros ->. apply Hor. eapply in_firstn; eauto.
    - intros x Hx _. apply B5.
      + intros ->. apply Hx. left; reflexivity.
      + intros Hin. apply Hx. right; exact Hin. }
  cbn [app] in Hg. split; [exact Hg|].
  eapply vok_grows; [exact Hok | exact Hg | | | |]; unfold v'; vsimpl.
  - exact Hd.
  - rewrite length_zset. exact Ht.
  - lia.
  - intros j Hjr. rewrite Hoc' in Hjr.
    destruct (Z.eq_dec j i1) as [->|Hne].
    + rewrite zget_zset_same by lia. exact Hro.
    + rewrite zget_zset_other by lia. apply Hj. rewrite Hoc. lia.
Qed.

Lemma step_outer_read v (k : nat) i1 i2 :
  vok v -> 0 <= i1 < 128 -> 0 < i2 < 128 -> v_n v = 140 + 128 * i1 + i2 ->
  v_has_top v = true ->
  i2 + Z.of_nat k <= 128 -> (k <= List.length (free_map (v_st v)))%nat ->
  let x := zget (v_top v) i1 0 in
  let af := alloc_fill k (read_index x (v_st v)) i2 (v_st v) in
  let st' := cache_write x (encode_words (fst af)) (snd af) in
  let v' := mk_view (v_dir v) (v_top v) st' (v_n v + Z.of_nat k) true in
  vgrows v v' (firstn k (free_map (v_st v))) /\ vok v'.
Proof.
  intros Hok Hi1 Hi2 Hn Hht Hk Hkp x af st' v'.
  pose proof Hok as (Hd & Ht & Hn16 & Hnd & Hr & Hj).
  destruct (vok_facts v Hok) as (Hndp & Hpv & _ & Htop12 & Htopinj & _).
  destruct (block_fill_facts k (read_index x (v_st v)) i2 x (v_st v))
    as (B1 & B2 & B3 & B4 & B5 & B6);
    [exact Hkp | lia | lia | apply length_read_index | exact Hr |].
  fold af in B1, B2, B3, B4, B5, B6. fold st' in B1, B2, B3, B4, B5, B6.
  assert (Hoc : outer_count (v_n v) = i1 + 1) by (rewrite Hn; unfold outer_count; lia).
  assert (Hoc' : outer_count (v_n v + Z.of_nat k) = i1 + 1)
    by (rewrite Hn; unfold outer_count; lia).
  assert (Hx : In x (vindex v)) by (apply in_vindex_top; rewrite Hoc; lia).
  assert (Hpx : forall y, In y (free_map (v_st v)) -> y <> x).
  { intros y Hy ->. apply (Hpv _ Hy). apply in_vall_index. exact Hx. }
  assert (Hframe : forall y, In y (vindex v) -> y <> x ->
                             read_index y st' = read_index y (v_st v)).
  { intros y Hy Hyx. apply read_index_ext. apply B5; [exact Hyx|].
    intros Hin. apply (Hpv y); [eapply in_firstn; eauto|].
    apply in_vall_index; exact Hy. }
  assert (Hg : vgrows v v' ([] ++ firstn k (free_map (v_st v)))).
  { apply vgrows_of_step; unfold v'; vsimpl.
    - lia.
    - intros j Hjk. destruct (Z.lt_ge_cases j 12); [|destruct (Z.lt_ge_cases j 140)].
      + rewrite !vblock_at_low by lia. reflexivity.
      + rewrite !vblock_at_mid by lia. vsimpl. f_equal.
        apply Hframe; [apply in_vindex_d12; lia|].
        intros E. apply (Htop12 i1); [lia | rewrite Hoc; lia | symmetry; exact E].
      + rewrite !vblock_at_high by lia. vsimpl.
        pose proof (outer_index_bound (v_n v) j ltac:(lia)) as Hb. rewrite Hoc in Hb.
        destruct (Z.eq_dec ((j - 140) / 128) i1) as [E|Hne].
        * rewrite E. fold x. rewrite B3 by lia.
          apply zget_map_u32. apply read_index_range.
        * f_equal. apply Hframe; [apply in_vindex_top; rewrite Hoc; exact Hb|].
          intros E. apply Hne. apply Htopinj; rewrite ?Hoc; [lia | lia | exact E].
    - apply map_zrange_firstn; [exact Hkp|].
      intros t Htk. rewrite vblock_at_high by lia. vsimpl. rewrite Hn.
      replace ((140 + 128 * i1 + i2 + t - 140) / 128) with i1 by lia.
      replace ((140 + 128 * i1 + i2 + t - 140) mod 128) with (i2 + t) by lia.
      fold x. apply B2. exact Htk.
    - rewrite app_nil_r. unfold vindex. vsimpl. rewrite Hoc, Hoc', Hht.
      destruct (Z.ltb_spec 12 (v_n v + Z.of_nat k)); [|lia].
      destruct (Z.ltb_spec 12 (v_n v)); [|lia]. reflexivity.
    - cbn [app]. rewrite B6. symmetry. apply firstn_skipn.
    - intros y Hy. apply B4; [|exact Hy]. apply Hpx. eapply in_firstn; eauto.
    - intros y Hy Hyi. apply B5; [|exact Hy]. intros ->. exact (Hyi Hx). }
  cbn [app] in Hg. split; [exact Hg|].
  eapply vok_grows; [exact Hok | exact Hg | | | |]; unfold v'; vsimpl.
  - exact Hd.
  - exact Ht.
  - lia.
  - intros j Hjr. rewrite Hoc' in Hjr. apply Hj. rewrite Hoc. exact Hjr.
Qed.

Lemma step_top_write v :
  vok v -> 140 < v_n v -> v_has_top v = true ->
  let d13 := zget (v_dir v) 13 0 in
  let st' := cache_write d13 (encode_words (v_top v)) (v_st v) in
  let v' := mk_view (v_dir v) (read_index d13 st') st' (v_n v) true in
  vgrows v v' [] /\ vok v'.
Proof.
  intros Hok Hn Hht d13 st' v'.
  pose proof Hok as (Hd & Ht & Hn16 & Hnd & Hr & Hj).
  destruct (vok_facts v Hok) as (Hndp & Hpv & _ & Htop12 & _ & Htop13).
  destruct (Htop13 Hht) as [H1312 H13top]. fold d13 in H1312, H13top.
  assert (Hread : read_index d13 st' = map u32 (v_top v))
    by (apply read_index_cache_write_same; exact Ht).
  assert (Htopeq : forall j, 0 <= j < outer_count (v_n v) ->
                             zget (read_index d13 st') j 0 = zget (v_top v) j 0).
  { intros j Hjr. rewrite Hread. apply zget_map_u32. apply Hj. exact Hjr. }
  assert (Hg : vgrows v v' ([] ++ [])).
  { apply vgrows_of_step; unfold v'; vsimpl.
    - lia.
    - intros j Hjk. destruct (Z.lt_ge_cases j 12); [|destruct (Z.lt_ge_cases j 140)].
      + rewrite !vblock_at_low by lia. reflexivity.
      + rewrite !vblock_at_mid by lia. vsimpl. f_equal.
        apply read_index_cache_write_other. intros E. apply H1312; [lia|].
        symmetry; exact E.
      + rewrite !vblock_at_high by lia. vsimpl.
        pose proof (outer_index_bound (v_n v) j ltac:(lia)) as Hb.
        rewrite Htopeq by exact Hb. f_equal.
        apply read_index_cache_write_other. apply H13top. exact Hb.
    - rewrite zrange_nil by lia. reflexivity.
    - rewrite app_nil_r. unfold vindex. vsimpl. rewrite Hht.
      rewrite (map_ext_zrange (fun j => zget (read_index d13 st') j 0)
                              (fun j => zget (v_top v) j 0)) by exact Htopeq.
      reflexivity.
    - reflexivity.
    - intros x [].
    - intros x _ Hxi. unfold st', cache_write. cbn [disk].
      destruct (Z.eqb_spec x d13) as [->|]; [|reflexivity].
      exfalso. apply Hxi. apply in_vindex_d13. exact Hht. }
  cbn [app] in Hg. split; [exact Hg|].
  eapply vok_grows; [exact Hok | exact Hg | | | |]; unfold v'; vsimpl.
  - exact Hd.
  - apply length_read_index.
  - lia.
  - intros j Hjr. apply read_index_range.
Qed.

Lemma set_blocks_set_blocks id a b : set_blocks (set_blocks id a) b = set_blocks id b.
Proof. reflexivity. Qed.

Lemma grow_doubly_spec fuel : forall id buffer1 buffer2 index1 index2 n st dir,
  let v := mk_view dir buffer1 st (140 + 128 * index1 + index2) true in
  vok v -> 0 <= index1 -> 0 <= index2 < 128 -> 1 <= n -> v_n v + n <= 16524 ->
  blocks id = v_n v -> List.length buffer2 = 128%nat ->
  n + (outer_count (v_n v + n) - outer_count (v_n v))
    <= Z.of_nat (List.length (free_map st)) ->
  128 - index1 < Z.of_nat fuel ->
  exists buffer1' st' used,
    grow_doubly fuel id buffer1 buffer2 index1 index2 n st
    = Ok (set_blocks id (blocks id + n), buffer1', st')
    /\ vgrows v (mk_view dir buffer1' st' (v_n v + n) true) used
    /\ vok (mk_view dir buffer1' st' (v_n v + n) true)
    /\ Z.of_nat (List.length used)
       = n + (outer_count (v_n v + n) - outer_count (v_n v)).
Proof.
  induction fuel as [|fuel IH];
    intros id buffer1 buffer2 index1 index2 n st dir v Hok Hi1 Hi2 Hn Hcap Hb Hl2 Hneed Hf;
    assert (Hvn : v_n v = 140 + 128 * index1 + index2) by reflexivity;
    [lia|].
  pose proof Hok as (Hd & Ht & _ & _ & _ & _). cbn [v v_dir v_top] in Hd, Ht.
  rewrite grow_doubly_S. unfold INDIRECT_BLOCK_SIZE.
  destruct (Z.ltb_spec index1 128) as [Hlt|Hge]; [|lia].
  destruct (Z.eqb_spec index2 0) as [Hz|Hnz].
  - (* a new second-level block *)
    subst index2.
    assert (Hoc : outer_count (v_n v) = index1) by (rewrite Hvn; unfold outer_count; lia).
    assert (Hoc1 : 1 <= outer_count (v_n v + n) - outer_count (v_n v))
      by (rewrite Hvn; unfold outer_count; lia).
    unfold free_map_allocate.
    destruct (free_map st) as [|o rest] eqn:Hpool;
      rewrite ?Hpool in Hneed; cbn [List.length] in Hneed; [lia|].
    rewrite grow_doubly_inner_run by lia. cbn [bind].
    rewrite zget_zset_same by lia. rewrite (u32_small (index1 + 1)) by lia.
    assert (Hkr : (Z.to_nat (Z.min n (128 - 0)) <= List.length rest)%nat)
      by lia.
    destruct (step_outer_alloc v (Z.to_nat (Z.min n (128 - 0))) index1 buffer2 o rest)
      as [Hg1 Hok1]; try assumption; try reflexivity; try lia.
    cbv zeta in Hg1, Hok1. cbn [v v_dir v_top v_st v_n] in Hg1, Hok1. fold v in Hg1.
    rewrite Z2Nat.id in Hg1, Hok1 by lia.
    destruct (Z.eqb_spec (n - Z.min n (128 - 0)) 0) as [Hz|Hnz].
    + assert (Hn128 : n <= 128) by lia.
      replace (Z.min n (128 - 0)) with n in * by lia.
      do 3 eexists. split; [reflexivity|].
      replace (v_n v + n) with (140 + 128 * index1 + 0 + n) by (rewrite Hvn; lia).
      split; [exact Hg1|]. split; [exact Hok1|].
      cbn [List.length]. rewrite length_firstn.
      replace (outer_count (140 + 128 * index1 + 0 + n) - outer_count (v_n v)) with 1
        by (rewrite Hvn; unfold outer_count; lia).
      lia.
    + assert (Hn128 : 128 < n) by lia.
      replace (Z.min n (128 - 0)) with 128 in * by lia.
      match goal with |- context [grow_doubly fuel ?i ?b1 ?b2 ?x1 0 ?m ?s] =>
        destruct (IH i b1 b2 x1 0 m s dir) as (b1' & st' & u2 & E & Hg2 & Hok2 & Hlen2)
      end.
      * replace (140 + 128 * (index1 + 1) + 0) with (140 + 128 * index1 + 0 + 128) by lia.
        exact Hok1.
      * lia.
      * lia.
      * lia.
      * cbn [v_n]. lia.
      * cbn [v_n blocks set_blocks]. rewrite Hb, Hvn. lia.
      * rewrite alloc_fill_length. exact Hl2.
      * cbn [v_n]. cbn [cache_write free_map]. rewrite alloc_fill_free_map.
        cbn [free_map]. rewrite length_skipn.
        rewrite Hvn in Hneed.
        replace (140 + 128 * (index1 + 1) + 0 + (n - 128))
          with (140 + 128 * index1 + 0 + n) by lia.
        assert (outer_count (140 + 128 * (index1 + 1) + 0) = index1 + 1)
          by (unfold outer_count; lia).
        rewrite Hvn in Hoc. lia.
      * lia.
      * rewrite E. cbn [v_n] in Hg2, Hok2, Hlen2.
        replace (140 + 128 * (index1 + 1) + 0 + (n - 128))
          with (v_n v + n) in Hg2, Hok2, Hlen2 by (rewrite Hvn; lia).
        replace (140 + 128 * (index1 + 1) + 0)
          with (140 + 128 * index1 + 0 + 128) in Hg2, Hlen2 by lia.
        do 3 eexists. split.
        { cbn [blocks set_blocks]. rewrite set_blocks_set_blocks.
          match goal with |- Ok (set_blocks id ?a, _, _) = _ =>
            replace a with (blocks id + n) by lia end.
          reflexivity. }
        split; [eapply vgrows_trans; [exact Hok1 | exact Hg1 | exact Hg2]|].
        split; [exact Hok2|].
        rewrite length_app, Nat2Z.inj_add, Hlen2. cbn [List.length].
        rewrite length_firstn.
        assert (outer_count (140 + 128 * index1 + 0 + 128) = index1 + 1)
          by (unfold outer_count; lia).
        lia.
  - (* the second-level block in use *)
    assert (Hoc : outer_count (v_n v) = index1 + 1)
      by (rewrite Hvn; unfold outer_count; lia).
    rewrite grow_doubly_inner_run by (try apply length_read_index; lia). cbn [bind].
    rewrite (u32_small (index1 + 1)) by lia.
    assert (Hkp : (Z.to_nat (Z.min n (128 - index2)) <= List.length (free_map st))%nat).
    { assert (0 <= outer_count (v_n v + n) - outer_count (v_n v))
        by (rewrite Hvn; unfold outer_count; lia).
      lia. }
    destruct (step_outer_read v (Z.to_nat (Z.min n (128 - index2))) index1 index2)
      as [Hg1 Hok1]; try assumption; try reflexivity; try lia.
    cbv zeta in Hg1, Hok1. cbn [v v_dir v_top v_st v_n] in Hg1, Hok1. fold v in Hg1.
    rewrite Z2Nat.id in Hg1, Hok1 by lia.
    destruct (Z.eqb_spec (n - Z.min n (128 - index2)) 0) as [Hz|Hnz2].
    + assert (Hn128 : n <= 128 - index2) by lia.
      replace (Z.min n (128 - index2)) with n in * by lia.
      do 3 eexists. split; [reflexivity|].
      replace (v_n v + n) with (140 + 128 * index1 + index2 + n) by (rewrite Hvn; lia).
      split; [exact Hg1|]. split; [exact Hok1|].
      rewrite length_firstn.
      replace (outer_count (140 + 128 * index1 + index2 + n) - outer_count (v_n v)) with 0
        by (rewrite Hvn; unfold outer_count; lia).
      lia.
    + assert (Hn128 : 128 - index2 < n) by lia.
      replace (Z.min n (128 - index2)) with (128 - index2) in * by lia.
      match goal with |- context [grow_doubly fuel ?i ?b1 ?b2 ?x1 0 ?m ?s] =>
        destruct (IH i b1 b2 x1 0 m s dir) as (b1' & st' & u2 & E & Hg2 & Hok2 & Hlen2)
      end.
      * replace (140 + 128 * (index1 + 1) + 0)
          with (140 + 128 * index1 + index2 + (128 - index2)) by lia.
        exact Hok1.
      * lia.
      * lia.
      * lia.
      * cbn [v_n]. lia.
      * cbn [v_n blocks set_blocks]. rewrite Hb, Hvn. lia.
      * rewrite alloc_fill_length. apply length_read_index.
      * cbn [v_n]. cbn [cache_write free_map]. rewrite alloc_fill_free_map.
        rewrite length_skipn.
        rewrite Hvn in Hneed.
        replace (140 + 128 * (index1 + 1) + 0 + (n - (128 - index2)))
          with (140 + 128 * index1 + index2 + n) by lia.
        assert (outer_count (140 + 128 * (index1 + 1) + 0) = index1 + 1)
          by (unfold outer_count; lia).
        rewrite Hvn in Hoc. lia.
      * lia.
      * rewrite E. cbn [v_n] in Hg2, Hok2, Hlen2.
        replace (140 + 128 * (index1 + 1) + 0 + (n - (128 - index2)))
          with (v_n v + n) in Hg2, Hok2, Hlen2 by (rewrite Hvn; lia).
        replace (140 + 128 * (index1 + 1) + 0)
          with (140 + 128 * index1 + index2 + (128 - index2)) in Hg2, Hlen2 by lia.
        do 3 eexists. split.
        { cbn [blocks set_blocks]. rewrite set_blocks_set_blocks.
          match goal with |- Ok (set_blocks id ?a, _, _) = _ =>
            replace a with (blocks id + n) by lia end.
          reflexivity. }
        split; [eapply vgrows_trans; [exact Hok1 | exact Hg1 | exact Hg2]|].
        split; [exact Hok2|].
        rewrite length_app, Nat2Z.inj_add, Hlen2.
        rewrite length_firstn.
        assert (outer_count (140 + 128 * index1 + index2 + (128 - index2)) = index1 + 1)
          by (unfold outer_count; lia).
        lia.
Qed.

(** ** The tiers of the growth engine *)

Lemma inode_grow_tiers stk id len st :
  inode_grow stk id len st =
  let new_sectors := u32 (bytes_to_sectors len - bytes_to_sectors (length id)) in
  if new_sectors =? 0 then Ok (len, id, st) else
  '(returned, id, new_sectors, st) <- grow_direct 13 id new_sectors st ;;
  if (returned : bool) then Ok (len, id, st)
  else grow_indirect_tier stk len id new_sectors st.
Proof. reflexivity. Qed.

Lemma view_retop v top' :
  (forall j, 0 <= j < outer_count (v_n v) -> zget top' j 0 = zget (v_top v) j 0) ->
  let v' := mk_view (v_dir v) top' (v_st v) (v_n v) (v_has_top v) in
  (forall k, 0 <= k < v_n v -> vblock_at v' k = vblock_at v k)
  /\ vindex v' = vindex v /\ vall v' = vall v.
Proof.
  intros Htop v'.
  assert (H1 : forall k, 0 <= k < v_n v -> vblock_at v' k = vblock_at v k).
  { intros k Hk. destruct (Z.lt_ge_cases k 12); [|destruct (Z.lt_ge_cases k 140)].
    - rewrite !vblock_at_low by lia. reflexivity.
    - rewrite !vblock_at_mid by lia. reflexivity.
    - rewrite !vblock_at_high by lia. unfold v'. vsimpl.
      rewrite Htop by (apply outer_index_bound; lia). reflexivity. }
  assert (H2 : vindex v' = vindex v).
  { unfold vindex, v'. vsimpl. f_equal. f_equal.
    apply map_ext_zrange. exact Htop. }
  split; [exact H1|]. split; [exact H2|].
  unfold vall. rewrite H2. f_equal. apply map_ext_zrange. exact H1.
Qed.

Lemma vgrows_retop v0 v top' used :
  (forall j, 0 <= j < outer_count (v_n v) -> zget top' j 0 = zget (v_top v) j 0) ->
  vgrows v0 v used ->
  vgrows v0 (mk_view (v_dir v) top' (v_st v) (v_n v) (v_has_top v)) used.
Proof.
  intros Htop (G1 & G2 & G3 & G4 & G5 & G6 & G7).
  destruct (view_retop v top' Htop) as (R1 & R2 & R3). cbv zeta in R1, R2, R3.
  unfold vgrows. vsimpl. rewrite R3. split; [exact G1|].
  split. { intros k Hk. rewrite R1 by lia. apply G2. exact Hk. }
  split; [exact G3|]. split; [exact G4|].
  split. { intros k Hk. rewrite R1 by lia. apply G5. exact Hk. }
  split; [exact G6|]. rewrite R2. exact G7.
Qed.

Lemma vok_retop v top' :
  List.length top' = 128%nat ->
  (forall j, 0 <= j < outer_count (v_n v) -> zget top' j 0 = zget (v_top v) j 0) ->
  vok v -> vok (mk_view (v_dir v) top' (v_st v) (v_n v) (v_has_top v)).
Proof.
  intros Hl Htop (Hd & Ht & Hn & Hnd & Hr & Hj).
  destruct (view_retop v top' Htop) as (R1 & R2 & R3). cbv zeta in R1, R2, R3.
  unfold vok. vsimpl. rewrite R3.
  repeat (split; [assumption|]). intros j Hjr. rewrite Htop by exact Hjr. apply Hj, Hjr.
Qed.

Lemma vok_view_of id st : wf_inode id st -> vok (view_of id st).
Proof.
  intros (Hd & Hn & Hnd & Hr). unfold vok, view_of. vsimpl.
  split; [exact Hd|]. split; [apply length_read_index|]. split; [exact Hn|].
  split; [rewrite all_sectors_view in Hnd; exact Hnd|].
  split; [exact Hr|]. intros j _. apply read_index_range.
Qed.

Lemma wf_inode_view_of id st : vok (view_of id st) -> wf_inode id st.
Proof.
  intros (Hd & _ & Hn & Hnd & Hr & _). unfold wf_inode.
  rewrite all_sectors_view. auto.
Qed.

Lemma index_count_140 n :
  140 <= n -> index_count n = 1 + (if 140 <? n then 1 + outer_count n else 0).
Proof. intros H. unfold index_count. destruct (Z.ltb_spec 12 n); [reflexivity | lia]. Qed.

Lemma same_header_set_blocks_r id id' b :
  same_header id id' -> same_header id (set_blocks id' b).
Proof. intros H. exact H. Qed.

Lemma grow_doubly_tier_spec stk len id n st :
  stack_ok stk -> vok (view_of id st) -> 140 <= blocks id -> 1 <= n ->
  blocks id + n <= 16524 ->
  sectors_needed (blocks id) n <= Z.of_nat (List.length (free_map st)) ->
  exists id' st' used,
    grow_doubly_tier stk len id n st = Ok (len, id', st')
    /\ blocks id' = blocks id + n /\ same_header id id'
    /\ vgrows (view_of id st) (view_of id' st') used
    /\ vok (view_of id' st')
    /\ Z.of_nat (List.length used) = sectors_needed (blocks id) n.
Proof.
  intros (_ & Hs1 & Hs2) Hok Hb Hn Hcap Hneed.
  unfold sectors_needed in *. rewrite !index_count_140 in * by lia.
  destruct (Z.ltb_spec 140 (blocks id + n)) as [_|]; [|lia].
  unfold grow_doubly_tier, INDIRECT_BLOCKS, DIRECT_BLOCKS, INDIRECT_BLOCK_SIZE.
  change (12 + 1) with 13.
  destruct (Z.eqb_spec (blocks id) 140) as [E140|N140].
  - (* the double-indirect block is allocated now *)
    destruct (Z.ltb_spec 140 (blocks id)) as [|_]; [lia|].
    unfold free_map_allocate.
    assert (Hoc0 : 0 <= outer_count (blocks id + n)) by (unfold outer_count; lia).
    destruct (free_map st) as [|t rest] eqn:Hpool;
      cbn [List.length] in Hneed; [lia|].
    cbn [blocks set_direct]. rewrite E140. change (u32 (140 - 140)) with 0.
    change (0 / 128) with 0. change (0 mod 128) with 0.
    destruct (step_top_alloc (view_of id st) (stack_buffer1 stk) t rest)
      as [Hg1 Hok1]; try assumption.
    { unfold view_of. vsimpl. rewrite E140. reflexivity. }
    cbv zeta in Hg1, Hok1. unfold view_of in Hg1 at 2. unfold view_of in Hok1. vsimpl.
    destruct (grow_doubly_spec 129 (set_direct id 13 t) (stack_buffer1 stk)
                (stack_buffer2 stk) 0 0 n {| disk := disk st; free_map := rest |}
                (zset (direct id) 13 t))
      as (b1' & st2 & u2 & E & Hg2 & Hok2 & Hlen2);
      [ exact Hok1 | lia | lia | lia | cbn [v_n]; lia
      | cbn [v_n blocks set_direct]; lia | exact Hs2 | | lia | ].
    { cbn [v_n free_map]. change (140 + 128 * 0 + 0) with 140.
      rewrite <- E140 at 1. replace (outer_count 140) with 0 by reflexivity. lia. }
    rewrite E. cbn [bind]. cbn [v_n] in Hg2, Hok2, Hlen2.
    change (140 + 128 * 0 + 0) with 140 in Hg2, Hok2, Hlen2.
    destruct (step_top_write _ Hok2) as [Hg3 Hok3]; [vsimpl; lia | reflexivity |].
    cbv zeta in Hg3, Hok3. vsimpl.
    do 3 eexists. split; [reflexivity|].
    cbn [blocks set_blocks set_direct direct].
    split; [lia|]. split; [repeat split|].
    assert (Hview : forall s,
      view_of (set_blocks (set_direct id 13 t) (blocks id + n)) s
      = mk_view (zset (direct id) 13 t)
                (read_index (zget (zset (direct id) 13 t) 13 0) s) s (140 + n) true).
    { intros s. unfold view_of. cbn [blocks set_blocks set_direct direct].
      rewrite E140. destruct (Z.ltb_spec 140 (140 + n)); [reflexivity | lia]. }
    rewrite Hview.
    split; [|split; [exact Hok3|]].
    + pose proof (vgrows_trans _ _ _ _ _ Hok1 Hg1
                    (vgrows_trans _ _ _ _ _ Hok2 Hg2 Hg3)) as Hg.
      exact Hg.
    + rewrite app_nil_r. cbn [app List.length].
      rewrite Nat2Z.inj_succ, Hlen2. rewrite ?E140.
      replace (outer_count 140) with 0 by reflexivity. lia.
  - (* the double-indirect block is in use *)
    destruct (Z.ltb_spec 140 (blocks id)) as [_|]; [|lia].
    rewrite (u32_small (blocks id - 140)) by lia.
    set (index1 := (blocks id - 140) / 128).
    set (index2 := (blocks id - 140) mod 128).
    assert (Hvn : blocks id = 140 + 128 * index1 + index2) by (unfold index1, index2; lia).
    assert (Hview : view_of id st
      = mk_view (direct id) (read_index (zget (direct id) 13 0) st) st
                (140 + 128 * index1 + index2) true).
    { unfold view_of. rewrite <- Hvn.
      destruct (Z.ltb_spec 140 (blocks id)); [reflexivity | lia]. }
    rewrite Hview in Hok.
    destruct (grow_doubly_spec 129 id (read_index (zget (direct id) 13 0) st)
                (stack_buffer2 stk) index1 index2 n st (direct id))
      as (b1' & st2 & u2 & E & Hg2 & Hok2 & Hlen2);
      [ exact Hok | unfold index1; lia | unfold index2; lia | lia
      | cbn [v_n]; lia | cbn [v_n]; lia | exact Hs2 | | lia | ].
    { cbn [v_n]. rewrite <- Hvn. lia. }
    rewrite E. cbn [bind]. cbn [v_n] in Hg2, Hok2, Hlen2.
    rewrite <- Hvn in Hg2, Hok2, Hlen2.
    destruct (step_top_write _ Hok2) as [Hg3 Hok3]; [vsimpl; lia | reflexivity |].
    cbv zeta in Hg3, Hok3. vsimpl.
    do 3 eexists. split; [reflexivity|].
    cbn [blocks set_blocks direct].
    split; [lia|]. split; [repeat split|].
    assert (Hview' : forall s,
      view_of (set_blocks id (blocks id + n)) s
      = mk_view (direct id) (read_index (zget (direct id) 13 0) s) s (blocks id + n) true).
    { intros s. unfold view_of. cbn [blocks set_blocks direct].
      destruct (Z.ltb_spec 140 (blocks id + n)); [reflexivity | lia]. }
    assert (Hview0 : view_of id st
      = mk_view (direct id) (read_index (zget (direct id) 13 0) st) st (blocks id) true).
    { unfold view_of. destruct (Z.ltb_spec 140 (blocks id)); [reflexivity | lia]. }
    rewrite Hview', Hview0.
    split; [|split; [exact Hok3|]].
    + pose proof (vgrows_trans _ _ _ _ _ Hok2 Hg2 Hg3) as Hg.
      rewrite app_nil_r in Hg. exact Hg.
    + rewrite Hlen2. lia.
Qed.

Lemma set_blocks_same id : set_blocks id (blocks id) = id.
Proof. destruct id; reflexivity. Qed.

Lemma sectors_needed_split b n n2 :
  sectors_needed b (n - n2) + sectors_needed (b + (n - n2)) n2 = sectors_needed b n.
Proof.
  unfold sectors_needed. replace (b + (n - n2) + n2) with (b + n) by lia. lia.
Qed.

(** What is left of [inode_grow] once the single-indirect tier is done. *)
Lemma grow_after_indirect stk len id st id2 st3 n n2 u :
  stack_ok stk -> vok (view_of id st) ->
  vgrows (view_of id st) (view_of id2 st3) u -> vok (view_of id2 st3) ->
  same_header id id2 -> blocks id2 = blocks id + (n - n2) -> 0 <= n2 ->
  (n2 <> 0 -> 140 <= blocks id2) -> blocks id + n <= 16524 ->
  Z.of_nat (List.length u) = sectors_needed (blocks id) (n - n2) ->
  sectors_needed (blocks id) n <= Z.of_nat (List.length (free_map st)) ->
  exists id' st' used,
    (if n2 =? 0 then Ok (len, id2, st3) else grow_doubly_tier stk len id2 n2 st3)
    = Ok (len, id', st')
    /\ blocks id' = blocks id + n /\ same_header id id'
    /\ vgrows (view_of id st) (view_of id' st') used
    /\ vok (view_of id' st')
    /\ Z.of_nat (List.length used) = sectors_needed (blocks id) n.
Proof.
  intros Hstk Hok Hg Hok2 Hh Hb Hn2 H140 Hcap Hlen Hneed.
  destruct (Z.eqb_spec n2 0) as [Hz|Hnz].
  - subst n2. rewrite Z.sub_0_r in *.
    exists id2, st3, u. split; [reflexivity|]. repeat (split; [assumption|]). exact Hlen.
  - pose proof (sectors_needed_split (blocks id) n n2) as Hsplit.
    assert (Hpool : free_map st = u ++ free_map st3) by apply Hg.
    destruct (grow_doubly_tier_spec stk len id2 n2 st3)
      as (id' & st' & u3 & E & Hb' & Hh' & Hg' & Hok' & Hlen');
      [exact Hstk | exact Hok2 | apply H140; exact Hnz | lia | lia | |].
    { rewrite Hb. rewrite Hpool, length_app in Hneed. lia. }
    exists id', st', (u ++ u3). split; [exact E|]. split; [lia|].
    split; [eapply same_header_trans; eassumption|].
    split; [exact (vgrows_trans _ _ _ _ _ Hok2 Hg Hg')|]. split; [exact Hok'|].
    rewrite length_app, Nat2Z.inj_add, Hlen, Hlen', Hb. lia.
Qed.

Lemma index_count_le_12 n : n <= 12 -> index_count n = 0.
Proof.
  intros H. unfold index_count.
  destruct (Z.ltb_spec 12 n); [lia|]. destruct (Z.ltb_spec 140 n); [lia | reflexivity].
Qed.

Lemma index_count_mid n : 12 < n <= 140 -> index_count n = 1.
Proof.
  intros H. unfold index_count.
  destruct (Z.ltb_spec 12 n); [|lia]. destruct (Z.ltb_spec 140 n); [lia | reflexivity].
Qed.

Lemma view_of_retop (dir : list Z) (st' : storage) n :
  n <= 140 ->
  forall top,
    (forall j, 0 <= j < outer_count n ->
       zget (read_index (zget dir 13 0) st') j 0 = zget top j 0).
Proof. intros Hn top j Hj. pose proof (outer_count_small n Hn). lia. Qed.

Lemma grow_indirect_tier_spec stk len id n st :
  stack_ok stk -> vok (view_of id st) -> 12 <= blocks id -> 1 <= n ->
  blocks id + n <= 16524 ->
  sectors_needed (blocks id) n <= Z.of_nat (List.length (free_map st)) ->
  exists id' st' used,
    grow_indirect_tier stk len id n st = Ok (len, id', st')
    /\ blocks id' = blocks id + n /\ same_header id id'
    /\ vgrows (view_of id st) (view_of id' st') used
    /\ vok (view_of id' st')
    /\ Z.of_nat (List.length used) = sectors_needed (blocks id) n.
Proof.
  intros Hstk Hok Hb Hn Hcap Hneed.
  pose proof Hstk as (Hs0 & _ & _).
  assert (Hncount : 0 <= index_count (blocks id + n) - index_count (blocks id)).
  { unfold index_count, outer_count.
    destruct (Z.ltb_spec 12 (blocks id + n)), (Z.ltb_spec 12 (blocks id)),
      (Z.ltb_spec 140 (blocks id + n)), (Z.ltb_spec 140 (blocks id)); lia. }
  unfold grow_indirect_tier, DIRECT_BLOCKS.
  destruct (Z.eqb_spec (blocks id) 12) as [E12|N12].
  - (* the single-indirect block is allocated now *)
    unfold free_map_allocate.
    assert (Hneed1 : n + 1 <= Z.of_nat (List.length (free_map st))).
    { unfold sectors_needed in Hneed. rewrite E12 in Hneed.
      rewrite (index_count_le_12 12) in Hneed by lia.
      assert (1 <= index_count (12 + n)); [|lia].
      unfold index_count, outer_count.
      destruct (Z.ltb_spec 12 (12 + n)), (Z.ltb_spec 140 (12 + n)); lia. }
    destruct (free_map st) as [|s rest] eqn:Hpool; cbn [List.length] in Hneed1; [lia|].
    rewrite grow_indirect_run by (try exact Hs0; cbn [blocks set_direct]; lia).
    cbn [blocks set_direct].
    cbn [bind]. cbn [direct set_direct set_blocks].
    rewrite zget_zset_same by (destruct Hok as (Hd & _); cbn [v_dir view_of] in Hd; lia).
    replace (Z.max 0 (Z.min n (140 - blocks id))) with (Z.min n 128) by lia.
    replace (Z.min n (140 - blocks id)) with (Z.min n 128) by lia.
    replace (blocks id - 12) with 0 by lia.
    replace (blocks id + Z.min n 128) with (12 + Z.min n 128) by lia.
    destruct (step_single_alloc (view_of id st) (Z.to_nat (Z.min n 128))
                (stack_buffer stk) s rest) as [Hg1 Hok1];
      [exact Hok | exact E12 | exact Hpool | lia | lia | exact Hs0 |].
    cbv zeta in Hg1, Hok1. rewrite Z2Nat.id in Hg1, Hok1 by lia.
    cbn [view_of v_dir v_top v_st v_n v_has_top] in Hg1, Hok1.
    fold (view_of id st) in Hg1.
    match goal with |- context [cache_write s ?buf ?st2] =>
      set (st3 := cache_write s buf st2) in * end.
    set (id2 := mk_inode_disk (length id) (magic id) (unused id)
                  (zset (direct id) 12 s) (12 + Z.min n 128) (is_dir id)).
    assert (Hv2 : view_of id2 st3
      = mk_view (zset (direct id) 12 s) (read_index (zget (zset (direct id) 12 s) 13 0) st3)
                st3 (12 + Z.min n 128) (140 <? blocks id)).
    { unfold view_of, id2. cbn [blocks direct]. rewrite E12.
      destruct (Z.ltb_spec 140 (12 + Z.min n 128)); [lia | reflexivity]. }
    apply (vgrows_retop _ _ (read_index (zget (zset (direct id) 12 s) 13 0) st3)) in Hg1;
      [|vsimpl; apply view_of_retop; lia].
    apply (vok_retop _ (read_index (zget (zset (direct id) 12 s) 13 0) st3)) in Hok1;
      [|apply length_read_index | vsimpl; apply view_of_retop; lia].
    vsimpl. rewrite <- Hv2 in Hg1, Hok1.
    apply (grow_after_indirect stk len id st id2 st3 n (n - Z.min n 128)
             (s :: firstn (Z.to_nat (Z.min n 128)) rest)); try assumption.
    + repeat split.
    + unfold id2. cbn [blocks]. lia.
    + lia.
    + intros Hnz. unfold id2. cbn [blocks]. lia.
    + cbn [List.length]. rewrite length_firstn.
      unfold sectors_needed. rewrite E12.
      rewrite (index_count_le_12 12), index_count_mid by lia. lia.
    + rewrite Hpool. exact Hneed.
  - destruct (Z.lt_ge_cases (blocks id) 140) as [Hlt|Hge].
    + (* the single-indirect block is in use and has room *)
      rewrite grow_indirect_run; try lia; [|apply length_read_index].
      cbn [bind]. cbn [direct set_blocks].
      replace (Z.max 0 (Z.min n (140 - blocks id))) with (Z.min n (140 - blocks id)) by lia.
      assert (Hneed1 : n <= Z.of_nat (List.length (free_map st)))
        by (unfold sectors_needed in Hneed; lia).
      destruct (step_single_read (view_of id st) (Z.to_nat (Z.min n (140 - blocks id))))
        as [Hg1 Hok1]; [exact Hok | vsimpl; cbn [view_of v_n]; lia
                       | cbn [view_of v_n]; lia | cbn [view_of v_st]; lia |].
      cbv zeta in Hg1, Hok1. rewrite Z2Nat.id in Hg1, Hok1 by lia.
      cbn [view_of v_dir v_top v_st v_n v_has_top] in Hg1, Hok1.
      fold (view_of id st) in Hg1.
      match goal with |- context [cache_write (zget (direct id) 12 0) ?buf ?st2] =>
        set (st3 := cache_write (zget (direct id) 12 0) buf st2) in * end.
      set (id2 := set_blocks id (blocks id + Z.min n (140 - blocks id))).
      assert (Hv2 : view_of id2 st3
        = mk_view (direct id) (read_index (zget (direct id) 13 0) st3)
                  st3 (blocks id + Z.min n (140 - blocks id)) (140 <? blocks id)).
      { unfold view_of, id2. cbn [blocks direct set_blocks].
        destruct (Z.ltb_spec 140 (blocks id + Z.min n (140 - blocks id))); [lia|].
        destruct (Z.ltb_spec 140 (blocks id)); [lia | reflexivity]. }
      apply (vgrows_retop _ _ (read_index (zget (direct id) 13 0) st3)) in Hg1;
        [|vsimpl; apply view_of_retop; lia].
      apply (vok_retop _ (read_index (zget (direct id) 13 0) st3)) in Hok1;
        [|apply length_read_index | vsimpl; apply view_of_retop; lia].
      vsimpl. rewrite <- Hv2 in Hg1, Hok1.
      apply (grow_after_indirect stk len id st id2 st3 n (n - Z.min n (140 - blocks id))
               (firstn (Z.to_nat (Z.min n (140 - blocks id))) (free_map st)));
        try assumption.
      * repeat split.
      * unfold id2. cbn [blocks set_blocks]. lia.
      * lia.
      * intros Hnz. unfold id2. cbn [blocks set_blocks]. lia.
      * rewrite length_firstn. unfold sectors_needed.
        rewrite !index_count_mid by lia. lia.
    + (* the single-indirect tier is full *)
      rewrite grow_indirect_run; try lia; [|apply length_read_index].
      cbn [bind]. cbn [direct set_blocks].
      replace (Z.max 0 (Z.min n (140 - blocks id))) with 0 by lia.
      replace (Z.to_nat (Z.min n (140 - blocks id))) with O by lia.
      cbn [alloc_fill fst snd]. rewrite Z.add_0_r, Z.sub_0_r, set_blocks_same.
      destruct (step_single_rewrite (view_of id st) Hok Hge) as [Hg1 Hok1].
      cbv zeta in Hg1, Hok1.
      cbn [view_of v_dir v_top v_st v_n v_has_top] in Hg1, Hok1.
      fold (view_of id st) in Hg1.
      set (st3 := cache_write (zget (direct id) 12 0)
                    (encode_words (read_index (zget (direct id) 12 0) st)) st) in *.
      assert (Htop : forall j, 0 <= j < outer_count (blocks id) ->
        zget (read_index (zget (direct id) 13 0) st3) j 0
        = zget (read_index (zget (direct id) 13 0) st) j 0).
      { intros j Hj. f_equal. unfold st3. apply read_index_cache_write_other.
        destruct (vok_facts _ Hok) as (_ & _ & _ & _ & _ & H13).
        assert (Hgt : 140 < blocks id) by (unfold outer_count in Hj; lia).
        apply H13; [cbn [view_of v_has_top]; apply Z.ltb_lt; exact Hgt|].
        cbn [view_of v_n]. lia. }
      apply (vgrows_retop _ _ (read_index (zget (direct id) 13 0) st3)) in Hg1;
        [|vsimpl; exact Htop].
      apply (vok_retop _ (read_index (zget (direct id) 13 0) st3)) in Hok1;
        [|apply length_read_index | vsimpl; exact Htop].
      vsimpl. fold (view_of id st3) in Hg1, Hok1.
      replace n with (n - 0) at 1 by lia.
      apply (grow_after_indirect stk len id st id st3 n n []); try assumption.
      * apply same_header_refl.
      * lia.
      * lia.
      * intros _. exact Hge.
      * replace (n - n) with 0 by lia. unfold sectors_needed.
        rewrite Z.add_0_r. cbn [List.length]. lia.
Qed.

(** ** The growth engine within the capacity of the block map *)

Lemma inode_grow_spec stk id len st :
  stack_ok stk -> wf_inode id st ->
  let n := u32 (bytes_to_sectors len - bytes_to_sectors (length id)) in
  1 <= n -> blocks id + n <= 16524 ->
  sectors_needed (blocks id) n <= Z.of_nat (List.length (free_map st)) ->
  exists id' st' used,
    inode_grow stk id len st = Ok (len, id', st')
    /\ blocks id' = blocks id + n /\ same_header id id'
    /\ vgrows (view_of id st) (view_of id' st') used
    /\ vok (view_of id' st')
    /\ Z.of_nat (List.length used) = sectors_needed (blocks id) n.
Proof.
  intros Hstk Hwf n Hn Hcap Hneed.
  pose proof (vok_view_of id st Hwf) as Hok.
  destruct Hwf as (Hd & Hb & _ & _).
  pose proof (u32_range (bytes_to_sectors len - bytes_to_sectors (length id))) as Hr.
  fold n in Hr.
  rewrite inode_grow_tiers. cbv zeta. fold n.
  destruct (Z.eqb_spec n 0) as [|_]; [lia|].
  rewrite grow_direct_run by lia. cbn [bind].
  destruct (Z.ltb_spec (blocks id) 12) as [Hlt|Hge].
  - (* direct blocks are added *)
    replace (Z.max 0 (Z.min n (12 - blocks id))) with (Z.min n (12 - blocks id)) by lia.
    assert (Hneed1 : n <= Z.of_nat (List.length (free_map st))).
    { unfold sectors_needed in Hneed.
      assert (0 <= index_count (blocks id + n) - index_count (blocks id)); [|lia].
      rewrite (index_count_le_12 (blocks id)) by lia.
      unfold index_count, outer_count.
      destruct (Z.ltb_spec 12 (blocks id + n)), (Z.ltb_spec 140 (blocks id + n)); lia. }
    destruct (step_direct (view_of id st) (Z.to_nat (Z.min n (12 - blocks id))))
      as [Hg1 Hok1]; [exact Hok | cbn [view_of v_n]; lia | cbn [view_of v_st]; lia |].
    cbv zeta in Hg1, Hok1. rewrite Z2Nat.id in Hg1, Hok1 by lia.
    cbn [view_of v_dir v_top v_st v_n v_has_top] in Hg1, Hok1.
    fold (view_of id st) in Hg1.
    set (af := alloc_fill (Z.to_nat (Z.min n (12 - blocks id))) (direct id) (blocks id) st)
      in *.
    set (id1 := with_map id (fst af) (blocks id + Z.min n (12 - blocks id))).
    assert (Hv1 : view_of id1 (snd af)
      = mk_view (fst af) (read_index (zget (fst af) 13 0) (snd af)) (snd af)
                (blocks id + Z.min n (12 - blocks id)) (140 <? blocks id)).
    { unfold view_of, id1. cbn [blocks direct with_map].
      destruct (Z.ltb_spec 140 (blocks id + Z.min n (12 - blocks id))); [lia|].
      destruct (Z.ltb_spec 140 (blocks id)); [lia | reflexivity]. }
    apply (vgrows_retop _ _ (read_index (zget (fst af) 13 0) (snd af))) in Hg1;
      [|vsimpl; apply view_of_retop; lia].
    apply (vok_retop _ (read_index (zget (fst af) 13 0) (snd af))) in Hok1;
      [|apply length_read_index | vsimpl; apply view_of_retop; lia].
    vsimpl. rewrite <- Hv1 in Hg1, Hok1.
    assert (Hlen1 : Z.of_nat (List.length (firstn (Z.to_nat (Z.min n (12 - blocks id)))
                                                  (free_map st)))
                    = Z.min n (12 - blocks id))
      by (rewrite length_firstn; lia).
    destruct (Z.leb_spec n (12 - blocks id)) as [Hle|Hgt]; cbn [andb].
    + (* and that is all *)
      replace (Z.min n (12 - blocks id)) with n in * by lia.
      exists id1, (snd af), (firstn (Z.to_nat n) (free_map st)).
      split; [reflexivity|].
      split; [unfold id1; cbn [blocks with_map]; lia|]. split; [repeat split|].
      split; [exact Hg1|]. split; [exact Hok1|].
      rewrite Hlen1. unfold sectors_needed.
      rewrite !index_count_le_12 by lia. lia.
    + (* the other tiers follow *)
      replace (Z.min n (12 - blocks id)) with (12 - blocks id) in * by lia.
      assert (Hpool : free_map st
                = firstn (Z.to_nat (12 - blocks id)) (free_map st) ++ free_map (snd af))
        by apply Hg1.
      destruct (grow_indirect_tier_spec stk len id1 (n - (12 - blocks id)) (snd af))
        as (id' & st' & u2 & E & Hb' & Hh' & Hg' & Hok' & Hlen');
        [exact Hstk | exact Hok1 | unfold id1; cbn [blocks with_map]; lia | lia
        | unfold id1; cbn [blocks with_map]; lia | |].
      { unfold id1. cbn [blocks with_map].
        replace (Z.min n (12 - blocks id)) with (12 - blocks id) by lia.
        pose proof (sectors_needed_split (blocks id) n (n - (12 - blocks id))) as Hsp.
        replace (n - (n - (12 - blocks id))) with (12 - blocks id) in Hsp by lia.
        assert (sectors_needed (blocks id) (12 - blocks id) = 12 - blocks id).
        { unfold sectors_needed. rewrite !index_count_le_12 by lia. lia. }
        rewrite Hpool, length_app in Hneed. lia. }
      rewrite E.
      exists id', st', (firstn (Z.to_nat (12 - blocks id)) (free_map st) ++ u2).
      split; [reflexivity|].
      split; [rewrite Hb'; unfold id1; cbn [blocks with_map]; lia|].
      split; [eapply same_header_trans; [|exact Hh']; repeat split|].
      split; [exact (vgrows_trans _ _ _ _ _ Hok1 Hg1 Hg')|]. split; [exact Hok'|].
      rewrite length_app, Nat2Z.inj_add, Hlen1, Hlen'.
      unfold id1. cbn [blocks with_map].
      replace (Z.min n (12 - blocks id)) with (12 - blocks id) by lia.
      pose proof (sectors_needed_split (blocks id) n (n - (12 - blocks id))) as Hsp.
      replace (n - (n - (12 - blocks id))) with (12 - blocks id) in Hsp by lia.
      assert (sectors_needed (blocks id) (12 - blocks id) = 12 - blocks id).
      { unfold sectors_needed. rewrite !index_count_le_12 by lia. lia. }
      lia.
  - (* no direct block is free *)
    replace (Z.max 0 (Z.min n (12 - blocks id))) with 0 by lia.
    replace (Z.to_nat (Z.min n (12 - blocks id))) with O by lia.
    cbn [alloc_fill fst snd andb]. rewrite Z.add_0_r, Z.sub_0_r, with_map_same.
    apply grow_indirect_tier_spec; assumption.
Qed.

Lemma nodupb_sound l : nodupb l = true -> NoDup l.
Proof.
  induction l as [|x t IH]; cbn [nodupb]; intros H; [constructor|].
  apply andb_true_iff in H. destruct H as [H1 H2].
  constructor; [|apply IH; exact H2].
  intros Hin. apply existsb_eqb_in in Hin. rewrite Hin in H1. discriminate.
Qed.

Lemma sector_numberb_sound l : forallb sector_numberb l = true -> Forall sector_number l.
Proof.
  intros H. apply Forall_forall. intros x Hx.
  rewrite forallb_forall in H. specialize (H x Hx).
  unfold sector_numberb in H. apply andb_true_iff in H. unfold sector_number. lia.
Qed.

(** A record without blocks is well formed on any storage whose free
    sectors are distinct sector numbers. *)
Lemma wf_inode_empty id st :
  List.length (direct id) = 14%nat -> blocks id = 0 ->
  nodupb (free_map st) = true -> forallb sector_numberb (free_map st) = true ->
  wf_inode id st.
Proof.
  intros Hd Hb Hn Hr. unfold wf_inode. rewrite Hb.
  split; [exact Hd|]. split; [lia|]. split; [|apply sector_numberb_sound; exact Hr].
  unfold all_sectors, index_sectors. rewrite zrange_nil by lia.
  cbn. apply nodupb_sound. exact Hn.
Qed.

(** C2, as amended: on a well-formed record ([wf_inode]: fourteen block
    pointers, a block count within the capacity of the block map, the
    sectors of the block map and the free sectors pairwise distinct), for a
    target length that needs [n >= 1] sectors more than the current length
    and keeps the block count within the 16524 blocks of the map, and with
    a free map that holds the sectors asked for, [inode_grow] returns the
    target length after taking from the head of the free map [n] data
    sectors and the index sectors that come into use with them
    ([index_count] after, less [index_count] before: the single-indirect
    sector with block 12, the double-indirect sector with block 140, a
    second-level sector with every 128th block from 140 on).  The block
    count grows by [n]; the [length] field stays; the blocks below the old
    count resolve as before; the blocks from the old count on resolve,
    tier by tier, to sectors taken now, each of which holds zeros; every
    sector taken is a data sector or an index sector of the new map; the
    device is changed only at sectors taken and at index sectors; and the
    record is well formed again. *)
Theorem inode_grow_allocates (stk : grow_stack) (id : inode_disk) (len : Z)
    (st : storage) :
  let b := blocks id in
  let n := u32 (bytes_to_sectors len - bytes_to_sectors (length id)) in
  stack_ok stk -> wf_inode id st ->
  1 <= n -> b + n <= DOUBLY_BLOCKS ->
  sectors_needed b n <= Z.of_nat (List.length (free_map st)) ->
  (0 <= length id <= len -> len <= 8460288 ->
   n = (len + 511) / 512 - (length id + 511) / 512)
  /\ exists id' st' used,
      inode_grow stk id len st = Ok (len, id', st')
      /\ blocks id' = b + n /\ length id' = length id
      /\ free_map st = used ++ free_map st'
      /\ Z.of_nat (List.length used) = n + (index_count (b + n) - index_count b)
      /\ (forall k, 0 <= k < b -> block_at id' st' k = block_at id st k)
      /\ (forall k, b <= k < b + n ->
          In (block_at id' st' k) used /\ disk st' (block_at id' st' k) = zeros)
      /\ Permutation (all_sectors id' st' (b + n)) (all_sectors id st b ++ used)
      /\ (forall s, In s (index_sectors id' st' (b + n)) ->
          In s (index_sectors id st b) \/ In s used)
      /\ (forall s, ~ In s used -> ~ In s (index_sectors id st b) ->
          disk st' s = disk st s)
      /\ wf_inode id' st'.
Proof.
  cbv zeta. unfold DOUBLY_BLOCKS. intros Hstk Hwf Hn Hcap Hneed.
  split.
  { intros Hl Hc. rewrite !bytes_to_sectors_nonneg by lia.
    apply u32_small.
    assert ((length id + 511) / 512 <= (len + 511) / 512)
      by (apply Z.div_le_mono; lia).
    assert ((len + 511) / 512 <= 16525) by (apply Z.div_le_upper_bound; lia).
    assert (0 <= (length id + 511) / 512) by (apply Z.div_pos; lia).
    lia. }
  destruct (inode_grow_spec stk id len st Hstk Hwf Hn Hcap Hneed)
    as (id' & st' & used & E & Hb & Hh & Hg & Hok & Hlen).
  destruct Hg as (G1 & G2 & G3 & G4 & G5 & G6 & G7).
  exists id', st', used.
  split; [exact E|]. split; [exact Hb|]. split; [apply Hh|].
  split; [exact G3|]. split; [exact Hlen|].
  split; [exact G2|].
  split. { intros k Hk. rewrite !block_at_view.
           destruct (G5 k) as [Hz Hin]; [cbn [view_of v_n]; lia|]. split; assumption. }
  split. { rewrite <- Hb. rewrite !all_sectors_view. exact G4. }
  split. { rewrite <- Hb. rewrite !index_sectors_view. exact G7. }
  split. { rewrite index_sectors_view. exact G6. }
  apply wf_inode_view_of. exact Hok.
Qed.

Lemma inode_grow_allocates_witness :
  exists id' st' used,
    inode_grow sample_stack (empty_inode_disk false) 7680 (blank_storage (zrange 100 120))
    = Ok (7680, id', st')
    /\ blocks id' = 15
    /\ free_map (blank_storage (zrange 100 120)) = used ++ free_map st'
    /\ Z.of_nat (List.length used) = 16
    /\ wf_inode id' st'.
Proof.
  destruct (inode_grow_allocates sample_stack (empty_inode_disk false) 7680
              (blank_storage (zrange 100 120)))
    as (_ & id' & st' & used & E & Hb & _ & Hp & Hl & _ & _ & _ & _ & _ & Hwf).
  - repeat split.
  - apply wf_inode_empty; vm_compute; reflexivity.
  - vm_compute. discriminate.
  - vm_compute. discriminate.
  - vm_compute. discriminate.
  - exists id', st', used. split; [exact E|]. split; [exact Hb|]. split; [exact Hp|].
    split; [exact Hl | exact Hwf].
Defined.

(** C2, the claim as stated: a record that growth has filled to the 16524
    blocks of the map, asked to grow by one byte into a further sector.
    [inode_grow] returns the target length, allocates nothing and leaves
    the block count. *)
Lemma inode_grow_past_capacity :
  match inode_grow sample_stack (empty_inode_disk false) 8460288
                   (blank_storage (zrange 100 17000)) with
  | Ok (l, id, st) =>
    blocks id = 16524
    /\ u32 (bytes_to_sectors 8460289 - bytes_to_sectors (length (set_length id l))) = 1
    /\ match inode_grow sample_stack (set_length id l) 8460289 st with
       | Ok (l', id', st') =>
         l' = 8460289 /\ blocks id' = 16524 /\ free_map st' = free_map st
       | _ => False
       end
  | _ => False
  end.
Proof. vm_compute. repeat split. Qed.

(** ** Lists as memory *)

Lemma nth_map_zrange {B} (f : Z -> B) a b j d :
  (j < Z.to_nat (b - a))%nat -> nth j (map f (zrange a b)) d = f (a + Z.of_nat j).
Proof.
  intros Hj. unfold zrange. rewrite map_map.
  rewrite (nth_indep _ d (f (a + Z.of_nat 0))) by (rewrite length_map, length_seq; exact Hj).
  rewrite (map_nth (fun k => f (a + Z.of_nat k)) (seq 0 (Z.to_nat (b - a))) 0%nat j).
  rewrite seq_nth by exact Hj. reflexivity.
Qed.

Lemma list_eq_map_zrange {B} (l : list B) (f : Z -> B) a d :
  (forall t, 0 <= t < Z.of_nat (List.length l) -> f (a + t) = zget l t d) ->
  map f (zrange a (a + Z.of_nat (List.length l))) = l.
Proof.
  intros H. apply (nth_ext _ _ d d).
  - rewrite length_map, length_zrange. lia.
  - intros j Hj. rewrite length_map, length_zrange in Hj.
    rewrite nth_map_zrange by exact Hj. rewrite H by lia.
    unfold zget. destruct (Z.ltb_spec (Z.of_nat j) 0); [lia|].
    rewrite Nat2Z.id. reflexivity.
Qed.

Lemma zget_firstn_skipn {B} (l : list B) ofs chunk t d :
  0 <= ofs -> 0 <= t < chunk ->
  zget (firstn (Z.to_nat chunk) (skipn (Z.to_nat ofs) l)) t d = zget l (ofs + t) d.
Proof.
  intros Ho Ht. unfold zget.
  destruct (Z.ltb_spec t 0); [lia|]. destruct (Z.ltb_spec (ofs + t) 0); [lia|].
  rewrite nth_firstn. destruct (Nat.ltb_spec (Z.to_nat t) (Z.to_nat chunk)); [|lia].
  rewrite nth_skipn. f_equal. lia.
Qed.

Lemma length_firstn_skipn {B} (l : list B) ofs chunk :
  0 <= ofs -> 0 <= chunk -> ofs + chunk <= Z.of_nat (List.length l) ->
  List.length (firstn (Z.to_nat chunk) (skipn (Z.to_nat ofs) l)) = Z.to_nat chunk.
Proof. intros. rewrite length_firstn, length_skipn. lia. Qed.

Lemma length_memcpy dst pos src n :
  0 <= pos -> 0 <= n -> pos + n <= Z.of_nat (List.length dst) ->
  n <= Z.of_nat (List.length src) ->
  List.length (memcpy dst pos src n) = List.length dst.
Proof.
  intros. unfold memcpy. rewrite !length_app, !length_firstn, length_skipn. lia.
Qed.

Lemma zget_memcpy dst pos src n j :
  0 <= pos -> 0 <= n -> pos + n <= Z.of_nat (List.length dst) ->
  n <= Z.of_nat (List.length src) -> 0 <= j ->
  zget (memcpy dst pos src n) j x00
  = if (pos <=? j) && (j <? pos + n) then zget src (j - pos) x00 else zget dst j x00.
Proof.
  intros Hp Hn Hd Hs Hj. unfold memcpy, zget.
  destruct (Z.ltb_spec j 0); [lia|].
  destruct (Z.leb_spec pos j); cbn [andb].
  - rewrite app_nth2 by (rewrite length_firstn; lia).
    rewrite length_firstn.
    replace (Init.Nat.min (Z.to_nat pos) (List.length dst)) with (Z.to_nat pos) by lia.
    destruct (Z.ltb_spec j (pos + n)).
    + destruct (Z.ltb_spec (j - pos) 0); [lia|].
      rewrite app_nth1 by (rewrite length_firstn; lia).
      rewrite nth_firstn.
      destruct (Nat.ltb_spec (Z.to_nat j - Z.to_nat pos) (Z.to_nat n)); [|lia].
      f_equal. lia.
    + rewrite app_nth2 by (rewrite length_firstn; lia).
      rewrite length_firstn, nth_skipn. f_equal. lia.
  - rewrite app_nth1 by (rewrite length_firstn; lia).
    rewrite nth_firstn.
    destruct (Nat.ltb_spec (Z.to_nat j) (Z.to_nat pos)); [reflexivity | lia].
Qed.

Lemma firstn_memcpy dst pos src n :
  0 <= pos -> 0 <= n -> pos + n <= Z.of_nat (List.length dst) ->
  n <= Z.of_nat (List.length src) ->
  firstn (Z.to_nat (pos + n)) (memcpy dst pos src n)
  = firstn (Z.to_nat pos) dst ++ firstn (Z.to_nat n) src.
Proof.
  intros Hp Hn Hd Hs. unfold memcpy. rewrite app_assoc.
  rewrite firstn_app.
  rewrite length_app, !length_firstn.
  replace (Z.to_nat (pos + n) - _)%nat with O by lia.
  cbn [firstn]. rewrite app_nil_r.
  apply firstn_all2. rewrite length_app, !length_firstn. lia.
Qed.

Lemma skipn_memcpy dst pos src n m :
  0 <= pos -> 0 <= n -> pos + n <= Z.of_nat (List.length dst) ->
  n <= Z.of_nat (List.length src) -> pos + n <= m ->
  skipn (Z.to_nat m) (memcpy dst pos src n) = skipn (Z.to_nat m) dst.
Proof.
  intros Hp Hn Hd Hs Hm. unfold memcpy. rewrite app_assoc.
  rewrite skipn_app.
  rewrite skipn_all2 by (rewrite length_app, !length_firstn; lia).
  cbn [app]. rewrite length_app, !length_firstn.
  rewrite skipn_skipn. f_equal. lia.
Qed.

(** ** Data writes leave the block map alone *)

Lemma index_sectors_cache_write id st s buf n :
  ~ In s (index_sectors id st n) ->
  index_sectors id (cache_write s buf st) n = index_sectors id st n.
Proof.
  unfold index_sectors. intros H. f_equal.
  destruct (140 <? n); [|reflexivity].
  f_equal. apply map_ext. intros j. unfold outer_at.
  rewrite read_index_cache_write_other; [reflexivity|].
  intros E. apply H. apply in_or_app. right. apply in_or_app. right.
  left. exact E.
Qed.

Lemma block_at_cache_write id st s buf k :
  0 <= k < blocks id -> ~ In s (index_sectors id st (blocks id)) ->
  block_at id (cache_write s buf st) k = block_at id st k.
Proof.
  intros Hk H. unfold block_at, index_sectors in *.
  destruct (Z.ltb_spec k 12); [reflexivity|].
  destruct (Z.ltb_spec 12 (blocks id)); [|lia].
  assert (H12 : zget (direct id) 12 0 <> s).
  { intros E. apply H. left. exact E. }
  destruct (Z.ltb_spec k 140).
  - rewrite read_index_cache_write_other by exact H12. reflexivity.
  - destruct (Z.ltb_spec 140 (blocks id)); [|lia].
    assert (H13 : zget (direct id) 13 0 <> s).
    { intros E. apply H. cbn [app In]. right. apply in_or_app. right. left. exact E. }
    rewrite (read_index_cache_write_other (zget (direct id) 13 0)) by exact H13.
    rewrite read_index_cache_write_other; [reflexivity|].
    intros E. apply H. cbn [app In]. right. apply in_or_app. left.
    apply in_map_iff. exists ((k - 140) / 128). split; [exact E|].
    apply in_zrange. unfold outer_count. lia.
Qed.

Lemma all_sectors_cache_write id st s buf :
  ~ In s (index_sectors id st (blocks id)) ->
  all_sectors id (cache_write s buf st) (blocks id) = all_sectors id st (blocks id).
Proof.
  intros H. unfold all_sectors.
  rewrite index_sectors_cache_write by exact H. f_equal.
  apply map_ext_zrange. intros k Hk. apply block_at_cache_write; assumption.
Qed.

Lemma block_at_inj id st k k' :
  NoDup (all_sectors id st (blocks id)) ->
  0 <= k < blocks id -> 0 <= k' < blocks id ->
  block_at id st k = block_at id st k' -> k = k'.
Proof.
  intros H Hk Hk' E. unfold all_sectors in H. apply NoDup_app_l in H.
  exact (NoDup_map_zrange_inj _ _ _ k k' H Hk Hk' E).
Qed.

Lemma block_at_not_index id st k :
  NoDup (all_sectors id st (blocks id)) -> 0 <= k < blocks id ->
  ~ In (block_at id st k) (index_sectors id st (blocks id)).
Proof.
  intros H Hk Hin. unfold all_sectors in H.
  apply (NoDup_app_disjoint _ _ (block_at id st k) H); [|exact Hin].
  apply in_map. apply in_zrange. exact Hk.
Qed.

Lemma zget_skipn {B} (l : list B) ofs t d :
  0 <= ofs -> 0 <= t -> zget (skipn (Z.to_nat ofs) l) t d = zget l (ofs + t) d.
Proof.
  intros Ho Ht. unfold zget.
  destruct (Z.ltb_spec t 0); [lia|]. destruct (Z.ltb_spec (ofs + t) 0); [lia|].
  rewrite nth_skipn. f_equal. lia.
Qed.

(** One sector of the file rewritten. *)
Lemma write_sector_file id st k content :
  NoDup (all_sectors id st (blocks id)) -> data_sized id st ->
  0 <= k < blocks id -> (512 <= List.length content)%nat ->
  let st1 := cache_write (block_at id st k) content st in
  (forall k', 0 <= k' < blocks id -> block_at id st1 k' = block_at id st k')
  /\ all_sectors id st1 (blocks id) = all_sectors id st (blocks id)
  /\ data_sized id st1
  /\ free_map st1 = free_map st
  /\ (forall p, 0 <= p < 512 * blocks id ->
      file_byte id st1 p
      = if p / 512 =? k then zget content (p mod 512) x00 else file_byte id st p).
Proof.
  intros Hnd Hsz Hk Hlen st1.
  assert (Hni := block_at_not_index id st k Hnd Hk).
  assert (Hb : forall k', 0 <= k' < blocks id -> block_at id st1 k' = block_at id st k').
  { intros k' Hk'. apply block_at_cache_write; assumption. }
  split; [exact Hb|].
  split; [apply all_sectors_cache_write; exact Hni|].
  split.
  { intros k' Hk'. rewrite (Hb k' Hk'). unfold st1, cache_write. cbn [disk].
    destruct (Z.eqb_spec (block_at id st k') (block_at id st k)).
    - rewrite length_firstn. lia.
    - apply Hsz. exact Hk'. }
  split; [reflexivity|].
  intros p Hp. unfold file_byte. rewrite Hb by lia.
  unfold st1, cache_write. cbn [disk].
  destruct (Z.eqb_spec (p / 512) k) as [E|E].
  - subst k. rewrite Z.eqb_refl.
    unfold zget. destruct (Z.ltb_spec (p mod 512) 0); [reflexivity|].
    rewrite nth_firstn.
    destruct (Nat.ltb_spec (Z.to_nat (p mod 512)) 512); [reflexivity | lia].
  - destruct (Z.eqb_spec (block_at id st (p / 512)) (block_at id st k)) as [E'|E'];
      [|reflexivity].
    exfalso. apply E. apply (block_at_inj id st _ _ Hnd); [lia | exact Hk | exact E'].
Qed.

(** ** The transfer loops *)

Lemma chunk_size_min size left ofs :
  0 < size <= left -> 0 <= ofs < 512 ->
  (if size <? (if left <? 512 - ofs then left else 512 - ofs)
   then size else (if left <? 512 - ofs then left else 512 - ofs))
  = Z.min size (512 - ofs).
Proof.
  intros Hs Ho.
  destruct (Z.ltb_spec left (512 - ofs));
    match goal with |- (if ?a <? ?b then _ else _) = _ => destruct (Z.ltb_spec a b) end;
    lia.
Qed.

Lemma write_loop_run i buf :
  0 <= length (data i) <= 512 * blocks (data i) -> blocks (data i) <= 16524 ->
  forall fuel size offset bw bounce st,
    0 <= size -> 0 <= offset -> offset + size <= length (data i) ->
    0 <= bw -> bw + size <= Z.of_nat (List.length buf) -> bw + size < 2147483648 ->
    size < Z.of_nat fuel ->
    NoDup (all_sectors (data i) st (blocks (data i))) -> data_sized (data i) st ->
    exists st',
      write_loop fuel true i buf size offset bw bounce st = Ok (bw + size, st')
      /\ (forall k, 0 <= k < blocks (data i) ->
          block_at (data i) st' k = block_at (data i) st k)
      /\ all_sectors (data i) st' (blocks (data i))
         = all_sectors (data i) st (blocks (data i))
      /\ data_sized (data i) st'
      /\ free_map st' = free_map st
      /\ (forall p, offset <= p < offset + size ->
          file_byte (data i) st' p = zget buf (bw + (p - offset)) x00)
      /\ (forall p, 0 <= p < 512 * blocks (data i) ->
          p < offset \/ offset + size <= p ->
          file_byte (data i) st' p = file_byte (data i) st p).
Proof.
  intros HL HB. induction fuel as [|fuel IH];
    intros size offset bw bounce st Hs Ho Hend Hbw Hbuf H31 Hfuel Hnd Hsz; [lia|].
  cbn [write_loop].
  destruct (Z.ltb_spec 0 size) as [Hpos|Hzero].
  2:{ exists st. replace (bw + size) with bw by lia.
      split; [reflexivity|]. split; [reflexivity|]. split; [reflexivity|].
      split; [exact Hsz|]. split; [reflexivity|]. split; [intros; lia | reflexivity]. }
  rewrite byte_to_sector_block_at by lia.
  unfold BLOCK_SECTOR_SIZE, inode_length.
  rewrite Z.rem_mod_nonneg by lia.
  rewrite (s32_small (length (data i) - offset)) by lia.
  rewrite chunk_size_min by lia.
  set (ofs := offset mod 512). set (c := Z.min size (512 - ofs)).
  set (k := offset / 512).
  assert (Hofs : 0 <= ofs < 512) by (unfold ofs; lia).
  assert (Hc : 1 <= c <= 512 - ofs /\ c <= size) by (unfold c; lia).
  assert (Hk : 0 <= k < blocks (data i)) by (unfold k; lia).
  rewrite (s32_small (size - c)), (s32_small (offset + c)), (s32_small (bw + c)) by lia.
  destruct (Z.leb_spec c 0); [lia|].
  assert (Hstep : forall content bounce',
             (512 <= List.length content)%nat ->
             (forall j, 0 <= j < 512 ->
                zget content j x00
                = if (ofs <=? j) && (j <? ofs + c) then zget buf (bw + (j - ofs)) x00
                  else zget (disk st (block_at (data i) st k)) j x00) ->
             exists st',
               write_loop fuel true i buf (size - c) (offset + c) (bw + c) bounce'
                 (cache_write (block_at (data i) st k) content st) = Ok (bw + size, st')
               /\ (forall k, 0 <= k < blocks (data i) ->
                   block_at (data i) st' k = block_at (data i) st k)
               /\ all_sectors (data i) st' (blocks (data i))
                  = all_sectors (data i) st (blocks (data i))
               /\ data_sized (data i) st'
               /\ free_map st' = free_map st
               /\ (forall p, offset <= p < offset + size ->
                   file_byte (data i) st' p = zget buf (bw + (p - offset)) x00)
               /\ (forall p, 0 <= p < 512 * blocks (data i) ->
                   p < offset \/ offset + size <= p ->
                   file_byte (data i) st' p = file_byte (data i) st p)).
  { intros content bounce' Hlen Hcontent.
    destruct (write_sector_file (data i) st k content Hnd Hsz Hk Hlen)
      as (Hb1 & Hall1 & Hsz1 & Hfm1 & Hfb1).
    set (st1 := cache_write (block_at (data i) st k) content st) in *.
    destruct (IH (size - c) (offset + c) (bw + c) bounce' st1)
      as (st' & E & Hb' & Hall' & Hsz' & Hfm' & Hin' & Hout');
      [ lia | lia | lia | lia | lia | lia | lia | rewrite Hall1; exact Hnd | exact Hsz1 | ].
    exists st'.
    split; [rewrite E; do 2 f_equal; lia|].
    split; [intros k' Hk'; rewrite Hb', Hb1 by exact Hk'; reflexivity|].
    split; [rewrite Hall', Hall1; reflexivity|].
    split; [exact Hsz'|].
    split; [rewrite Hfm', Hfm1; reflexivity|].
    split.
    - intros p Hp. destruct (Z.lt_ge_cases p (offset + c)) as [Hlt|Hge].
      + rewrite Hout' by lia. rewrite Hfb1 by lia.
        replace (p / 512) with k by (unfold k, ofs in *; lia).
        rewrite Z.eqb_refl. rewrite Hcontent by lia.
        replace (p mod 512) with (ofs + (p - offset)) by (unfold k, ofs in *; lia).
        destruct (Z.leb_spec ofs (ofs + (p - offset))); [|lia].
        destruct (Z.ltb_spec (ofs + (p - offset)) (ofs + c)); [|lia].
        cbn [andb]. f_equal. lia.
      + rewrite Hin' by lia. f_equal. lia.
    - intros p Hp Hout. rewrite Hout' by lia. rewrite Hfb1 by lia.
      destruct (Z.eqb_spec (p / 512) k) as [Ek|Ek]; [|reflexivity].
      rewrite Hcontent by lia.
      assert (Hcond : (ofs <=? p mod 512) && (p mod 512 <? ofs + c) = false).
      { destruct (Z.leb_spec ofs (p mod 512)); [|reflexivity].
        destruct (Z.ltb_spec (p mod 512) (ofs + c)); [|reflexivity].
        exfalso. unfold k, ofs in *. lia. }
      rewrite Hcond. unfold file_byte. rewrite Ek. reflexivity. }
  destruct ((ofs =? 0) && (c =? 512)) eqn:EA.
  - apply andb_true_iff in EA. destruct EA as [E0 E512].
    apply Z.eqb_eq in E0. apply Z.eqb_eq in E512.
    apply Hstep.
    + rewrite length_skipn. lia.
    + intros j Hj. rewrite zget_skipn by lia.
      destruct (Z.leb_spec ofs j); [|lia].
      destruct (Z.ltb_spec j (ofs + c)); [|lia].
      cbn [andb]. f_equal. lia.
  - rewrite Bool.orb_true_r.
    assert (Hread : (0 <? ofs) || (c <? 512 - ofs) = true).
    { destruct (Z.ltb_spec 0 ofs); [reflexivity|].
      destruct (Z.ltb_spec c (512 - ofs)); [reflexivity|].
      exfalso. apply andb_false_iff in EA.
      destruct EA as [EA|EA]; apply Z.eqb_neq in EA; lia. }
    rewrite Hread. unfold cache_read.
    assert (Hsec := Hsz k Hk).
    apply Hstep.
    + rewrite length_memcpy; rewrite ?length_skipn; lia.
    + intros j Hj. rewrite zget_memcpy by (rewrite ?length_skipn; lia).
      destruct ((ofs <=? j) && (j <? ofs + c)) eqn:Ein; [|reflexivity].
      apply andb_true_iff in Ein. destruct Ein as [Ea Eb].
      apply Z.leb_le in Ea. apply Z.ltb_lt in Eb.
      rewrite zget_skipn by lia. reflexivity.
Qed.

Lemma read_loop_run i st :
  0 <= length (data i) <= 512 * blocks (data i) -> blocks (data i) <= 16524 ->
  data_sized (data i) st ->
  forall fuel size offset br bounce buffer,
    0 <= size -> 0 <= offset -> offset + size <= length (data i) ->
    0 <= br -> br + size <= Z.of_nat (List.length buffer) -> br + size < 2147483648 ->
    size < Z.of_nat fuel ->
    read_loop fuel true i buffer size offset br bounce st
    = Ok (br + size,
          firstn (Z.to_nat br) buffer
          ++ map (file_byte (data i) st) (zrange offset (offset + size))
          ++ skipn (Z.to_nat (br + size)) buffer).
Proof.
  intros HL HB Hsz. induction fuel as [|fuel IH];
    intros size offset br bounce buffer Hs Ho Hend Hbr Hbuf H31 Hfuel; [lia|].
  cbn [read_loop].
  destruct (Z.ltb_spec 0 size) as [Hpos|Hzero].
  2:{ replace size with 0 by lia. rewrite !Z.add_0_r.
      unfold zrange. rewrite Z.sub_diag. cbn [Z.to_nat seq map app].
      rewrite firstn_skipn. reflexivity. }
  rewrite byte_to_sector_block_at by lia.
  unfold BLOCK_SECTOR_SIZE, inode_length.
  rewrite Z.rem_mod_nonneg by lia.
  rewrite (s32_small (length (data i) - offset)) by lia.
  rewrite chunk_size_min by lia.
  set (ofs := offset mod 512). set (c := Z.min size (512 - ofs)).
  set (k := offset / 512).
  assert (Hofs : 0 <= ofs < 512) by (unfold ofs; lia).
  assert (Hc : 1 <= c <= 512 - ofs /\ c <= size) by (unfold c; lia).
  assert (Hk : 0 <= k < blocks (data i)) by (unfold k; lia).
  rewrite (s32_small (size - c)), (s32_small (offset + c)), (s32_small (br + c)) by lia.
  destruct (Z.leb_spec c 0); [lia|].
  assert (Hsec := Hsz k Hk).
  assert (Hstep : forall src bounce',
             c <= Z.of_nat (List.length src) ->
             (forall t, 0 <= t < c ->
                zget src t x00 = zget (disk st (block_at (data i) st k)) (ofs + t) x00) ->
             read_loop fuel true i (memcpy buffer br src c) (size - c) (offset + c)
               (br + c) bounce' st
             = Ok (br + size,
                   firstn (Z.to_nat br) buffer
                   ++ map (file_byte (data i) st) (zrange offset (offset + size))
                   ++ skipn (Z.to_nat (br + size)) buffer)).
  { intros src bounce' Hlen Hsrc.
    rewrite IH; [ | lia | lia | lia | lia | rewrite length_memcpy; lia | lia | lia ].
    rewrite firstn_memcpy by lia.
    replace (br + c + (size - c)) with (br + size) by lia.
    replace (offset + c + (size - c)) with (offset + size) by lia.
    rewrite skipn_memcpy by lia.
    rewrite (zrange_app offset (offset + c) (offset + size)) by lia.
    match goal with
    | |- Ok (_, ?a) = Ok (_, ?b) => enough (Hlist : a = b) by (rewrite Hlist; reflexivity)
    end.
    rewrite map_app, <- !app_assoc. f_equal. f_equal.
    assert (Hl : List.length (firstn (Z.to_nat c) src) = Z.to_nat c)
      by (rewrite length_firstn; lia).
    replace c with (Z.of_nat (List.length (firstn (Z.to_nat c) src))) at 2 by lia.
    symmetry. apply (list_eq_map_zrange _ _ _ x00).
    intros t Ht. rewrite Hl in Ht.
    unfold zget at 1. destruct (Z.ltb_spec t 0); [lia|].
    rewrite nth_firstn.
    destruct (Nat.ltb_spec (Z.to_nat t) (Z.to_nat c)); [|lia].
    generalize (Hsrc t ltac:(lia)). unfold zget at 1.
    destruct (Z.ltb_spec t 0); [lia|]. intros ->.
    unfold file_byte.
    replace ((offset + t) / 512) with k by (unfold k, ofs in *; lia).
    replace ((offset + t) mod 512) with (ofs + t) by (unfold k, ofs in *; lia).
    reflexivity. }
  destruct ((ofs =? 0) && (c =? 512)) eqn:EA.
  - apply andb_true_iff in EA. destruct EA as [E0 E512].
    apply Z.eqb_eq in E0. apply Z.eqb_eq in E512.
    unfold cache_read. rewrite <- E512 at 1. apply Hstep.
    + lia.
    + intros t Ht. rewrite E0. reflexivity.
  - rewrite Bool.orb_true_r. unfold cache_read. apply Hstep.
    + rewrite length_skipn. lia.
    + intros t Ht. apply zget_skipn; lia.
Qed.

(** ** Writing, then reading back *)

Lemma in_index_all_sectors id st n s :
  In s (index_sectors id st n) -> In s (all_sectors id st n).
Proof. intros H. unfold all_sectors. apply in_or_app. right. exact H. Qed.

(** The record with its new length persisted to its own sector. *)
Lemma header_write id st s len :
  wf_inode id st -> data_sized id st ->
  ~ In s (all_sectors id st (blocks id) ++ free_map st) ->
  let id1 := set_length id len in
  let st1 := cache_write s (encode_inode id1) st in
  wf_inode id1 st1 /\ data_sized id1 st1
  /\ ~ In s (all_sectors id1 st1 (blocks id1) ++ free_map st1)
  /\ (forall p, 0 <= p < 512 * blocks id -> file_byte id1 st1 p = file_byte id st p).
Proof.
  intros (Hd & Hb & Hnd & Hfree) Hsz Hs id1 st1.
  assert (Hni : ~ In s (index_sectors id st (blocks id))).
  { intros H. apply Hs. apply in_or_app. left. apply in_index_all_sectors. exact H. }
  assert (Hall : all_sectors id1 st1 (blocks id1) = all_sectors id st (blocks id)).
  { exact (all_sectors_cache_write id st s _ Hni). }
  assert (Hblk : forall k, 0 <= k < blocks id -> block_at id1 st1 k = block_at id st k).
  { intros k Hk. exact (block_at_cache_write id st s _ k Hk Hni). }
  assert (Hdisk : forall k, 0 <= k < blocks id ->
            disk st1 (block_at id st k) = disk st (block_at id st k)).
  { intros k Hk. unfold st1, cache_write. cbn [disk].
    destruct (Z.eqb_spec (block_at id st k) s) as [E|E]; [|reflexivity].
    exfalso. apply Hs. apply in_or_app. left. unfold all_sectors.
    apply in_or_app. left. rewrite <- E. apply in_map. apply in_zrange. exact Hk. }
  split; [|split; [|split]].
  - split; [exact Hd|]. split; [exact Hb|]. split; [|exact Hfree].
    rewrite Hall. exact Hnd.
  - intros k Hk. rewrite (Hblk k Hk), (Hdisk k Hk). apply Hsz. exact Hk.
  - rewrite Hall. exact Hs.
  - intros p Hp. unfold file_byte. rewrite Hblk, Hdisk by lia. reflexivity.
Qed.

Lemma length_zeros : List.length zeros = 512%nat.
Proof. apply repeat_length. Qed.

(** What growth leaves for the transfer loop of a write. *)
Lemma grow_for_write stk id len st s :
  stack_ok stk -> wf_inode id st -> data_sized id st ->
  0 <= length id -> length id < len <= 8460288 ->
  blocks id = bytes_to_sectors (length id) ->
  ~ In s (all_sectors id st (blocks id) ++ free_map st) ->
  sectors_needed (blocks id) (bytes_to_sectors len - blocks id)
    <= Z.of_nat (List.length (free_map st)) ->
  exists id' st',
    inode_grow stk id len st = Ok (len, id', st')
    /\ wf_inode id' st' /\ data_sized id' st'
    /\ blocks id' = bytes_to_sectors len
    /\ ~ In s (all_sectors id' st' (blocks id') ++ free_map st')
    /\ (forall p, 0 <= p < 512 * blocks id -> file_byte id' st' p = file_byte id st p).
Proof.
  intros Hstk Hwf Hsz HL Hlen Hblocks Hs Hneed.
  assert (HbL : bytes_to_sectors (length id) = (length id + 511) / 512)
    by (apply bytes_to_sectors_nonneg; lia).
  assert (HbT : bytes_to_sectors len = (len + 511) / 512)
    by (apply bytes_to_sectors_nonneg; lia).
  destruct (Z.eq_dec (bytes_to_sectors len) (bytes_to_sectors (length id))) as [E|E].
  - exists id, st. split.
    { unfold inode_grow. rewrite E, Z.sub_diag. reflexivity. }
    split; [exact Hwf|]. split; [exact Hsz|]. split; [congruence|].
    split; [exact Hs | reflexivity].
  - assert (Hn : u32 (bytes_to_sectors len - bytes_to_sectors (length id))
                 = bytes_to_sectors len - blocks id).
    { rewrite Hblocks. apply u32_small. lia. }
    destruct (inode_grow_spec stk id len st Hstk Hwf)
      as (id' & st' & used & Eg & Hb' & _ & Hg & Hok' & _);
      [ rewrite Hn; lia | rewrite Hn; lia | rewrite Hn; exact Hneed | ].
    rewrite Hn in Hb'.
    assert (Hok := vok_view_of id st Hwf).
    destruct (vok_facts _ Hok) as (_ & Hfree_all & Hblk_idx & _).
    destruct Hg as (Hv1 & Hv2 & Hv3 & Hv4 & Hv5 & Hv6 & Hv7).
    cbn [view_of v_st v_n] in Hv1, Hv2, Hv3, Hv5, Hv6, Hfree_all, Hblk_idx.
    assert (Hused : forall x, In x used -> In x (free_map st)).
    { intros x Hx. rewrite Hv3. apply in_or_app. left. exact Hx. }
    assert (Hold : forall k, 0 <= k < blocks id ->
              block_at id' st' k = block_at id st k
              /\ disk st' (block_at id st k) = disk st (block_at id st k)).
    { intros k Hk. split.
      - rewrite !block_at_view. apply Hv2. exact Hk.
      - apply Hv6.
        + intros Hin. apply (Hfree_all _ (Hused _ Hin)).
          rewrite block_at_view. apply in_vall_block. exact Hk.
        + rewrite block_at_view. apply Hblk_idx. exact Hk. }
    exists id', st'. split; [exact Eg|].
    split; [apply wf_inode_view_of; exact Hok'|].
    split.
    { intros k Hk. destruct (Z.lt_ge_cases k (blocks id)) as [Hlt|Hge].
      - destruct (Hold k ltac:(lia)) as [-> ->]. apply Hsz. lia.
      - destruct (Hv5 k ltac:(lia)) as [Hz _].
        rewrite block_at_view. cbn [view_of v_st] in Hz. rewrite Hz.
        apply length_zeros. }
    split; [lia|].
    split.
    { intros Hin. apply in_app_or in Hin. destruct Hin as [Hin|Hin].
      - rewrite all_sectors_view in Hin.
        apply (Permutation_in _ Hv4) in Hin. apply in_app_or in Hin.
        destruct Hin as [Hin|Hin].
        + apply Hs. apply in_or_app. left. rewrite all_sectors_view. exact Hin.
        + apply Hs. apply in_or_app. right. apply Hused. exact Hin.
      - apply Hs. apply in_or_app. right. rewrite Hv3.
        apply in_or_app. right. exact Hin. }
    intros p Hp. unfold file_byte.
    destruct (Hold (p / 512) ltac:(lia)) as [-> ->]. reflexivity.
Qed.

(** The transfer loop of a write that needs no growth, and the read that
    follows it. *)
Lemma transfer_round_trip i buffer_ buf size offset st :
  inode_ok i st ->
  0 <= offset -> size = Z.of_nat (List.length buffer_) ->
  offset + size <= length (data i) -> size <= Z.of_nat (List.length buf) ->
  exists st',
    write_loop (Z.to_nat size + 1) true i buffer_ size offset 0 false st = Ok (size, st')
    /\ inode_read_at true i buf size offset st'
       = Ok (size, buffer_ ++ skipn (Z.to_nat size) buf)
    /\ inode_ok i st'
    /\ (forall p, 0 <= p < 512 * blocks (data i) ->
        p < offset \/ offset + size <= p ->
        file_byte (data i) st' p = file_byte (data i) st p).
Proof.
  intros (Hwf & Hsz & HL & Hblocks & Hs) Ho Hsize Hend Hbuf.
  assert (Hb : blocks (data i) = (length (data i) + 511) / 512).
  { rewrite Hblocks. apply bytes_to_sectors_nonneg. lia. }
  destruct Hwf as (Hd & Hbr & Hnd & Hfree).
  assert (HL' : 0 <= length (data i) <= 512 * blocks (data i)) by lia.
  assert (HB : blocks (data i) <= 16524) by lia.
  destruct (write_loop_run i buffer_ HL' HB (Z.to_nat size + 1) size offset 0 false st)
    as (st' & Ew & Hblk & Hall & Hsz' & Hfm & Hin & Hout);
    [ lia | lia | lia | lia | lia | lia | lia | exact (NoDup_app_l _ _ Hnd) | exact Hsz | ].
  exists st'. cbn [Z.add] in Ew.
  split; [exact Ew|].
  split.
  { unfold inode_read_at.
    rewrite (read_loop_run i st' HL' HB Hsz') by lia.
    cbn [Z.add Z.to_nat firstn app]. do 2 f_equal.
    rewrite Hsize at 1.
    rewrite (list_eq_map_zrange buffer_ _ offset x00); [reflexivity|].
    intros t Ht. rewrite Hin by lia. f_equal. lia. }
  split.
  { split.
    - split; [exact Hd|]. split; [exact Hbr|]. split; [|rewrite Hfm; exact Hfree].
      rewrite Hall, Hfm. exact Hnd.
    - split; [exact Hsz'|]. split; [exact HL|]. split; [exact Hblocks|].
      rewrite Hall, Hfm. exact Hs. }
  exact Hout.
Qed.

(** C1, as amended: writing [data] at [offset] through
    [inode_write_at] and reading the same range back through
    [inode_read_at] gives exactly [data], whatever sector and tier
    boundaries the range crosses, provided that writes are not denied on
    the inode, that the range ends within the 8460288 bytes which the
    block map can address, that the record is well formed on the device,
    that the free map holds the sectors which the growth takes, and that
    the bounce buffer can be allocated.  The inode stays well formed, its
    length becomes the larger of the old length and the end of the range,
    and the bytes of the file outside the range are the ones from before. *)
Theorem write_read_round_trip (stk : grow_stack) (i : inode) (buffer_ buf : list byte)
    (size offset : Z) (st : storage) :
  inode_ok i st -> deny_write_cnt i = 0 -> stack_ok stk ->
  0 <= offset -> size = Z.of_nat (List.length buffer_) ->
  offset + size <= 8460288 ->
  (length (data i) < offset + size ->
   sectors_needed (blocks (data i))
                  (bytes_to_sectors (offset + size) - blocks (data i))
   <= Z.of_nat (List.length (free_map st))) ->
  size <= Z.of_nat (List.length buf) ->
  exists i' st',
    inode_write_at stk true i buffer_ size offset st = Ok (size, i', st')
    /\ inode_read_at true i' buf size offset st'
       = Ok (size, buffer_ ++ skipn (Z.to_nat size) buf)
    /\ inode_ok i' st'
    /\ length (data i') = Z.max (length (data i)) (offset + size)
    /\ (forall p, 0 <= p < length (data i) ->
        p < offset \/ offset + size <= p ->
        file_byte (data i') st' p = file_byte (data i) st p).
Proof.
  intros Hok Hdeny Hstk Ho Hsize Hend Hneed Hbuf.
  assert (Hok0 := Hok).
  destruct Hok as (Hwf & Hsz & HL & Hblocks & Hs).
  assert (Hb : blocks (data i) = (length (data i) + 511) / 512).
  { rewrite Hblocks. apply bytes_to_sectors_nonneg. lia. }
  unfold inode_write_at. rewrite Hdeny. cbn [Z.eqb negb].
  unfold inode_length. rewrite (s32_small (offset + size)) by lia.
  destruct (Z.ltb_spec (length (data i)) (offset + size)) as [Hlt|Hge].
  - destruct (grow_for_write stk (data i) (offset + size) st (sector i)
                Hstk Hwf Hsz ltac:(lia) ltac:(lia) Hblocks Hs (Hneed Hlt))
      as (id' & stg & Eg & Hwf' & Hsz' & Hb' & Hs' & Hfr').
    rewrite Eg. cbn [bind].
    destruct (header_write id' stg (sector i) (offset + size) Hwf' Hsz' Hs')
      as (Hwf1 & Hsz1 & Hs1 & Hfr1).
    set (i1 := set_data i (set_length id' (offset + size))) in *.
    set (st1 := cache_write (sector i1) (encode_inode (data i1)) stg) in *.
    assert (Hok1 : inode_ok i1 st1).
    { split; [exact Hwf1|]. split; [exact Hsz1|].
      split; [cbn; lia|]. split; [exact Hb' | exact Hs1]. }
    destruct (transfer_round_trip i1 buffer_ buf size offset st1 Hok1 Ho Hsize)
      as (st' & Ew & Er & Hok' & Hfr); [cbn; lia | exact Hbuf |].
    rewrite Ew. cbn [bind].
    exists i1, st'. split; [reflexivity|]. split; [exact Er|].
    split; [exact Hok'|]. split; [cbn; lia|].
    intros p Hp Hout.
    assert (Hp' : 0 <= p < 512 * blocks (data i)) by lia.
    assert (Hbb : bytes_to_sectors (offset + size) = (offset + size + 511) / 512)
      by (apply bytes_to_sectors_nonneg; lia).
    rewrite Hfr; [ | cbn [i1 data set_data set_length blocks]; lia | exact Hout ].
    change (data i1) with (set_length id' (offset + size)).
    rewrite Hfr1 by lia. apply Hfr'. exact Hp'.
  - cbn [bind].
    destruct (transfer_round_trip i buffer_ buf size offset st Hok0 Ho Hsize)
      as (st' & Ew & Er & Hok' & Hfr); [lia | exact Hbuf |].
    rewrite Ew. cbn [bind].
    exists i, st'. split; [reflexivity|]. split; [exact Er|].
    split; [exact Hok'|]. split; [lia|].
    intros p Hp Hout. apply Hfr; [lia | exact Hout].
Qed.

(** An instance: eight bytes written across the boundary between the data
    blocks 139 and 140 of an empty file, where the single-indirect tier
    ends and the double-indirect tier begins. *)
Lemma write_read_round_trip_witness :
  exists i' st',
    inode_write_at sample_stack true (sample_inode 1 (empty_inode_disk false))
      [x01; x02; x03; x04; x05; x06; x07; x08] 8 71676 (blank_storage (zrange 100 300))
    = Ok (8, i', st')
    /\ inode_read_at true i' (repeat x00 8) 8 71676 st'
       = Ok (8, [x01; x02; x03; x04; x05; x06; x07; x08])
    /\ length (data i') = 71684.
Proof.
  destruct (write_read_round_trip sample_stack (sample_inode 1 (empty_inode_disk false))
              [x01; x02; x03; x04; x05; x06; x07; x08] (repeat x00 8) 8 71676
              (blank_storage (zrange 100 300)))
    as (i' & st' & Ew & Er & _ & Hlen & _).
  - split; [apply wf_inode_empty; vm_compute; reflexivity|].
    split; [intros k Hk; cbn in Hk; lia|].
    split; [cbn; lia|].
    split; [vm_compute; reflexivity|].
    vm_compute. intuition discriminate.
  - reflexivity.
  - repeat split.
  - lia.
  - reflexivity.
  - lia.
  - intros _. vm_compute. discriminate.
  - vm_compute. discriminate.
  - exists i', st'. split; [exact Ew|]. split; [exact Er | exact Hlen].
Defined.

(** The same by evaluation, for a range across the boundary between the
    data blocks 11 and 12, where the direct tier ends. *)
Example round_trip_across_the_direct_tier :
  match inode_write_at sample_stack true (sample_inode 1 (empty_inode_disk false))
          [x01; x02; x03; x04; x05; x06] 6 6141 (blank_storage (zrange 100 120)) with
  | Ok (n, i', st') =>
    n = 6 /\ blocks (data i') = 13 /\ length (data i') = 6147
    /\ inode_read_at true i' (repeat x00 6) 6 6141 st'
       = Ok (6, [x01; x02; x03; x04; x05; x06])
  | _ => False
  end.
Proof. vm_compute. repeat split. Qed.

(** C1, the claim as stated: an inode opened once, on which
    [inode_deny_write] has been called.  [inode_write_at] writes nothing
    and returns 0; the read of the same range finds an empty file, returns
    0 and leaves the caller's buffer as it was. *)
Lemma write_denied_no_round_trip :
  match inode_deny_write (sample_inode 1 (empty_inode_disk false)) with
  | Ok i =>
    match inode_write_at sample_stack true i [x01; x02; x03] 3 0
            (blank_storage (zrange 100 120)) with
    | Ok (n, i', st') =>
      n = 0 /\ free_map st' = zrange 100 120
      /\ inode_read_at true i' [x00; x00; x00] 3 0 st' = Ok (0, [x00; x00; x00])
    | _ => False
    end
  | _ => False
  end.
Proof. vm_compute. repeat split. Qed.

(** Without free sectors the write does not notice it either: both blocks
    of a two-sector write land on the value that the failed allocations
    left in the block map, the second over the first, and the read returns
    the second sector twice. *)
Example round_trip_on_exhausted_free_map :
  match inode_write_at sample_stack true (sample_inode 1 (empty_inode_disk false))
          (repeat x01 512 ++ repeat x02 512) 1024 0 (blank_storage []) with
  | Ok (n, i', st') =>
    n = 1024
    /\ firstn 2 (direct (data i')) = [SECTOR_NONE; SECTOR_NONE]
    /\ inode_read_at true i' (repeat x00 1024) 1024 0 st'
       = Ok (1024, repeat x02 512 ++ repeat x02 512)
  | _ => False
  end.
Proof. vm_compute. repeat split. Qed.

(** * Further properties of the module *)

(** ** The sector image of a record *)

Lemma encode_inode_words id :
  encode_inode id
  = encode_words (length id :: magic id
                  :: unused id ++ direct id ++ [blocks id; if is_dir id then 1 else 0]).
Proof.
  unfold encode_inode, encode_words. cbn [flat_map].
  rewrite !flat_map_app. cbn [flat_map]. rewrite app_nil_r.
  do 5 f_equal. destruct (is_dir id); reflexivity.
Qed.

Lemma map_u32_id ws : Forall sector_number ws -> map u32 ws = ws.
Proof.
  induction 1 as [|w ws Hw _ IH]; cbn [map]; [reflexivity|].
  rewrite IH, u32_small by exact Hw. reflexivity.
Qed.

Lemma s32_u32 x : -2147483648 <= x < 2147483648 -> s32 (u32 x) = x.
Proof. unfold s32, u32. intros H. lia. Qed.

Lemma length_encode_inode id :
  List.length (unused id) = 110%nat -> List.length (direct id) = 14%nat ->
  List.length (encode_inode id) = 512%nat.
Proof.
  intros HU HD. rewrite encode_inode_words, length_encode_words.
  cbn [List.length]. rewrite !length_app, HU, HD. reflexivity.
Qed.

Lemma decode_words_encode_inode id :
  List.length (unused id) = 110%nat -> List.length (direct id) = 14%nat ->
  decode_words 128 (encode_inode id)
  = map u32 (length id :: magic id
             :: unused id ++ direct id ++ [blocks id; if is_dir id then 1 else 0]).
Proof.
  intros HU HD. rewrite encode_inode_words.
  set (W := length id :: magic id
            :: unused id ++ direct id ++ [blocks id; if is_dir id then 1 else 0]).
  assert (HW : List.length W = 128%nat).
  { unfold W. cbn [List.length]. rewrite !length_app, HU, HD. reflexivity. }
  rewrite <- (app_nil_r (encode_words W)), <- HW.
  apply decode_encode_words.
Qed.

(** What [cache_read] delivers of a record that [cache_write] has stored. *)
Lemma decode_encode_inode id :
  record_ok id -> decode_inode (firstn 512 (encode_inode id)) = id.
Proof.
  intros (HL & HM & HU & HUr & HD & HDr & HB).
  rewrite firstn_all2 by (rewrite length_encode_inode by assumption; lia).
  unfold decode_inode. rewrite decode_words_encode_inode by assumption.
  cbn [map]. rewrite !map_app. cbn [map].
  rewrite (map_u32_id _ HUr), (map_u32_id _ HDr).
  assert (E0 : forall a l, zget (a :: l) 0 0 = a) by reflexivity.
  assert (E1 : forall a b l, zget (a :: b :: l) 1 0 = b) by reflexivity.
  rewrite E0, E1.
  assert (E126 : forall a b x y,
            zget (a :: b :: unused id ++ direct id ++ [x; y]) 126 0 = x).
  { intros a b x y. unfold zget.
    change (Z.to_nat 126) with (2 + 124)%nat. cbn [Z.ltb Z.compare Nat.add nth].
    rewrite app_nth2 by lia. rewrite HU.
    rewrite app_nth2 by (rewrite HD; cbn; lia). rewrite HD. reflexivity. }
  rewrite E126.
  rewrite s32_u32, (u32_small (magic id)), (u32_small (blocks id)) by lia.
  assert (EU : forall a b tl,
            firstn 110 (skipn 2 (a :: b :: unused id ++ direct id ++ tl)) = unused id).
  { intros a b tl. change (skipn 2 (a :: b :: ?l)) with l. rewrite firstn_app, HU, Nat.sub_diag, firstn_O, app_nil_r.
    apply firstn_all2. lia. }
  assert (ED : forall a b tl,
            firstn 14 (skipn 112 (a :: b :: unused id ++ direct id ++ tl)) = direct id).
  { intros a b tl.
    replace (skipn 112 (a :: b :: unused id ++ direct id ++ tl))
      with (skipn 110 (unused id ++ direct id ++ tl)) by reflexivity.
    rewrite skipn_app, HU, Nat.sub_diag, skipn_O.
    rewrite skipn_all2 by lia. rewrite app_nil_l.
    rewrite firstn_app, HD, Nat.sub_diag, firstn_O, app_nil_r.
    apply firstn_all2. lia. }
  rewrite EU, ED.
  assert (Edir : negb (Z_of_byte (nth 508 (encode_inode id) x00) =? 0) = is_dir id).
  { unfold encode_inode.
    rewrite app_nth2 by (cbn; lia). cbn [le32 List.length].
    rewrite app_nth2 by (cbn; lia). cbn [le32 List.length].
    rewrite app_nth2 by (rewrite length_encode_words, HU; cbn; lia).
    rewrite length_encode_words, HU.
    rewrite app_nth2 by (rewrite length_encode_words, HD; cbn; lia).
    rewrite length_encode_words, HD.
    rewrite app_nth2 by (cbn; lia). cbn [le32 List.length].
    destruct (is_dir id); reflexivity. }
  rewrite Edir.
  destruct id; reflexivity.
Qed.

Lemma s32_range x : -2147483648 <= s32 x < 2147483648.
Proof. unfold s32. lia. Qed.

Lemma Forall_firstn_skipn {A} (P : A -> Prop) n m (l : list A) :
  Forall P l -> Forall P (firstn n (skipn m l)).
Proof.
  intros H. apply Forall_forall. intros x Hx.
  apply in_firstn in Hx.
  rewrite <- (firstn_skipn m l) in H. apply Forall_app in H.
  destruct H as [_ H]. rewrite Forall_forall in H. apply H. exact Hx.
Qed.

Lemma Forall_decode_words n : forall bs, Forall sector_number (decode_words n bs).
Proof.
  induction n as [|n IH]; intros bs; cbn [decode_words]; constructor.
  - apply le_word_range.
  - apply IH.
Qed.

(** Whatever a sector holds, the record read from it has fields in range. *)
Lemma record_ok_decode bs : record_ok (decode_inode bs).
Proof.
  unfold record_ok, decode_inode. cbn [length magic unused direct blocks].
  split; [apply s32_range|].
  split; [apply decode_words_range|].
  split.
  { rewrite length_firstn, length_skipn, length_decode_words. reflexivity. }
  split; [apply Forall_firstn_skipn, Forall_decode_words|].
  split.
  { rewrite length_firstn, length_skipn, length_decode_words. reflexivity. }
  split; [apply Forall_firstn_skipn, Forall_decode_words|].
  apply decode_words_range.
Qed.

(** ** Growth keeps the pointers in range *)

Lemma Forall_set_nth {A} (P : A -> Prop) (l : list A) n v :
  Forall P l -> P v -> Forall P (set_nth l n v).
Proof.
  intros H Hv. revert n. induction H as [|a l Ha Hl IH]; intros [|n]; cbn [set_nth];
    constructor; auto.
Qed.

Lemma Forall_zset {A} (P : A -> Prop) (l : list A) i v :
  Forall P l -> P v -> Forall P (zset l i v).
Proof.
  intros H Hv. unfold zset. destruct (i <? 0); [exact H|].
  apply Forall_set_nth; assumption.
Qed.

Lemma free_map_allocate_range st ok s st' :
  free_map_allocate st = (ok, s, st') ->
  Forall sector_number (free_map st) ->
  sector_number s /\ Forall sector_number (free_map st').
Proof.
  unfold free_map_allocate. destruct (free_map st) as [|x pool] eqn:E; intros H HF;
    inversion H; subst; clear H.
  - split; [unfold sector_number, SECTOR_NONE; lia|]. rewrite E. constructor.
  - inversion HF; subst. split; assumption.
Qed.

Lemma grow_direct_O id n st : grow_direct 0 id n st = OutOfFuel.
Proof. reflexivity. Qed.
Lemma grow_indirect_O id buffer n st : grow_indirect 0 id buffer n st = OutOfFuel.
Proof. reflexivity. Qed.
Lemma grow_doubly_inner_O id buffer2 index2 n st :
  grow_doubly_inner 0 id buffer2 index2 n st = OutOfFuel.
Proof. reflexivity. Qed.
Lemma grow_doubly_O id buffer1 buffer2 index1 index2 n st :
  grow_doubly 0 id buffer1 buffer2 index1 index2 n st = OutOfFuel.
Proof. reflexivity. Qed.

Lemma grow_direct_pointers fuel : forall id n st r id' n' st',
  grow_direct fuel id n st = Ok (r, id', n', st') ->
  pointers_ok id st -> pointers_ok id' st'.
Proof.
  induction fuel as [|fuel IH]; intros id n st r id' n' st' E (Hl & Hd & Hf).
  - rewrite grow_direct_O in E. discriminate.
  - rewrite grow_direct_S in E.
    destruct (blocks id <? DIRECT_BLOCKS).
    + destruct (free_map_allocate st) as [[ok s] st1] eqn:Ea.
      destruct (free_map_allocate_range _ _ _ _ Ea Hf) as [Hs Hf1].
      cbv zeta in E.
      assert (Hp : pointers_ok
                (set_blocks (set_direct id (blocks id) s)
                            (u32 (blocks (set_direct id (blocks id) s) + 1)))
                (cache_write (zget (direct (set_direct id (blocks id) s)) (blocks id) 0)
                             zeros st1)).
      { split; [|split].
        - cbn [set_blocks set_direct direct]. rewrite length_zset. exact Hl.
        - cbn [set_blocks set_direct direct]. apply Forall_zset; assumption.
        - exact Hf1. }
      destruct (u32 (n - 1) =? 0).
      * inversion E; subst. exact Hp.
      * exact (IH _ _ _ _ _ _ _ E Hp).
    + inversion E; subst. split; [|split]; assumption.
Qed.

Lemma grow_indirect_pointers fuel : forall id buffer n st id' buffer' n' st',
  grow_indirect fuel id buffer n st = Ok (id', buffer', n', st') ->
  Forall sector_number (free_map st) ->
  direct id' = direct id /\ Forall sector_number (free_map st').
Proof.
  induction fuel as [|fuel IH]; intros id buffer n st id' buffer' n' st' E Hf.
  - rewrite grow_indirect_O in E. discriminate.
  - rewrite grow_indirect_S in E.
    destruct (blocks id <? INDIRECT_BLOCKS).
    + destruct (free_map_allocate st) as [[ok s] st1] eqn:Ea.
      destruct (free_map_allocate_range _ _ _ _ Ea Hf) as [Hs Hf1].
      cbv zeta in E.
      destruct (u32 (n - 1) =? 0).
      * inversion E; subst. split; [reflexivity | exact Hf1].
      * destruct (IH _ _ _ _ _ _ _ _ E Hf1) as [Hd' Hf']. split; [exact Hd' | exact Hf'].
    + inversion E; subst. split; [reflexivity | exact Hf].
Qed.

Lemma grow_doubly_inner_pointers fuel : forall id buffer2 index2 n st id' b2' i2' n' st',
  grow_doubly_inner fuel id buffer2 index2 n st = Ok (id', b2', i2', n', st') ->
  Forall sector_number (free_map st) ->
  direct id' = direct id /\ Forall sector_number (free_map st').
Proof.
  induction fuel as [|fuel IH]; intros id buffer2 index2 n st id' b2' i2' n' st' E Hf.
  - rewrite grow_doubly_inner_O in E. discriminate.
  - rewrite grow_doubly_inner_S in E.
    destruct (index2 <? INDIRECT_BLOCK_SIZE).
    + destruct (free_map_allocate st) as [[ok s] st1] eqn:Ea.
      destruct (free_map_allocate_range _ _ _ _ Ea Hf) as [Hs Hf1].
      cbv zeta in E.
      destruct (u32 (n - 1) =? 0).
      * inversion E; subst. split; [reflexivity | exact Hf1].
      * destruct (IH _ _ _ _ _ _ _ _ _ _ E Hf1) as [Hd' Hf']. split; [exact Hd' | exact Hf'].
    + inversion E; subst. split; [reflexivity | exact Hf].
Qed.

Lemma grow_doubly_pointers fuel : forall id buffer1 buffer2 index1 index2 n st id' b1' st',
  grow_doubly fuel id buffer1 buffer2 index1 index2 n st = Ok (id', b1', st') ->
  Forall sector_number (free_map st) ->
  direct id' = direct id /\ Forall sector_number (free_map st').
Proof.
  induction fuel as [|fuel IH];
    intros id buffer1 buffer2 index1 index2 n st id' b1' st' E Hf.
  - rewrite grow_doubly_O in E. discriminate.
  - rewrite grow_doubly_S in E.
    destruct (index1 <? INDIRECT_BLOCK_SIZE).
    + assert (Hpre : exists b1 b2 st1,
                (if index2 =? 0
                 then let '(_, s, st0) := free_map_allocate st in
                      (zset buffer1 index1 s, buffer2, st0)
                 else (buffer1, read_index (zget buffer1 index1 0) st, st))
                = (b1, b2, st1) /\ Forall sector_number (free_map st1)).
      { destruct (index2 =? 0).
        - destruct (free_map_allocate st) as [[ok s] st1] eqn:Ea.
          destruct (free_map_allocate_range _ _ _ _ Ea Hf) as [Hs Hf1].
          do 3 eexists. split; [reflexivity | exact Hf1].
        - do 3 eexists. split; [reflexivity | exact Hf]. }
      destruct Hpre as (b1 & b2 & st1 & Epre & Hf1). rewrite Epre in E.
      destruct (grow_doubly_inner 129 id b2 index2 n st1)
        as [[[[[id2 b2'] i2'] n2] st2]| |] eqn:Ei; cbn [bind] in E; try discriminate.
      destruct (grow_doubly_inner_pointers _ _ _ _ _ _ _ _ _ _ _ Ei Hf1) as [Hd2 Hf2].
      cbv zeta in E.
      destruct (n2 =? 0).
      * inversion E; subst. split; [exact Hd2 | exact Hf2].
      * destruct (IH _ _ _ _ _ _ _ _ _ _ E Hf2) as [Hd' Hf'].
        split; [congruence | exact Hf'].
    + inversion E; subst. split; [reflexivity | exact Hf].
Qed.

(** [inode_grow] stores in the block pointers only sector numbers: those the
    allocator delivers. *)
Lemma inode_grow_pointers stk id len st l id' st' :
  inode_grow stk id len st = Ok (l, id', st') ->
  pointers_ok id st -> pointers_ok id' st'.
Proof.
  unfold inode_grow. intros E Hp.
  destruct (u32 (bytes_to_sectors len - bytes_to_sectors (length id)) =? 0).
  { inversion E; subst. exact Hp. }
  destruct (grow_direct 13 id _ st) as [[[[r id1] n1] st1]| |] eqn:E1;
    cbn [bind] in E; try discriminate.
  assert (Hp1 := grow_direct_pointers _ _ _ _ _ _ _ _ E1 Hp).
  destruct r; [inversion E; subst; exact Hp1|].
  assert (Hpre : exists id2 buf st2,
            (if blocks id1 =? DIRECT_BLOCKS
             then let '(_, s, st0) := free_map_allocate st1 in
                  (set_direct id1 DIRECT_BLOCKS s, stack_buffer stk, st0)
             else (id1, read_index (zget (direct id1) DIRECT_BLOCKS 0) st1, st1))
            = (id2, buf, st2) /\ pointers_ok id2 st2).
  { destruct Hp1 as (Hl1 & Hd1 & Hf1). destruct (blocks id1 =? DIRECT_BLOCKS).
    - destruct (free_map_allocate st1) as [[ok s] st2] eqn:Ea.
      destruct (free_map_allocate_range _ _ _ _ Ea Hf1) as [Hs Hf2].
      do 3 eexists. split; [reflexivity|]. split; [|split].
      + cbn [set_direct direct]. rewrite length_zset. exact Hl1.
      + cbn [set_direct direct]. apply Forall_zset; assumption.
      + exact Hf2.
    - do 3 eexists. split; [reflexivity|]. split; [|split]; assumption. }
  destruct Hpre as (id2 & buf & st2 & Epre & Hl2 & Hd2 & Hf2). rewrite Epre in E.
  destruct (grow_indirect 129 id2 buf n1 st2) as [[[[id3 buf3] n3] st3]| |] eqn:E3;
    cbn [bind] in E; try discriminate.
  destruct (grow_indirect_pointers _ _ _ _ _ _ _ _ _ E3 Hf2) as [Hd3 Hf3].
  cbv zeta in E.
  destruct (n3 =? 0).
  { inversion E; subst. split; [|split].
    - rewrite Hd3. exact Hl2.
    - rewrite Hd3. exact Hd2.
    - exact Hf3. }
  set (st3' := cache_write (zget (direct id3) DIRECT_BLOCKS 0) (encode_words buf3) st3) in *.
  assert (Hpre : exists id4 b1 st4,
            (if blocks id3 =? INDIRECT_BLOCKS
             then let '(_, s, st0) := free_map_allocate st3' in
                  (set_direct id3 (DIRECT_BLOCKS + 1) s, stack_buffer1 stk, st0)
             else (id3, read_index (zget (direct id3) (DIRECT_BLOCKS + 1) 0) st3', st3'))
            = (id4, b1, st4) /\ pointers_ok id4 st4).
  { destruct (blocks id3 =? INDIRECT_BLOCKS).
    - destruct (free_map_allocate st3') as [[ok s] st4] eqn:Ea.
      destruct (free_map_allocate_range _ _ _ _ Ea Hf3) as [Hs Hf4].
      do 3 eexists. split; [reflexivity|]. split; [|split].
      + cbn [set_direct direct]. rewrite length_zset, Hd3. exact Hl2.
      + cbn [set_direct direct]. apply Forall_zset; [rewrite Hd3|]; assumption.
      + exact Hf4.
    - do 3 eexists. split; [reflexivity|]. split; [|split].
      + rewrite Hd3. exact Hl2.
      + rewrite Hd3. exact Hd2.
      + exact Hf3. }
  destruct Hpre as (id4 & b1 & st4 & Epre4 & Hl4 & Hd4 & Hf4). rewrite Epre4 in E.
  destruct (grow_doubly 129 id4 b1 _ _ _ n3 st4) as [[[id5 b5] st5]| |] eqn:E5;
    cbn [bind] in E; try discriminate.
  destruct (grow_doubly_pointers _ _ _ _ _ _ _ _ _ _ _ E5 Hf4) as [Hd5 Hf5].
  inversion E; subst. split; [|split].
  - rewrite Hd5. exact Hl4.
  - rewrite Hd5. exact Hd4.
  - exact Hf5.
Qed.

(** ** Reading up to the end of the file *)

Lemma chunk_size_eq size left ofs :
  (if size <? (if left <? 512 - ofs then left else 512 - ofs)
   then size else (if left <? 512 - ofs then left else 512 - ofs))
  = Z.min size (Z.min left (512 - ofs)).
Proof.
  destruct (Z.ltb_spec left (512 - ofs));
    match goal with |- (if ?a <? ?b then _ else _) = _ => destruct (Z.ltb_spec a b) end;
    lia.
Qed.

Lemma read_loop_eof i st :
  0 <= length (data i) <= 512 * blocks (data i) -> blocks (data i) <= 16524 ->
  data_sized (data i) st ->
  forall fuel size offset br bounce buffer,
    0 <= size -> 0 <= offset -> offset + size < 2147483648 ->
    0 <= br -> br + size <= Z.of_nat (List.length buffer) -> br + size < 2147483648 ->
    size < Z.of_nat fuel ->
    read_loop fuel true i buffer size offset br bounce st
    = Ok (br + Z.max 0 (Z.min size (length (data i) - offset)),
          firstn (Z.to_nat br) buffer
          ++ map (file_byte (data i) st)
                 (zrange offset
                         (offset + Z.max 0 (Z.min size (length (data i) - offset))))
          ++ skipn (Z.to_nat (br + Z.max 0 (Z.min size (length (data i) - offset))))
                   buffer).
Proof.
  intros HL HB Hsz. induction fuel as [|fuel IH];
    intros size offset br bounce buffer Hs Ho Hend Hbr Hbuf H31 Hfuel; [lia|].
  cbn [read_loop].
  assert (Hnone : forall m, m = 0 ->
            Ok (br, buffer)
            = Ok (br + m,
                  firstn (Z.to_nat br) buffer
                  ++ map (file_byte (data i) st) (zrange offset (offset + m))
                  ++ skipn (Z.to_nat (br + m)) buffer)).
  { intros m ->. rewrite !Z.add_0_r.
    unfold zrange. rewrite Z.sub_diag. cbn [Z.to_nat seq map app].
    rewrite firstn_skipn. reflexivity. }
  destruct (Z.ltb_spec 0 size) as [Hpos|Hzero]; [|apply Hnone; lia].
  unfold BLOCK_SECTOR_SIZE, inode_length.
  rewrite Z.rem_mod_nonneg by lia.
  rewrite (s32_small (length (data i) - offset)) by lia.
  rewrite chunk_size_eq.
  set (ofs := offset mod 512).
  set (c := Z.min size (Z.min (length (data i) - offset) (512 - ofs))).
  set (k := offset / 512).
  assert (Hofs : 0 <= ofs < 512) by (unfold ofs; lia).
  destruct (Z.leb_spec c 0) as [Hc0|Hc0]; [apply Hnone; unfold c in Hc0; lia|].
  assert (Hc : 1 <= c <= 512 - ofs /\ c <= size /\ c <= length (data i) - offset)
    by (unfold c in *; lia).
  rewrite byte_to_sector_block_at by lia. fold k.
  assert (Hk : 0 <= k < blocks (data i)) by (unfold k; lia).
  rewrite (s32_small (size - c)), (s32_small (offset + c)), (s32_small (br + c)) by lia.
  assert (Hsec := Hsz k Hk).
  set (m := Z.max 0 (Z.min size (length (data i) - offset))).
  assert (Hm : c <= m <= size
               /\ Z.max 0 (Z.min (size - c) (length (data i) - (offset + c))) = m - c)
    by (unfold m; lia).
  assert (Hstep : forall src bounce',
             c <= Z.of_nat (List.length src) ->
             (forall t, 0 <= t < c ->
                zget src t x00 = zget (disk st (block_at (data i) st k)) (ofs + t) x00) ->
             read_loop fuel true i (memcpy buffer br src c) (size - c) (offset + c)
               (br + c) bounce' st
             = Ok (br + m,
                   firstn (Z.to_nat br) buffer
                   ++ map (file_byte (data i) st) (zrange offset (offset + m))
                   ++ skipn (Z.to_nat (br + m)) buffer)).
  { intros src bounce' Hlen Hsrc.
    rewrite IH; [ | lia | lia | lia | lia | rewrite length_memcpy; lia | lia | lia ].
    destruct Hm as [Hm1 Hm2]. rewrite Hm2.
    rewrite firstn_memcpy by lia.
    replace (br + c + (m - c)) with (br + m) by lia.
    replace (offset + c + (m - c)) with (offset + m) by lia.
    rewrite skipn_memcpy by lia.
    match goal with
    | |- Ok (_, ?a) = Ok (_, ?b) => enough (Hlist : a = b) by (rewrite Hlist; reflexivity)
    end.
    rewrite (zrange_app offset (offset + c) (offset + m)) by lia.
    rewrite map_app, <- !app_assoc. f_equal. f_equal.
    assert (Hl : List.length (firstn (Z.to_nat c) src) = Z.to_nat c)
      by (rewrite length_firstn; lia).
    replace c with (Z.of_nat (List.length (firstn (Z.to_nat c) src))) at 2 by lia.
    symmetry. apply (list_eq_map_zrange _ _ _ x00).
    intros t Ht. rewrite Hl in Ht.
    unfold zget at 1. destruct (Z.ltb_spec t 0); [lia|].
    rewrite nth_firstn.
    destruct (Nat.ltb_spec (Z.to_nat t) (Z.to_nat c)); [|lia].
    generalize (Hsrc t ltac:(lia)). unfold zget at 1.
    destruct (Z.ltb_spec t 0); [lia|]. intros ->.
    unfold file_byte.
    replace ((offset + t) / 512) with k by (unfold k, ofs in *; lia).
    replace ((offset + t) mod 512) with (ofs + t) by (unfold k, ofs in *; lia).
    reflexivity. }
  destruct ((ofs =? 0) && (c =? 512)) eqn:EA.
  - apply andb_true_iff in EA. destruct EA as [E0 E512].
    apply Z.eqb_eq in E0. apply Z.eqb_eq in E512.
    unfold cache_read. rewrite <- E512 at 1. apply Hstep.
    + lia.
    + intros t Ht. rewrite E0. reflexivity.
  - rewrite Bool.orb_true_r. unfold cache_read. apply Hstep.
    + rewrite length_skipn. lia.
    + intros t Ht. apply zget_skipn; lia.
Qed.

Lemma zget_map_zrange {B} (f : Z -> B) a b t d :
  0 <= t < b - a -> zget (map f (zrange a b)) t d = f (a + t).
Proof.
  intros Ht. unfold zget. destruct (Z.ltb_spec t 0); [lia|].
  rewrite nth_map_zrange by lia. f_equal. lia.
Qed.

Lemma length_file_contents i st :
  List.length (file_contents i st) = Z.to_nat (length (data i)).
Proof. unfold file_contents. rewrite length_map, length_zrange. f_equal. lia. Qed.

Lemma zget_file_contents i st p :
  0 <= p < length (data i) -> zget (file_contents i st) p x00 = file_byte (data i) st p.
Proof. intros Hp. unfold file_contents. rewrite zget_map_zrange by lia. reflexivity. Qed.

(** A slice of the file as a slice of its byte string. *)
Lemma file_slice i st offset size :
  0 <= offset -> 0 <= size ->
  let got := firstn (Z.to_nat size) (skipn (Z.to_nat offset) (file_contents i st)) in
  Z.of_nat (List.length got) = Z.max 0 (Z.min size (length (data i) - offset))
  /\ map (file_byte (data i) st) (zrange offset (offset + Z.of_nat (List.length got))) = got.
Proof.
  intros Ho Hs got.
  assert (Hlen : Z.of_nat (List.length got)
                 = Z.max 0 (Z.min size (length (data i) - offset))).
  { unfold got. rewrite length_firstn, length_skipn, length_file_contents. lia. }
  split; [exact Hlen|].
  apply (list_eq_map_zrange _ _ _ x00).
  intros t Ht. unfold got.
  rewrite zget_firstn_skipn by lia.
  rewrite zget_file_contents by lia. reflexivity.
Qed.

Lemma inode_read_at_slice i buf size offset st :
  inode_ok i st ->
  0 <= offset -> 0 <= size -> offset + size < 2147483648 ->
  size <= Z.of_nat (List.length buf) ->
  let got := firstn (Z.to_nat size) (skipn (Z.to_nat offset) (file_contents i st)) in
  inode_read_at true i buf size offset st
  = Ok (Z.of_nat (List.length got), got ++ skipn (List.length got) buf).
Proof.
  intros (Hwf & Hsz & HL & Hblocks & Hs) Ho Hsize Hend Hbuf got.
  assert (Hb : blocks (data i) = (length (data i) + 511) / 512).
  { rewrite Hblocks. apply bytes_to_sectors_nonneg. lia. }
  destruct Hwf as (Hd & Hbr & Hnd & Hfree).
  destruct (file_slice i st offset size Ho Hsize) as [Hlen Hmap]. fold got in Hlen, Hmap.
  unfold inode_read_at.
  rewrite (read_loop_eof i st) by (try assumption; lia).
  rewrite <- Hlen. rewrite Hmap.
  cbn [Z.add Z.to_nat firstn app]. rewrite Nat2Z.id. reflexivity.
Qed.

(** ** What a write leaves on the device *)

Lemma zget_zeros j : zget zeros j x00 = x00.
Proof.
  unfold zget. destruct (j <? 0); [reflexivity|].
  unfold zeros. destruct (Nat.lt_ge_cases (Z.to_nat j) 512) as [H|H].
  - apply nth_repeat_lt. exact H.
  - apply nth_overflow. rewrite repeat_length. exact H.
Qed.

(** The growth step of a write and all that the later steps rely on. *)
Lemma grow_for_write_full stk id len st s :
  stack_ok stk -> wf_inode id st -> data_sized id st ->
  0 <= length id -> length id < len <= 8460288 ->
  blocks id = bytes_to_sectors (length id) ->
  ~ In s (all_sectors id st (blocks id) ++ free_map st) ->
  sectors_needed (blocks id) (bytes_to_sectors len - blocks id)
    <= Z.of_nat (List.length (free_map st)) ->
  exists id' st',
    inode_grow stk id len st = Ok (len, id', st')
    /\ wf_inode id' st' /\ data_sized id' st'
    /\ blocks id' = bytes_to_sectors len
    /\ ~ In s (all_sectors id' st' (blocks id') ++ free_map st')
    /\ same_header id id'
    /\ (forall p, 0 <= p < 512 * blocks id -> file_byte id' st' p = file_byte id st p)
    /\ (forall p, 512 * blocks id <= p < 512 * blocks id' -> file_byte id' st' p = x00)
    /\ Permutation (all_sectors id' st' (blocks id') ++ free_map st')
                   (all_sectors id st (blocks id) ++ free_map st)
    /\ (exists used, free_map st = used ++ free_map st'
                     /\ Z.of_nat (List.length used)
                        = sectors_needed (blocks id) (bytes_to_sectors len - blocks id))
    /\ (forall x, ~ In x (all_sectors id st (blocks id) ++ free_map st) ->
        disk st' x = disk st x).
Proof.
  intros Hstk Hwf Hsz HL Hlen Hblocks Hs Hneed.
  assert (HbL : bytes_to_sectors (length id) = (length id + 511) / 512)
    by (apply bytes_to_sectors_nonneg; lia).
  assert (HbT : bytes_to_sectors len = (len + 511) / 512)
    by (apply bytes_to_sectors_nonneg; lia).
  destruct (Z.eq_dec (bytes_to_sectors len) (bytes_to_sectors (length id))) as [E|E].
  - exists id, st. split.
    { unfold inode_grow. rewrite E, Z.sub_diag. reflexivity. }
    split; [exact Hwf|]. split; [exact Hsz|]. split; [congruence|].
    split; [exact Hs|]. split; [apply same_header_refl|].
    split; [reflexivity|]. split; [intros p Hp; lia|].
    split; [apply Permutation_refl|].
    split; [|reflexivity].
    exists []. split; [reflexivity|].
    rewrite E, <- Hblocks, Z.sub_diag. unfold sectors_needed.
    rewrite Z.add_0_r. cbn [List.length]. lia.
  - assert (Hn : u32 (bytes_to_sectors len - bytes_to_sectors (length id))
                 = bytes_to_sectors len - blocks id).
    { rewrite Hblocks. apply u32_small. lia. }
    destruct (inode_grow_spec stk id len st Hstk Hwf)
      as (id' & st' & used & Eg & Hb' & Hh & Hg & Hok' & Hused_len);
      [ rewrite Hn; lia | rewrite Hn; lia | rewrite Hn; exact Hneed | ].
    rewrite Hn in Hb'. rewrite Hn in Hused_len.
    assert (Hok := vok_view_of id st Hwf).
    destruct (vok_facts _ Hok) as (_ & Hfree_all & Hblk_idx & _).
    destruct Hg as (Hv1 & Hv2 & Hv3 & Hv4 & Hv5 & Hv6 & Hv7).
    cbn [view_of v_st v_n] in Hv1, Hv2, Hv3, Hv5, Hv6, Hfree_all, Hblk_idx.
    assert (Hused : forall x, In x used -> In x (free_map st)).
    { intros x Hx. rewrite Hv3. apply in_or_app. left. exact Hx. }
    assert (Hold : forall k, 0 <= k < blocks id ->
              block_at id' st' k = block_at id st k
              /\ disk st' (block_at id st k) = disk st (block_at id st k)).
    { intros k Hk. split.
      - rewrite !block_at_view. apply Hv2. exact Hk.
      - apply Hv6.
        + intros Hin. apply (Hfree_all _ (Hused _ Hin)).
          rewrite block_at_view. apply in_vall_block. exact Hk.
        + rewrite block_at_view. apply Hblk_idx. exact Hk. }
    exists id', st'. split; [exact Eg|].
    split; [apply wf_inode_view_of; exact Hok'|].
    split.
    { intros k Hk. destruct (Z.lt_ge_cases k (blocks id)) as [Hlt|Hge].
      - destruct (Hold k ltac:(lia)) as [-> ->]. apply Hsz. lia.
      - destruct (Hv5 k ltac:(lia)) as [Hz _].
        rewrite block_at_view. cbn [view_of v_st] in Hz. rewrite Hz.
        apply length_zeros. }
    split; [lia|].
    split.
    { intros Hin. apply in_app_or in Hin. destruct Hin as [Hin|Hin].
      - rewrite all_sectors_view in Hin.
        apply (Permutation_in _ Hv4) in Hin. apply in_app_or in Hin.
        destruct Hin as [Hin|Hin].
        + apply Hs. apply in_or_app. left. rewrite all_sectors_view. exact Hin.
        + apply Hs. apply in_or_app. right. apply Hused. exact Hin.
      - apply Hs. apply in_or_app. right. rewrite Hv3.
        apply in_or_app. right. exact Hin. }
    split; [exact Hh|].
    split.
    { intros p Hp. unfold file_byte.
      destruct (Hold (p / 512) ltac:(lia)) as [-> ->]. reflexivity. }
    split.
    { intros p Hp. unfold file_byte.
      destruct (Hv5 (p / 512) ltac:(lia)) as [Hz _].
      rewrite block_at_view. cbn [view_of v_st] in Hz. rewrite Hz.
      apply zget_zeros. }
    split.
    { rewrite !all_sectors_view. rewrite Hv3.
      rewrite (app_assoc (vall (view_of id st)) used).
      apply Permutation_app_tail. exact Hv4. }
    split; [exists used; split; [exact Hv3 | exact Hused_len]|].
    intros x Hx. apply Hv6.
    + intros Hin. apply Hx. apply in_or_app. right. apply Hused. exact Hin.
    + intros Hin. apply Hx. apply in_or_app. left.
      rewrite all_sectors_view. apply in_vall_index. exact Hin.
Qed.

Lemma header_write_full id st s len :
  wf_inode id st -> data_sized id st ->
  ~ In s (all_sectors id st (blocks id) ++ free_map st) ->
  let id1 := set_length id len in
  let st1 := cache_write s (encode_inode id1) st in
  all_sectors id1 st1 (blocks id1) = all_sectors id st (blocks id)
  /\ free_map st1 = free_map st
  /\ (forall x, x <> s -> disk st1 x = disk st x)
  /\ disk st1 s = firstn 512 (encode_inode id1).
Proof.
  intros (Hd & Hb & Hnd & Hfree) Hsz Hs id1 st1.
  assert (Hni : ~ In s (index_sectors id st (blocks id))).
  { intros H. apply Hs. apply in_or_app. left. apply in_index_all_sectors. exact H. }
  split; [exact (all_sectors_cache_write id st s _ Hni)|].
  split; [reflexivity|].
  split.
  - intros x Hx. unfold st1, cache_write. cbn [disk].
    destruct (Z.eqb_spec x s); [contradiction | reflexivity].
  - unfold st1, cache_write. cbn [disk]. rewrite Z.eqb_refl. reflexivity.
Qed.

(** The first half of [inode_write_at]: the file grown to the end of the
    range, its record stored. *)
Lemma write_growth stk i size offset st :
  inode_ok i st -> stack_ok stk ->
  0 <= offset -> 0 <= size -> offset + size <= 8460288 ->
  (length (data i) < offset + size ->
   sectors_needed (blocks (data i))
                  (bytes_to_sectors (offset + size) - blocks (data i))
   <= Z.of_nat (List.length (free_map st))) ->
  exists i1 st1,
    (if inode_length i <? s32 (offset + size) then
       '(len, id, st0) <- inode_grow stk (data i) (s32 (offset + size)) st ;;
       Ok (set_data i (set_length id len),
           cache_write (sector (set_data i (set_length id len)))
                       (encode_inode (data (set_data i (set_length id len)))) st0)
     else Ok (i, st)) = Ok (i1, st1)
    /\ inode_ok i1 st1
    /\ i1 = set_data i (data i1)
    /\ length (data i1) = Z.max (length (data i)) (offset + size)
    /\ same_header (data i) (set_length (data i1) (length (data i)))
    /\ blocks (data i) <= blocks (data i1)
    /\ (forall p, 0 <= p < 512 * blocks (data i) ->
        file_byte (data i1) st1 p = file_byte (data i) st p)
    /\ (forall p, 512 * blocks (data i) <= p < 512 * blocks (data i1) ->
        file_byte (data i1) st1 p = x00)
    /\ Permutation (all_sectors (data i1) st1 (blocks (data i1)) ++ free_map st1)
                   (all_sectors (data i) st (blocks (data i)) ++ free_map st)
    /\ (pointers_ok (data i) st -> pointers_ok (data i1) st1)
    /\ (length (data i) < offset + size ->
        disk st1 (sector i) = firstn 512 (encode_inode (data i1)))
    /\ (forall x, x <> sector i ->
        ~ In x (all_sectors (data i) st (blocks (data i)) ++ free_map st) ->
        disk st1 x = disk st x).
Proof.
  intros Hok Hstk Ho Hsize Hend Hneed.
  assert (Hok0 := Hok).
  destruct Hok as (Hwf & Hsz & HL & Hblocks & Hs).
  unfold inode_length. rewrite (s32_small (offset + size)) by lia.
  destruct (Z.ltb_spec (length (data i)) (offset + size)) as [Hlt|Hge].
  - destruct (grow_for_write_full stk (data i) (offset + size) st (sector i)
                Hstk Hwf Hsz ltac:(lia) ltac:(lia) Hblocks Hs (Hneed Hlt))
      as (id' & stg & Eg & Hwf' & Hsz' & Hb' & Hs' & Hh' & Hfr' & Hz' & Hperm' & _ & Hdg).
    rewrite Eg. cbn [bind].
    destruct (header_write id' stg (sector i) (offset + size) Hwf' Hsz' Hs')
      as (Hwf1 & Hsz1 & Hs1 & Hfr1).
    destruct (header_write_full id' stg (sector i) (offset + size) Hwf' Hsz' Hs')
      as (Hall1 & Hfm1 & Hdo1 & Hdisk1).
    set (i1 := set_data i (set_length id' (offset + size))) in *.
    set (st1 := cache_write (sector i1) (encode_inode (data i1)) stg) in *.
    assert (HbL : blocks (data i) = (length (data i) + 511) / 512).
    { rewrite Hblocks. apply bytes_to_sectors_nonneg. lia. }
    assert (HbT : bytes_to_sectors (offset + size) = (offset + size + 511) / 512)
      by (apply bytes_to_sectors_nonneg; lia).
    exists i1, st1. split; [reflexivity|].
    split.
    { split; [exact Hwf1|]. split; [exact Hsz1|].
      split; [cbn; lia|]. split; [exact Hb' | exact Hs1]. }
    split; [reflexivity|].
    split; [cbn; lia|].
    split.
    { destruct Hh' as (H1 & H2 & H3 & H4). repeat split; assumption. }
    split; [cbn [i1 data set_data set_length blocks]; lia|].
    split.
    { intros p Hp. change (data i1) with (set_length id' (offset + size)).
      rewrite Hfr1 by (cbn [i1 data set_data set_length blocks] in *; lia).
      apply Hfr'. exact Hp. }
    split.
    { intros p Hp. change (data i1) with (set_length id' (offset + size)).
      cbn [i1 data set_data set_length blocks] in Hp.
      rewrite Hfr1 by lia. apply Hz'. lia. }
    split.
    { assert (Hall1' : all_sectors (data i1) st1 (blocks (data i1))
                       = all_sectors id' stg (blocks id')) by exact Hall1.
      assert (Hfm1' : free_map st1 = free_map stg) by exact Hfm1.
      rewrite Hall1', Hfm1'. exact Hperm'. }
    split.
    { intros Hp.
      assert (Hp' := inode_grow_pointers _ _ _ _ _ _ _ Eg Hp).
      exact Hp'. }
    split; [intros _; exact Hdisk1|].
    intros x Hx Hnin.
    transitivity (disk stg x); [exact (Hdo1 x Hx) | exact (Hdg x Hnin)].
  - exists i, st. split; [reflexivity|].
    split; [exact Hok0|].
    split; [destruct i; reflexivity|].
    split; [lia|].
    split.
    { unfold same_header. cbn [set_length length magic unused is_dir]. repeat split. }
    split; [lia|].
    split; [reflexivity|].
    split; [intros p Hp; lia|].
    split; [apply Permutation_refl|].
    split; [exact (fun H => H)|].
    split; [intros H; lia | reflexivity].
Qed.

Lemma in_data_sectors id st k :
  0 <= k < blocks id -> In (block_at id st k) (map (block_at id st) (zrange 0 (blocks id))).
Proof. intros Hk. apply in_map. apply in_zrange. exact Hk. Qed.

(** The transfer loop of a write: what it stores, and that it stores
    nothing anywhere else. *)
Lemma write_loop_full i buf :
  0 <= length (data i) <= 512 * blocks (data i) -> blocks (data i) <= 16524 ->
  forall fuel size offset bw bounce st,
    0 <= size -> 0 <= offset -> offset + size <= length (data i) ->
    0 <= bw -> bw + size <= Z.of_nat (List.length buf) -> bw + size < 2147483648 ->
    size < Z.of_nat fuel ->
    NoDup (all_sectors (data i) st (blocks (data i))) -> data_sized (data i) st ->
    exists st',
      write_loop fuel true i buf size offset bw bounce st = Ok (bw + size, st')
      /\ (forall k, 0 <= k < blocks (data i) ->
          block_at (data i) st' k = block_at (data i) st k)
      /\ all_sectors (data i) st' (blocks (data i))
         = all_sectors (data i) st (blocks (data i))
      /\ data_sized (data i) st'
      /\ free_map st' = free_map st
      /\ (forall p, offset <= p < offset + size ->
          file_byte (data i) st' p = zget buf (bw + (p - offset)) x00)
      /\ (forall p, 0 <= p < 512 * blocks (data i) ->
          p < offset \/ offset + size <= p ->
          file_byte (data i) st' p = file_byte (data i) st p)
      /\ (forall s, ~ In s (map (block_at (data i) st) (zrange 0 (blocks (data i)))) ->
          disk st' s = disk st s).
Proof.
  intros HL HB. induction fuel as [|fuel IH];
    intros size offset bw bounce st Hs Ho Hend Hbw Hbuf H31 Hfuel Hnd Hsz; [lia|].
  cbn [write_loop].
  destruct (Z.ltb_spec 0 size) as [Hpos|Hzero].
  2:{ exists st. replace (bw + size) with bw by lia.
      split; [reflexivity|]. split; [reflexivity|]. split; [reflexivity|].
      split; [exact Hsz|]. split; [reflexivity|].
      split; [intros; lia|]. split; reflexivity. }
  rewrite byte_to_sector_block_at by lia.
  unfold BLOCK_SECTOR_SIZE, inode_length.
  rewrite Z.rem_mod_nonneg by lia.
  rewrite (s32_small (length (data i) - offset)) by lia.
  rewrite chunk_size_min by lia.
  set (ofs := offset mod 512). set (c := Z.min size (512 - ofs)).
  set (k := offset / 512).
  assert (Hofs : 0 <= ofs < 512) by (unfold ofs; lia).
  assert (Hc : 1 <= c <= 512 - ofs /\ c <= size) by (unfold c; lia).
  assert (Hk : 0 <= k < blocks (data i)) by (unfold k; lia).
  rewrite (s32_small (size - c)), (s32_small (offset + c)), (s32_small (bw + c)) by lia.
  destruct (Z.leb_spec c 0); [lia|].
  assert (Hstep : forall content bounce',
             (512 <= List.length content)%nat ->
             (forall j, 0 <= j < 512 ->
                zget content j x00
                = if (ofs <=? j) && (j <? ofs + c) then zget buf (bw + (j - ofs)) x00
                  else zget (disk st (block_at (data i) st k)) j x00) ->
             exists st',
               write_loop fuel true i buf (size - c) (offset + c) (bw + c) bounce'
                 (cache_write (block_at (data i) st k) content st) = Ok (bw + size, st')
               /\ (forall k, 0 <= k < blocks (data i) ->
                   block_at (data i) st' k = block_at (data i) st k)
               /\ all_sectors (data i) st' (blocks (data i))
                  = all_sectors (data i) st (blocks (data i))
               /\ data_sized (data i) st'
               /\ free_map st' = free_map st
               /\ (forall p, offset <= p < offset + size ->
                   file_byte (data i) st' p = zget buf (bw + (p - offset)) x00)
               /\ (forall p, 0 <= p < 512 * blocks (data i) ->
                   p < offset \/ offset + size <= p ->
                   file_byte (data i) st' p = file_byte (data i) st p)
               /\ (forall s,
                   ~ In s (map (block_at (data i) st) (zrange 0 (blocks (data i)))) ->
                   disk st' s = disk st s)).
  { intros content bounce' Hlen Hcontent.
    destruct (write_sector_file (data i) st k content Hnd Hsz Hk Hlen)
      as (Hb1 & Hall1 & Hsz1 & Hfm1 & Hfb1).
    set (st1 := cache_write (block_at (data i) st k) content st) in *.
    destruct (IH (size - c) (offset + c) (bw + c) bounce' st1)
      as (st' & E & Hb' & Hall' & Hsz' & Hfm' & Hin' & Hout' & Hdisk');
      [ lia | lia | lia | lia | lia | lia | lia | rewrite Hall1; exact Hnd | exact Hsz1 | ].
    exists st'.
    split; [rewrite E; do 2 f_equal; lia|].
    split; [intros k' Hk'; rewrite Hb', Hb1 by exact Hk'; reflexivity|].
    split; [rewrite Hall', Hall1; reflexivity|].
    split; [exact Hsz'|].
    split; [rewrite Hfm', Hfm1; reflexivity|].
    split.
    { intros p Hp. destruct (Z.lt_ge_cases p (offset + c)) as [Hlt|Hge].
      + rewrite Hout' by lia. rewrite Hfb1 by lia.
        replace (p / 512) with k by (unfold k, ofs in *; lia).
        rewrite Z.eqb_refl. rewrite Hcontent by lia.
        replace (p mod 512) with (ofs + (p - offset)) by (unfold k, ofs in *; lia).
        destruct (Z.leb_spec ofs (ofs + (p - offset))); [|lia].
        destruct (Z.ltb_spec (ofs + (p - offset)) (ofs + c)); [|lia].
        cbn [andb]. f_equal. lia.
      + rewrite Hin' by lia. f_equal. lia. }
    split.
    { intros p Hp Hout. rewrite Hout' by lia. rewrite Hfb1 by lia.
      destruct (Z.eqb_spec (p / 512) k) as [Ek|Ek]; [|reflexivity].
      rewrite Hcontent by lia.
      assert (Hcond : (ofs <=? p mod 512) && (p mod 512 <? ofs + c) = false).
      { destruct (Z.leb_spec ofs (p mod 512)); [|reflexivity].
        destruct (Z.ltb_spec (p mod 512) (ofs + c)); [|reflexivity].
        exfalso. unfold k, ofs in *. lia. }
      rewrite Hcond. unfold file_byte. rewrite Ek. reflexivity. }
    intros s Hs'.
    rewrite Hdisk'.
    - unfold st1, cache_write. cbn [disk].
      destruct (Z.eqb_spec s (block_at (data i) st k)) as [Es|Es]; [|reflexivity].
      exfalso. apply Hs'. rewrite Es. apply in_data_sectors. exact Hk.
    - intros Hin. apply Hs'.
      rewrite (map_ext_zrange (block_at (data i) st1) (block_at (data i) st)) in Hin
        by exact Hb1.
      exact Hin. }
  destruct ((ofs =? 0) && (c =? 512)) eqn:EA.
  - apply andb_true_iff in EA. destruct EA as [E0 E512].
    apply Z.eqb_eq in E0. apply Z.eqb_eq in E512.
    apply Hstep.
    + rewrite length_skipn. lia.
    + intros j Hj. rewrite zget_skipn by lia.
      destruct (Z.leb_spec ofs j); [|lia].
      destruct (Z.ltb_spec j (ofs + c)); [|lia].
      cbn [andb]. f_equal. lia.
  - rewrite Bool.orb_true_r.
    assert (Hread : (0 <? ofs) || (c <? 512 - ofs) = true).
    { destruct (Z.ltb_spec 0 ofs); [reflexivity|].
      destruct (Z.ltb_spec c (512 - ofs)); [reflexivity|].
      exfalso. apply andb_false_iff in EA.
      destruct EA as [EA|EA]; apply Z.eqb_neq in EA; lia. }
    rewrite Hread. unfold cache_read.
    assert (Hsec := Hsz k Hk).
    apply Hstep.
    + rewrite length_memcpy; rewrite ?length_skipn; lia.
    + intros j Hj. rewrite zget_memcpy by (rewrite ?length_skipn; lia).
      destruct ((ofs <=? j) && (j <? ofs + c)) eqn:Ein; [|reflexivity].
      apply andb_true_iff in Ein. destruct Ein as [Ea Eb].
      apply Z.leb_le in Ea. apply Z.ltb_lt in Eb.
      rewrite zget_skipn by lia. reflexivity.
Qed.

(** [inode_write_at] in full, for a write that is allowed and for which
    the device has room. *)
Lemma inode_write_at_full stk i buffer_ size offset st :
  inode_ok i st -> deny_write_cnt i = 0 -> stack_ok stk ->
  0 <= offset -> size = Z.of_nat (List.length buffer_) ->
  offset + size <= 8460288 ->
  (length (data i) < offset + size ->
   sectors_needed (blocks (data i))
                  (bytes_to_sectors (offset + size) - blocks (data i))
   <= Z.of_nat (List.length (free_map st))) ->
  exists i' st',
    inode_write_at stk true i buffer_ size offset st = Ok (size, i', st')
    /\ inode_ok i' st'
    /\ i' = set_data i (data i')
    /\ length (data i') = Z.max (length (data i)) (offset + size)
    /\ same_header (data i) (set_length (data i') (length (data i)))
    /\ blocks (data i) <= blocks (data i')
    /\ (forall p, offset <= p < offset + size ->
        file_byte (data i') st' p = zget buffer_ (p - offset) x00)
    /\ (forall p, 0 <= p < 512 * blocks (data i) ->
        p < offset \/ offset + size <= p ->
        file_byte (data i') st' p = file_byte (data i) st p)
    /\ (forall p, 512 * blocks (data i) <= p < 512 * blocks (data i') ->
        p < offset \/ offset + size <= p ->
        file_byte (data i') st' p = x00)
    /\ Permutation (all_sectors (data i') st' (blocks (data i')) ++ free_map st')
                   (all_sectors (data i) st (blocks (data i)) ++ free_map st)
    /\ (pointers_ok (data i) st -> pointers_ok (data i') st')
    /\ (forall x, x <> sector i ->
        ~ In x (all_sectors (data i) st (blocks (data i)) ++ free_map st) ->
        disk st' x = disk st x)
    /\ disk st' (sector i)
       = (if length (data i) <? offset + size
          then firstn 512 (encode_inode (data i')) else disk st (sector i))
    /\ (offset + size <= length (data i) -> i' = i).
Proof.
  intros Hok Hdeny Hstk Ho Hsize Hend Hneed.
  assert (Hb0 : 0 <= blocks (data i)) by (destruct Hok as ((_ & ? & _) & _); lia).
  unfold inode_write_at. rewrite Hdeny. cbn [Z.eqb negb].
  destruct (write_growth stk i size offset st Hok Hstk Ho ltac:(lia) Hend Hneed)
    as (i1 & st1 & Eg & Hok1 & Hi1 & Hlen1 & Hh1 & Hb1 & Hfr1 & Hz1 & Hperm1 & Hptr1
        & Hrec1 & Hdg).
  rewrite Eg. cbn [bind].
  destruct Hok1 as (Hwf1 & Hsz1 & HL1 & Hblocks1 & Hs1).
  assert (Hbb : blocks (data i1) = (length (data i1) + 511) / 512).
  { rewrite Hblocks1. apply bytes_to_sectors_nonneg. lia. }
  destruct Hwf1 as (Hd1 & Hbr1 & Hnd1 & Hfree1).
  destruct (write_loop_full i1 buffer_ ltac:(lia) ltac:(lia)
              (Z.to_nat size + 1) size offset 0 false st1)
    as (st' & Ew & Hblk & Hall & Hsz' & Hfm & Hin & Hout & Hdl);
    [ lia | lia | lia | lia | lia | lia | lia | exact (NoDup_app_l _ _ Hnd1) | exact Hsz1 | ].
  cbn [Z.add] in Ew. rewrite Ew. cbn [bind].
  exists i1, st'. split; [reflexivity|].
  split.
  { split.
    - split; [exact Hd1|]. split; [exact Hbr1|]. split; [|rewrite Hfm; exact Hfree1].
      rewrite Hall, Hfm. exact Hnd1.
    - split; [exact Hsz'|]. split; [exact HL1|]. split; [exact Hblocks1|].
      rewrite Hall, Hfm. exact Hs1. }
  split; [exact Hi1|]. split; [exact Hlen1|]. split; [exact Hh1|]. split; [exact Hb1|].
  split.
  { intros p Hp. rewrite Hin by lia. reflexivity. }
  split.
  { intros p Hp Ho'. rewrite Hout by lia. apply Hfr1. exact Hp. }
  split.
  { intros p Hp Ho'. rewrite Hout by lia. apply Hz1. exact Hp. }
  split.
  { rewrite Hall, Hfm. exact Hperm1. }
  split.
  { intros Hp. destruct (Hptr1 Hp) as (Ha & Hb & Hc).
    split; [exact Ha|]. split; [exact Hb|]. rewrite Hfm. exact Hc. }
  split.
  { intros x Hx Hnin. rewrite Hdl; [exact (Hdg x Hx Hnin)|].
    intros Hin'. apply Hnin. apply (Permutation_in _ Hperm1).
    apply in_or_app. left. unfold all_sectors. apply in_or_app. left. exact Hin'. }
  assert (Hsi : sector i1 = sector i) by (rewrite Hi1; reflexivity).
  assert (Hsame : offset + size <= length (data i) -> i1 = i /\ st1 = st).
  { intros Hge. assert (Eg' := Eg). unfold inode_length in Eg'.
    rewrite (s32_small (offset + size)) in Eg' by lia.
    destruct (Z.ltb_spec (length (data i)) (offset + size)); [lia|].
    injection Eg' as <- <-. split; reflexivity. }
  split; [|intros Hge; destruct (Hsame Hge) as [E _]; exact E].
  rewrite Hdl.
  - destruct (Z.ltb_spec (length (data i)) (offset + size)) as [Hlt|Hge].
    + exact (Hrec1 Hlt).
    + destruct (Hsame Hge) as [_ E]. rewrite E. reflexivity.
  - intros Hin'. apply Hs1. rewrite Hsi. apply in_or_app. left.
    unfold all_sectors. apply in_or_app. left. exact Hin'.
Qed.

(** ** The sample file *)

Lemma sample_file_ok : inode_ok sample_file sample_file_storage.
Proof.
  split.
  { split; [reflexivity|]. split; [cbn; lia|]. split.
    - apply nodupb_sound. vm_compute. reflexivity.
    - apply sector_numberb_sound. vm_compute. reflexivity. }
  split.
  { intros k Hk. assert (Hk' : k = 0 \/ k = 1) by (cbn in Hk; lia).
    destruct Hk' as [-> | ->]; vm_compute; reflexivity. }
  split; [cbn; lia|]. split; [vm_compute; reflexivity|].
  vm_compute. intuition discriminate.
Qed.

Lemma sample_file_tail_zero : tail_zero (data sample_file) sample_file_storage.
Proof.
  intros p Hp. cbn [sample_file sample_inode data sample_file_disk length blocks] in Hp.
  unfold file_byte. replace (p / 512) with 1 by lia.
  change (disk sample_file_storage (block_at (data sample_file) sample_file_storage 1))
    with (repeat x42 88 ++ repeat x00 424).
  unfold zget. destruct (Z.ltb_spec (p mod 512) 0); [reflexivity|].
  rewrite app_nth2 by (rewrite repeat_length; lia).
  apply nth_repeat.
Qed.

Lemma sample_file_pointers : pointers_ok (data sample_file) sample_file_storage.
Proof.
  split; [reflexivity|]. split; apply sector_numberb_sound; vm_compute; reflexivity.
Qed.

(** ** Reading *)

(** X1: on a well-formed inode ([inode_ok]), when [malloc] delivers the
    bounce buffer, for [0 <= offset], [0 <= size] no more than the caller's
    buffer holds and [offset + size] within [off_t]: [inode_read_at]
    delivers the bytes of the file from [offset] on, as many as were asked
    for or as the file has left, in front of what the buffer held behind
    them; at or beyond the end of the file it delivers nothing and leaves
    the buffer alone. *)
Theorem inode_read_at_slice_of_file (i : inode) (buf : list byte) (size offset : Z)
    (st : storage) :
  inode_ok i st ->
  0 <= offset -> 0 <= size -> offset + size < 2147483648 ->
  size <= Z.of_nat (List.length buf) ->
  let got := firstn (Z.to_nat size) (skipn (Z.to_nat offset) (file_contents i st)) in
  inode_read_at true i buf size offset st
  = Ok (Z.of_nat (List.length got), got ++ skipn (List.length got) buf)
  /\ Z.of_nat (List.length got) = Z.max 0 (Z.min size (length (data i) - offset))
  /\ (length (data i) <= offset -> inode_read_at true i buf size offset st = Ok (0, buf)).
Proof.
  intros Hok Ho Hs Hend Hbuf got.
  assert (E := inode_read_at_slice i buf size offset st Hok Ho Hs Hend Hbuf).
  destruct (file_slice i st offset size Ho Hs) as [Hlen _].
  fold got in E, Hlen.
  split; [exact E|]. split; [exact Hlen|].
  intros Heof. rewrite E.
  assert (Hnil : got = []).
  { apply length_zero_iff_nil. lia. }
  rewrite Hnil. reflexivity.
Qed.

Lemma inode_read_at_slice_of_file_witness :
  inode_read_at true sample_file (repeat x00 8) 8 596 sample_file_storage
  = Ok (4, [x42; x42; x42; x42; x00; x00; x00; x00]).
Proof.
  destruct (inode_read_at_slice_of_file sample_file (repeat x00 8) 8 596
              sample_file_storage) as (E & _ & _).
  - exact sample_file_ok.
  - lia.
  - lia.
  - lia.
  - vm_compute. discriminate.
  - exact E.
Defined.

(** ** Writing *)

Lemma zget_overflow {A} (l : list A) p d :
  Z.of_nat (List.length l) <= p -> zget l p d = d.
Proof.
  intros H. unfold zget. destruct (Z.ltb_spec p 0); [reflexivity|].
  apply nth_overflow. lia.
Qed.

(** X2: on a well-formed inode ([inode_ok]) whose allocated bytes beyond
    its length are zero ([tail_zero]) and on which writes are not denied,
    when [malloc] delivers the bounce buffer, for [0 <= offset], [size] the
    number of bytes given, [offset + size] within the 8460288 bytes of the
    block map and, if the file has to grow, a free map that holds the
    sectors which the growth takes: [inode_write_at] returns [size], stores
    the bytes at [offset] in the byte string of the file and changes no
    other byte of it; a file that ended before [offset] is filled up with
    zeros in between (and a write of no bytes beyond the end extends the
    file to [offset]).  The inode stays well formed, and the allocated
    bytes behind the new end are zero again. *)
Theorem inode_write_at_overwrites (stk : grow_stack) (i : inode) (buffer_ : list byte)
    (size offset : Z) (st : storage) :
  inode_ok i st -> tail_zero (data i) st ->
  deny_write_cnt i = 0 -> stack_ok stk ->
  0 <= offset -> size = Z.of_nat (List.length buffer_) ->
  offset + size <= 8460288 ->
  (length (data i) < offset + size ->
   sectors_needed (blocks (data i))
                  (bytes_to_sectors (offset + size) - blocks (data i))
   <= Z.of_nat (List.length (free_map st))) ->
  exists i' st',
    inode_write_at stk true i buffer_ size offset st = Ok (size, i', st')
    /\ file_contents i' st' = overwrite (file_contents i st) offset buffer_
    /\ inode_ok i' st' /\ tail_zero (data i') st'.
Proof.
  intros Hok Htail Hdeny Hstk Ho Hsize Hend Hneed.
  destruct (inode_write_at_full stk i buffer_ size offset st Hok Hdeny Hstk Ho Hsize
              Hend Hneed)
    as (i' & st' & Ew & Hok' & _ & Hlen' & _ & Hb & Hin & Hfr & Hz & _).
  destruct Hok as ((_ & Hb0 & _) & _ & HL & Hblocks & _).
  assert (HbL : blocks (data i) = (length (data i) + 511) / 512).
  { rewrite Hblocks. apply bytes_to_sectors_nonneg. lia. }
  assert (HbL' : blocks (data i') = (length (data i') + 511) / 512).
  { destruct Hok' as (_ & _ & HL' & Hblocks' & _).
    rewrite Hblocks'. apply bytes_to_sectors_nonneg. lia. }
  assert (Hbyte : forall p, 0 <= p < 512 * blocks (data i') ->
            p < offset \/ offset + size <= p ->
            file_byte (data i') st' p
            = if p <? length (data i) then file_byte (data i) st p else x00).
  { intros p Hp Hout. destruct (Z.ltb_spec p (length (data i))) as [Hlt|Hge].
    - apply Hfr; lia.
    - destruct (Z.lt_ge_cases p (512 * blocks (data i))) as [Hold|Hnew].
      + rewrite Hfr by lia. apply Htail. lia.
      + apply Hz; lia. }
  exists i', st'. split; [exact Ew|]. split; [|split; [exact Hok'|]].
  - unfold overwrite. rewrite length_file_contents, <- Hsize.
    rewrite Z2Nat.id by lia. rewrite <- Hlen'.
    unfold file_contents at 1. apply map_ext_zrange. intros p Hp.
    destruct ((offset <=? p) && (p <? offset + size)) eqn:Ec.
    + apply andb_true_iff in Ec. destruct Ec as [Ea Eb].
      apply Z.leb_le in Ea. apply Z.ltb_lt in Eb. apply Hin. lia.
    + assert (Hout : p < offset \/ offset + size <= p).
      { apply andb_false_iff in Ec. destruct Ec as [Ec|Ec];
          [apply Z.leb_gt in Ec | apply Z.ltb_ge in Ec]; lia. }
      rewrite Hbyte by lia.
      destruct (Z.ltb_spec p (length (data i))) as [Hlt|Hge].
      * rewrite zget_file_contents by lia. reflexivity.
      * rewrite zget_overflow; [reflexivity|]. rewrite length_file_contents. lia.
  - intros p Hp. rewrite Hbyte by lia.
    destruct (Z.ltb_spec p (length (data i))); [lia | reflexivity].
Qed.

Lemma inode_write_at_overwrites_witness :
  exists i' st',
    inode_write_at sample_stack true sample_file [x01; x02; x03] 3 1500 sample_file_storage
    = Ok (3, i', st')
    /\ file_contents i' st'
       = overwrite (file_contents sample_file sample_file_storage) 1500 [x01; x02; x03]
    /\ inode_ok i' st'.
Proof.
  destruct (inode_write_at_overwrites sample_stack sample_file [x01; x02; x03] 3 1500
              sample_file_storage) as (i' & st' & Ew & Ec & Hok' & _).
  - exact sample_file_ok.
  - exact sample_file_tail_zero.
  - reflexivity.
  - repeat split.
  - lia.
  - reflexivity.
  - lia.
  - intros _. vm_compute. discriminate.
  - exists i', st'. split; [exact Ew|]. split; [exact Ec | exact Hok'].
Defined.

(** X3: on a well-formed inode ([inode_ok]) on which writes are not denied,
    when [malloc] delivers the bounce buffer, for [0 <= offset], [size] the
    number of bytes given, [offset + size] within the 8460288 bytes of the
    block map and, if the file has to grow, a free map that holds the
    sectors which the growth takes: [inode_write_at] returns [size], takes
    the sectors it needs from the free map and loses none.  The sectors of
    the block map and the free sectors together are the same before and
    after, no sector is among them twice, and the block count is the sector
    count of the new length. *)
Theorem inode_write_at_conserves_sectors (stk : grow_stack) (i : inode)
    (buffer_ : list byte) (size offset : Z) (st : storage) :
  inode_ok i st -> deny_write_cnt i = 0 -> stack_ok stk ->
  0 <= offset -> size = Z.of_nat (List.length buffer_) ->
  offset + size <= 8460288 ->
  (length (data i) < offset + size ->
   sectors_needed (blocks (data i))
                  (bytes_to_sectors (offset + size) - blocks (data i))
   <= Z.of_nat (List.length (free_map st))) ->
  exists i' st',
    inode_write_at stk true i buffer_ size offset st = Ok (size, i', st')
    /\ Permutation (all_sectors (data i') st' (blocks (data i')) ++ free_map st')
                   (all_sectors (data i) st (blocks (data i)) ++ free_map st)
    /\ NoDup (all_sectors (data i') st' (blocks (data i')) ++ free_map st')
    /\ blocks (data i') = bytes_to_sectors (Z.max (length (data i)) (offset + size)).
Proof.
  intros Hok Hdeny Hstk Ho Hsize Hend Hneed.
  destruct (inode_write_at_full stk i buffer_ size offset st Hok Hdeny Hstk Ho Hsize
              Hend Hneed)
    as (i' & st' & Ew & Hok' & _ & Hlen' & _ & _ & _ & _ & _ & Hperm & _).
  exists i', st'. split; [exact Ew|]. split; [exact Hperm|].
  destruct Hok' as ((_ & _ & Hnd & _) & _ & _ & Hblocks' & _).
  split; [exact Hnd|]. rewrite <- Hlen'. exact Hblocks'.
Qed.

Lemma inode_write_at_conserves_sectors_witness :
  exists i' st',
    inode_write_at sample_stack true sample_file [x01; x02; x03] 3 1500 sample_file_storage
    = Ok (3, i', st')
    /\ Permutation (all_sectors (data i') st' (blocks (data i')) ++ free_map st')
                   (all_sectors (data sample_file) sample_file_storage 2
                    ++ free_map sample_file_storage)
    /\ blocks (data i') = 3.
Proof.
  destruct (inode_write_at_conserves_sectors sample_stack sample_file [x01; x02; x03]
              3 1500 sample_file_storage) as (i' & st' & Ew & Hp & _ & Hb).
  - exact sample_file_ok.
  - reflexivity.
  - repeat split.
  - lia.
  - reflexivity.
  - lia.
  - intros _. vm_compute. discriminate.
  - exists i', st'. split; [exact Ew|]. split; [exact Hp | exact Hb].
Defined.

(** The block map of a record is a function of the record and of its index
    sectors. *)
Lemma block_map_ext id st st' :
  (forall s, In s (index_sectors id st (blocks id)) -> disk st' s = disk st s) ->
  (forall k, 0 <= k < blocks id -> block_at id st' k = block_at id st k)
  /\ index_sectors id st' (blocks id) = index_sectors id st (blocks id).
Proof.
  intros H.
  assert (H12 : 12 < blocks id ->
            read_index (zget (direct id) 12 0) st' = read_index (zget (direct id) 12 0) st).
  { intros Hb. apply read_index_ext. apply H. unfold index_sectors.
    destruct (Z.ltb_spec 12 (blocks id)); [|lia]. left. reflexivity. }
  assert (H13 : 140 < blocks id ->
            read_index (zget (direct id) 13 0) st' = read_index (zget (direct id) 13 0) st).
  { intros Hb. apply read_index_ext. apply H. unfold index_sectors.
    destruct (Z.ltb_spec 140 (blocks id)); [|lia].
    apply in_or_app. right. apply in_or_app. right. left. reflexivity. }
  assert (Hout : forall j, 140 < blocks id -> 0 <= j < outer_count (blocks id) ->
            read_index (outer_at id st j) st' = read_index (outer_at id st j) st).
  { intros j Hb Hj. apply read_index_ext. apply H. unfold index_sectors.
    destruct (Z.ltb_spec 140 (blocks id)); [|lia].
    apply in_or_app. right. apply in_or_app. left.
    apply in_map. apply in_zrange. exact Hj. }
  split.
  - intros k Hk. unfold block_at.
    destruct (Z.ltb_spec k 12); [reflexivity|].
    destruct (Z.ltb_spec k 140).
    + rewrite H12 by lia. reflexivity.
    + rewrite H13 by lia.
      change (zget (read_index (zget (direct id) 13 0) st) ((k - 140) / 128) 0)
        with (outer_at id st ((k - 140) / 128)).
      rewrite Hout; [reflexivity | lia | unfold outer_count; lia].
  - unfold index_sectors. f_equal.
    destruct (Z.ltb_spec 140 (blocks id)); [|reflexivity].
    f_equal. apply map_ext_zrange. intros j Hj. unfold outer_at.
    rewrite H13 by lia. reflexivity.
Qed.

(** X4: under the conditions of X3 on the file written to, a write changes
    no sector of another file: a record [j] whose length lies within its
    blocks and whose record sector and block-map sectors are neither free,
    nor the record sector of the file written to, nor in its block map, has
    after the write the bytes, the block map and the record sector it
    had. *)
Theorem inode_write_at_leaves_other_files (stk : grow_stack) (i j : inode)
    (buffer_ : list byte) (size offset : Z) (st : storage) :
  inode_ok i st -> deny_write_cnt i = 0 -> stack_ok stk ->
  0 <= offset -> size = Z.of_nat (List.length buffer_) ->
  offset + size <= 8460288 ->
  (length (data i) < offset + size ->
   sectors_needed (blocks (data i))
                  (bytes_to_sectors (offset + size) - blocks (data i))
   <= Z.of_nat (List.length (free_map st))) ->
  0 <= length (data j) <= 512 * blocks (data j) ->
  (forall s, In s (sector j :: all_sectors (data j) st (blocks (data j))) ->
     s <> sector i
     /\ ~ In s (all_sectors (data i) st (blocks (data i)) ++ free_map st)) ->
  exists i' st',
    inode_write_at stk true i buffer_ size offset st = Ok (size, i', st')
    /\ file_contents j st' = file_contents j st
    /\ all_sectors (data j) st' (blocks (data j))
       = all_sectors (data j) st (blocks (data j))
    /\ disk st' (sector j) = disk st (sector j).
Proof.
  intros Hok Hdeny Hstk Ho Hsize Hend Hneed HLj Hdisj.
  destruct (inode_write_at_full stk i buffer_ size offset st Hok Hdeny Hstk Ho Hsize
              Hend Hneed)
    as (i' & st' & Ew & _ & _ & _ & _ & _ & _ & _ & _ & _ & _ & Hdisk & _).
  assert (Hsame : forall s, In s (sector j :: all_sectors (data j) st (blocks (data j))) ->
            disk st' s = disk st s).
  { intros s Hs. destruct (Hdisj s Hs) as [H1 H2]. apply Hdisk; assumption. }
  destruct (block_map_ext (data j) st st') as [Hblk Hidx].
  { intros s Hs. apply Hsame. right. apply in_index_all_sectors. exact Hs. }
  exists i', st'. split; [exact Ew|]. split; [|split].
  - unfold file_contents. apply map_ext_zrange. intros p Hp.
    unfold file_byte. rewrite Hblk by lia.
    rewrite Hsame; [reflexivity|]. right.
    unfold all_sectors. apply in_or_app. left. apply in_data_sectors. lia.
  - unfold all_sectors. rewrite Hidx. f_equal.
    apply map_ext_zrange. exact Hblk.
  - apply Hsame. left. reflexivity.
Qed.

Lemma inode_write_at_leaves_other_files_witness :
  exists i' st',
    inode_write_at sample_stack true sample_file [x01; x02; x03] 3 1500 sample_file_storage
    = Ok (3, i', st')
    /\ file_contents sample_other_file st'
       = file_contents sample_other_file sample_file_storage.
Proof.
  destruct (inode_write_at_leaves_other_files sample_stack sample_file sample_other_file
              [x01; x02; x03] 3 1500 sample_file_storage)
    as (i' & st' & Ew & Ec & _).
  - exact sample_file_ok.
  - reflexivity.
  - repeat split.
  - lia.
  - reflexivity.
  - lia.
  - intros _. vm_compute. discriminate.
  - cbn. lia.
  - intros s Hs. vm_compute in Hs.
    destruct Hs as [<- | [<- | []]];
      (split; [discriminate | vm_compute; intuition discriminate]).
  - exists i', st'. split; [exact Ew | exact Ec].
Defined.

(** ** The resolver on a well-formed inode *)

(** X5: Below the length of the file [byte_to_sector] gives a data sector of
    the file's own block map: not the sector of the record, not an index
    sector, not a free sector; and two positions resolve to the same sector
    exactly when they lie in the same block. *)
Theorem byte_to_sector_owned (i : inode) (st : storage) (pos pos' : Z) :
  inode_ok i st ->
  0 <= pos < length (data i) -> 0 <= pos' < length (data i) ->
  let s := byte_to_sector i pos st in
  In s (all_sectors (data i) st (blocks (data i)))
  /\ s <> sector i
  /\ ~ In s (free_map st)
  /\ ~ In s (index_sectors (data i) st (blocks (data i)))
  /\ (byte_to_sector i pos' st = s <-> pos' / 512 = pos / 512).
Proof.
  intros ((Hd & Hbr & Hnd & Hfree) & Hsz & HL & Hblocks & Hs) Hp Hp' s.
  assert (Hb : blocks (data i) = (length (data i) + 511) / 512).
  { rewrite Hblocks. apply bytes_to_sectors_nonneg. lia. }
  unfold s. rewrite !byte_to_sector_block_at by lia.
  assert (Hk : 0 <= pos / 512 < blocks (data i)) by lia.
  assert (Hk' : 0 <= pos' / 512 < blocks (data i)) by lia.
  assert (Hin : In (block_at (data i) st (pos / 512))
                   (all_sectors (data i) st (blocks (data i)))).
  { unfold all_sectors. apply in_or_app. left. apply in_data_sectors. exact Hk. }
  split; [exact Hin|]. split; [|split; [|split]].
  - intros E. apply Hs. apply in_or_app. left. rewrite <- E. exact Hin.
  - intros Hf. exact (NoDup_app_disjoint _ _ _ Hnd Hin Hf).
  - apply block_at_not_index; [exact (NoDup_app_l _ _ Hnd) | exact Hk].
  - split.
    + intros E. apply (block_at_inj (data i) st _ _ (NoDup_app_l _ _ Hnd) Hk' Hk E).
    + intros E. rewrite E. reflexivity.
Qed.

Lemma byte_to_sector_owned_witness :
  byte_to_sector sample_file 599 sample_file_storage <> sector sample_file
  /\ (byte_to_sector sample_file 0 sample_file_storage
      = byte_to_sector sample_file 599 sample_file_storage <-> 0 / 512 = 599 / 512).
Proof.
  destruct (byte_to_sector_owned sample_file sample_file_storage 599 0)
    as (_ & H1 & _ & _ & H2).
  - exact sample_file_ok.
  - cbn. lia.
  - cbn. lia.
  - split; [exact H1 | exact H2].
Defined.

(** ** Sector counts *)

(** X6: [bytes_to_sectors] gives the least number of sectors that hold [size]
    bytes, for every size whose rounding up does not leave the range of
    [int]; it is monotone there. *)
Theorem bytes_to_sectors_least (size size' : Z) :
  0 <= size <= size' -> size' <= 2147483136 ->
  512 * (bytes_to_sectors size - 1) < size <= 512 * bytes_to_sectors size
  /\ bytes_to_sectors size <= bytes_to_sectors size'
  /\ (bytes_to_sectors size = 0 <-> size = 0).
Proof.
  intros H H'.
  rewrite !bytes_to_sectors_nonneg by lia. lia.
Qed.

Lemma bytes_to_sectors_least_witness :
  512 * (bytes_to_sectors 513 - 1) < 513 <= 512 * bytes_to_sectors 513
  /\ bytes_to_sectors 513 <= bytes_to_sectors 2147483136.
Proof.
  destruct (bytes_to_sectors_least 513 2147483136) as (H1 & H2 & _).
  - lia.
  - lia.
  - split; [exact H1 | exact H2].
Defined.

(** ** Creating a file *)

Lemma all_sectors_none id st : blocks id = 0 -> all_sectors id st (blocks id) = [].
Proof.
  intros Hb. rewrite Hb. unfold all_sectors, index_sectors.
  rewrite zrange_nil by lia. reflexivity.
Qed.

Lemma zget_repeat {A} (a : A) n j : zget (repeat a n) j a = a.
Proof. unfold zget. destruct (j <? 0); [reflexivity | apply nth_repeat]. Qed.


(** [inode_create] and the record that a later [inode_open] finds. *)
Lemma inode_create_spec stk s len dir st :
  stack_ok stk -> 0 <= len <= 8460288 ->
  NoDup (free_map st) -> Forall sector_number (free_map st) ->
  ~ In s (free_map st) ->
  sectors_needed 0 (bytes_to_sectors len) <= Z.of_nat (List.length (free_map st)) ->
  exists st' id1,
    inode_create stk true s len dir st = Ok (true, st')
    /\ decode_inode (cache_read s st') = id1
    /\ length id1 = len /\ is_dir id1 = dir /\ magic id1 = INODE_MAGIC
    /\ wf_inode id1 st' /\ data_sized id1 st'
    /\ blocks id1 = bytes_to_sectors len
    /\ ~ In s (all_sectors id1 st' (blocks id1) ++ free_map st')
    /\ (forall p, 0 <= p < 512 * blocks id1 -> file_byte id1 st' p = x00)
    /\ Permutation (all_sectors id1 st' (blocks id1) ++ free_map st') (free_map st)
    /\ record_ok id1
    /\ (forall x, x <> s -> ~ In x (free_map st) -> disk st' x = disk st x).
Proof.
  intros Hstk Hlen Hnd Hfree Hs Hneed.
  set (id0 := empty_inode_disk dir).
  assert (Hwf0 : wf_inode id0 st).
  { split; [reflexivity|]. split; [cbn; lia|].
    rewrite (all_sectors_none id0 st) by reflexivity. split; assumption. }
  assert (Hsz0 : data_sized id0 st) by (intros k Hk; cbn in Hk; lia).
  assert (Hs0 : ~ In s (all_sectors id0 st (blocks id0) ++ free_map st)).
  { rewrite (all_sectors_none id0 st) by reflexivity. exact Hs. }
  assert (Hptr0 : pointers_ok id0 st).
  { split; [reflexivity|]. split; [|exact Hfree].
    apply Forall_forall. intros x Hx. apply repeat_spec in Hx. subst x.
    unfold sector_number. lia. }
  assert (Hg : exists id' stg,
            inode_grow stk id0 len st = Ok (len, id', stg)
            /\ wf_inode id' stg /\ data_sized id' stg
            /\ blocks id' = bytes_to_sectors len
            /\ ~ In s (all_sectors id' stg (blocks id') ++ free_map stg)
            /\ same_header id0 id'
            /\ (forall p, 0 <= p < 512 * blocks id' -> file_byte id' stg p = x00)
            /\ Permutation (all_sectors id' stg (blocks id') ++ free_map stg) (free_map st)
            /\ (forall x, ~ In x (free_map st) -> disk stg x = disk st x)).
  { destruct (Z.eq_dec len 0) as [E0|E0].
    - subst len. exists id0, st.
      split; [reflexivity|]. split; [exact Hwf0|]. split; [exact Hsz0|].
      split; [reflexivity|]. split; [exact Hs0|]. split; [apply same_header_refl|].
      split; [intros p Hp; cbn in Hp; lia|].
      split; [rewrite (all_sectors_none id0 st) by reflexivity; apply Permutation_refl|].
      reflexivity.
    - destruct (grow_for_write_full stk id0 len st s Hstk Hwf0 Hsz0)
        as (id' & stg & Eg & Hwf' & Hsz' & Hb' & Hs' & Hh' & _ & Hz' & Hperm' & _ & Hd');
        [ cbn; lia | cbn; lia | reflexivity | exact Hs0
        | change (blocks id0) with 0; rewrite Z.sub_0_r; exact Hneed | ].
      exists id', stg. split; [exact Eg|]. split; [exact Hwf'|]. split; [exact Hsz'|].
      split; [exact Hb'|]. split; [exact Hs'|]. split; [exact Hh'|].
      split; [intros p Hp; apply Hz'; change (blocks id0) with 0; lia|].
      split.
      { rewrite (all_sectors_none id0 st) in Hperm' by reflexivity. exact Hperm'. }
      intros x Hx. apply Hd'. rewrite (all_sectors_none id0 st) by reflexivity. exact Hx. }
  destruct Hg as (id' & stg & Eg & Hwf' & Hsz' & Hb' & Hs' & Hh' & Hz' & Hperm' & Hd').
  assert (Hptr' := inode_grow_pointers _ _ _ _ _ _ _ Eg Hptr0).
  destruct (header_write id' stg s len Hwf' Hsz' Hs') as (Hwf1 & Hsz1 & Hs1 & Hfr1).
  destruct (header_write_full id' stg s len Hwf' Hsz' Hs') as (Hall1 & Hfm1 & Hdo1 & Hdisk1).
  set (id1 := set_length id' len) in *.
  set (st1 := cache_write s (encode_inode id1) stg) in *.
  assert (Hrec : record_ok id1).
  { destruct Hh' as (_ & Hm & Hu & _). destruct Hptr' as (Hpl & Hpd & _).
    split; [cbn; lia|]. split; [cbn [id1 set_length magic]; rewrite Hm; vm_compute; split; [discriminate | reflexivity]|].
    split; [cbn [id1 set_length unused]; rewrite Hu; reflexivity|].
    split.
    { cbn [id1 set_length unused]. rewrite Hu.
      apply Forall_forall. intros x Hx. apply repeat_spec in Hx. subst x.
      unfold sector_number. lia. }
    split; [exact Hpl|]. split; [exact Hpd|].
    cbn [id1 set_length blocks]. rewrite Hb'. apply bytes_to_sectors_range. }
  exists st1, id1.
  split.
  { unfold inode_create. destruct (Z.ltb_spec len 0); [lia|].
    change {| length := 0; magic := INODE_MAGIC; unused := repeat 0 110;
              direct := repeat 0 14; blocks := 0; is_dir := dir |} with id0.
    cbv zeta. rewrite Eg. cbn [bind set_length length].
    rewrite Z.eqb_refl. reflexivity. }
  split.
  { unfold cache_read. rewrite Hdisk1. apply decode_encode_inode. exact Hrec. }
  split; [reflexivity|].
  split; [destruct Hh' as (_ & _ & _ & Hdir); exact Hdir|].
  split; [destruct Hh' as (_ & Hm & _); exact Hm|].
  split; [exact Hwf1|]. split; [exact Hsz1|]. split; [exact Hb'|]. split; [exact Hs1|].
  split.
  { intros p Hp. rewrite Hfr1 by exact Hp. apply Hz'. exact Hp. }
  split.
  { rewrite Hall1, Hfm1. exact Hperm'. }
  split; [exact Hrec|].
  intros x Hx Hnin. rewrite Hdo1 by exact Hx. apply Hd'. exact Hnin.
Qed.

(** X7: when the free map holds pairwise distinct sector numbers, at least
    the data and index sectors that [len] bytes need, and not the sector
    given for the record, and [0 <= len <= 8460288]: [inode_create] with
    [calloc] succeeding returns true, and the inode that [inode_open] then
    reads from the sector, on the list as [inode_init] leaves it, is well
    formed, has the length and the kind asked for, fields within the ranges
    of their types, and is a file of zeros.  When [calloc] fails
    [inode_create] returns false and leaves the device as it is. *)
Theorem inode_create_makes_zero_file (stk : grow_stack) (s len : Z) (dir : bool)
    (st : storage) :
  stack_ok stk -> 0 <= len <= 8460288 ->
  NoDup (free_map st) -> Forall sector_number (free_map st) ->
  ~ In s (free_map st) ->
  sectors_needed 0 (bytes_to_sectors len) <= Z.of_nat (List.length (free_map st)) ->
  (exists st' i,
     inode_create stk true s len dir st = Ok (true, st')
     /\ inode_open true s (inode_init st')
        = Ok (Some 1%nat, {| store := st'; open_inodes := [(1%nat, i)] |})
     /\ inode_get_inumber i = s /\ inode_get_open_cnt i = 1
     /\ inode_is_removed i = false
     /\ inode_length i = len /\ inode_is_dir i = dir
     /\ inode_ok i st' /\ tail_zero (data i) st'
     /\ file_contents i st' = repeat x00 (Z.to_nat len)
     /\ record_ok (data i))
  /\ inode_create stk false s len dir st = Ok (false, st).
Proof.
  intros Hstk Hlen Hnd Hfree Hs Hneed.
  split.
  - destruct (inode_create_spec stk s len dir st Hstk Hlen Hnd Hfree Hs Hneed)
      as (st' & id1 & Ec & Edec & Hl & Hdir & _ & Hwf & Hsz & Hb & Hs' & Hz & _ & Hrec & _).
    exists st', {| sector := s; open_cnt := 1; removed := false; deny_write_cnt := 0;
                   data := id1 |}.
    split; [exact Ec|].
    split.
    { unfold inode_open, inode_init. cbn [open_inodes store find_sector].
      rewrite Edec. reflexivity. }
    split; [reflexivity|]. split; [reflexivity|]. split; [reflexivity|].
    split; [exact Hl|]. split; [exact Hdir|].
    split.
    { split; [exact Hwf|]. split; [exact Hsz|]. cbn [data sector].
      split; [lia|]. split; [rewrite Hl; exact Hb | exact Hs']. }
    assert (HbL : blocks id1 = (len + 511) / 512).
    { rewrite Hb. apply bytes_to_sectors_nonneg. lia. }
    split.
    { intros p Hp. cbn [data] in *. apply Hz. lia. }
    split; [|exact Hrec].
    unfold file_contents. cbn [data]. rewrite Hl.
    assert (Hrl : Z.of_nat (List.length (repeat x00 (Z.to_nat len))) = len)
      by (rewrite repeat_length; lia).
    rewrite <- (Z.add_0_l len). rewrite <- Hrl at 1.
    apply (list_eq_map_zrange _ _ _ x00).
    intros t Ht. rewrite zget_repeat. apply Hz. lia.
  - unfold inode_create. destruct (Z.ltb_spec len 0); [lia | reflexivity].
Qed.

Lemma inode_create_makes_zero_file_witness :
  exists st' i,
    inode_create sample_stack true 7 7000 false (blank_storage (zrange 100 120))
    = Ok (true, st')
    /\ inode_open true 7 (inode_init st')
       = Ok (Some 1%nat, {| store := st'; open_inodes := [(1%nat, i)] |})
    /\ inode_length i = 7000
    /\ file_contents i st' = repeat x00 (Z.to_nat 7000).
Proof.
  destruct (inode_create_makes_zero_file sample_stack 7 7000 false
              (blank_storage (zrange 100 120)))
    as ((st' & i & Ec & Eo & _ & _ & _ & Hl & _ & _ & _ & Hc & _) & _).
  - repeat split.
  - lia.
  - apply nodupb_sound. vm_compute. reflexivity.
  - apply sector_numberb_sound. vm_compute. reflexivity.
  - vm_compute. intuition discriminate.
  - vm_compute. discriminate.
  - exists st', i. split; [exact Ec|]. split; [exact Eo|]. split; [exact Hl | exact Hc].
Defined.

(** ** Closing and opening again *)




Lemma sample_file_record_ok : record_ok (data sample_file).
Proof.
  split; [cbn; lia|]. split; [vm_compute; split; [discriminate | reflexivity]|].
  split; [reflexivity|]. split; [apply sector_numberb_sound; vm_compute; reflexivity|].
  split; [reflexivity|]. split; [apply sector_numberb_sound; vm_compute; reflexivity|].
  cbn; lia.
Qed.


(** ** Deleting a file *)

Lemma release_order_release id x st n :
  release_order id (free_map_release x st) n = release_order id st n.
Proof. reflexivity. Qed.

(** The close that deletes. *)
Lemma inode_close_removed_spec fs a i :
  find_inode a (open_inodes fs) = Some i ->
  open_cnt i = 1 -> removed i = true -> inode_ok i (store fs) ->
  exists fs',
    inode_close (Some a) fs = Ok fs'
    /\ open_inodes fs' = list_remove a (open_inodes fs)
    /\ disk (store fs') = disk (store fs)
    /\ free_map (store fs')
       = rev (release_order (data i) (store fs) (blocks (data i)))
         ++ sector i :: free_map (store fs)
    /\ Permutation (free_map (store fs'))
                   (sector i :: all_sectors (data i) (store fs) (blocks (data i))
                    ++ free_map (store fs))
    /\ NoDup (free_map (store fs')).
Proof.
  intros F Hcnt Hrem ((Hd & Hbr & Hnd & Hfree) & Hsz & HL & Hblocks & Hs).
  destruct (inode_close_cases a i fs F) as (_ & Hc & _).
  assert (Hz : open_cnt (set_open_cnt i (s32 (open_cnt i - 1))) = 0)
    by (cbn [set_open_cnt open_cnt]; rewrite Hcnt; reflexivity).
  specialize (Hc Hz Hrem).
  rewrite inode_free_run in Hc by (cbn [set_open_cnt data]; rewrite <- Hblocks; lia).
  cbn [set_open_cnt data bind] in Hc. rewrite <- Hblocks in Hc.
  rewrite release_all_spec, release_order_release in Hc.
  cbn [free_map_release disk free_map] in Hc.
  set (R := release_order (data i) (store fs) (blocks (data i))) in *.
  assert (Hperm : Permutation (rev R ++ sector i :: free_map (store fs))
                    (sector i :: all_sectors (data i) (store fs) (blocks (data i))
                     ++ free_map (store fs))).
  { eapply perm_trans; [apply Permutation_sym, Permutation_middle|].
    apply perm_skip. apply Permutation_app_tail.
    eapply perm_trans; [apply Permutation_sym, Permutation_rev|].
    apply release_order_perm. }
  eexists. split; [exact Hc|]. cbn [open_inodes store disk free_map].
  split; [reflexivity|]. split; [reflexivity|]. split; [reflexivity|].
  split; [exact Hperm|].
  apply (Permutation_NoDup (Permutation_sym Hperm)).
  constructor; assumption.
Qed.

(** X9: The close of a removed inode by its last opener gives back to the free
    map the sector of the record and every sector of the block map, data
    and index sectors alike, each once: afterwards no sector is free twice.
    The inode leaves the list of open inodes; no sector is written. *)
Theorem last_close_of_removed_frees_all (fs : filesys) (a : nat) (i : inode) :
  find_inode a (open_inodes fs) = Some i ->
  open_cnt i = 1 -> removed i = true -> inode_ok i (store fs) ->
  exists fs',
    inode_close (Some a) fs = Ok fs'
    /\ open_inodes fs' = list_remove a (open_inodes fs)
    /\ disk (store fs') = disk (store fs)
    /\ Permutation (free_map (store fs'))
                   (sector i :: all_sectors (data i) (store fs) (blocks (data i))
                    ++ free_map (store fs))
    /\ NoDup (free_map (store fs')).
Proof.
  intros F Hcnt Hrem Hok.
  destruct (inode_close_removed_spec fs a i F Hcnt Hrem Hok)
    as (fs' & Ec & Hl & Hdisk & _ & Hperm & Hnd).
  exists fs'. split; [exact Ec|]. split; [exact Hl|]. split; [exact Hdisk|].
  split; [exact Hperm | exact Hnd].
Qed.

Lemma last_close_of_removed_frees_all_witness :
  exists fs',
    inode_close (Some 1%nat)
      {| store := sample_file_storage;
         open_inodes := [(1%nat, set_removed sample_file true)] |} = Ok fs'
    /\ open_inodes fs' = []
    /\ Permutation (free_map (store fs')) (7 :: 100 :: 101 :: zrange 200 220).
Proof.
  destruct (last_close_of_removed_frees_all
              {| store := sample_file_storage;
                 open_inodes := [(1%nat, set_removed sample_file true)] |}
              1%nat (set_removed sample_file true))
    as (fs' & Ec & Hl & _ & Hperm & _).
  - reflexivity.
  - reflexivity.
  - reflexivity.
  - exact sample_file_ok.
  - exists fs'. split; [exact Ec|]. split; [exact Hl | exact Hperm].
Defined.

(** X10: under the conditions of X7 (a free map of pairwise distinct sector
    numbers with room for the file and without the sector of the record,
    [0 <= len <= 8460288], [calloc] and [malloc] succeeding), a file that is
    created, opened, removed and closed leaves no sector behind: the free
    map then holds what it held before the file was created and the sector
    of the record, which the close releases with the rest, and holds no
    sector twice. *)
Theorem create_then_delete_returns_sectors (stk : grow_stack) (s len : Z) (dir : bool)
    (st : storage) :
  stack_ok stk -> 0 <= len <= 8460288 ->
  NoDup (free_map st) -> Forall sector_number (free_map st) ->
  ~ In s (free_map st) ->
  sectors_needed 0 (bytes_to_sectors len) <= Z.of_nat (List.length (free_map st)) ->
  exists st1 h fs2 fs3 fs4,
    inode_create stk true s len dir st = Ok (true, st1)
    /\ inode_open true s (inode_init st1) = Ok (h, fs2)
    /\ inode_remove h fs2 = Ok fs3
    /\ inode_close h fs3 = Ok fs4
    /\ open_inodes fs4 = []
    /\ Permutation (free_map (store fs4)) (s :: free_map st)
    /\ NoDup (free_map (store fs4)).
Proof.
  intros Hstk Hlen Hnd Hfree Hs Hneed.
  destruct (inode_create_spec stk s len dir st Hstk Hlen Hnd Hfree Hs Hneed)
    as (st1 & id1 & Ec & Edec & Hl & _ & _ & Hwf & Hsz & Hb & Hs' & _ & Hperm & _).
  set (i := {| sector := s; open_cnt := 1; removed := false; deny_write_cnt := 0;
               data := id1 |}).
  assert (Hok : inode_ok (set_removed i true) st1).
  { split; [exact Hwf|]. split; [exact Hsz|]. cbn [set_removed i data sector].
    split; [lia|]. split; [rewrite Hl; exact Hb | exact Hs']. }
  destruct (inode_close_removed_spec
              {| store := st1; open_inodes := [(1%nat, set_removed i true)] |}
              1%nat (set_removed i true) eq_refl eq_refl eq_refl Hok)
    as (fs4 & Eclose & Hlist & _ & _ & Hperm4 & Hnd4).
  exists st1, (Some 1%nat), {| store := st1; open_inodes := [(1%nat, i)] |},
         {| store := st1; open_inodes := [(1%nat, set_removed i true)] |}, fs4.
  split; [exact Ec|].
  split.
  { unfold inode_open, inode_init. cbn [open_inodes store find_sector].
    rewrite Edec. reflexivity. }
  split; [reflexivity|]. split; [exact Eclose|]. split; [exact Hlist|].
  split; [|exact Hnd4].
  eapply perm_trans; [exact Hperm4|]. apply perm_skip. exact Hperm.
Qed.

Lemma create_then_delete_returns_sectors_witness :
  exists st1 h fs2 fs3 fs4,
    inode_create sample_stack true 7 100000 false (blank_storage (zrange 100 400))
    = Ok (true, st1)
    /\ inode_open true 7 (inode_init st1) = Ok (h, fs2)
    /\ inode_remove h fs2 = Ok fs3
    /\ inode_close h fs3 = Ok fs4
    /\ Permutation (free_map (store fs4)) (7 :: zrange 100 400).
Proof.
  destruct (create_then_delete_returns_sectors sample_stack 7 100000 false
              (blank_storage (zrange 100 400)))
    as (st1 & h & fs2 & fs3 & fs4 & Ec & Eo & Er & Ecl & _ & Hperm & _).
  - repeat split.
  - lia.
  - apply nodupb_sound. vm_compute. reflexivity.
  - apply sector_numberb_sound. vm_compute. reflexivity.
  - vm_compute. intuition discriminate.
  - vm_compute. discriminate.
  - exists st1, h, fs2, fs3, fs4. split; [exact Ec|]. split; [exact Eo|].
    split; [exact Er|]. split; [exact Ecl | exact Hperm].
Defined.

(** ** Opening and closing in pairs *)

Lemma update_inode_restore a i v l :
  find_inode a l = Some i -> update_inode a i (update_inode a v l) = l.
Proof.
  induction l as [|[b j] t IH]; cbn [find_inode update_inode]; intros F; [discriminate|].
  destruct (Nat.eqb a b) eqn:E.
  - inversion F; subst. cbn [update_inode]. rewrite E.
    apply Nat.eqb_eq in E. subst b. reflexivity.
  - cbn [update_inode]. rewrite E. f_equal. apply IH. exact F.
Qed.

Lemma set_open_cnt_restore i x : set_open_cnt (set_open_cnt i x) (open_cnt i) = i.
Proof. destruct i; reflexivity. Qed.

(** X11: [inode_open] followed by [inode_close] of the handle it returned leaves
    the list of open inodes and the free map as they were.  If the sector
    was open already the whole state is as before; if not, the close
    writes the record that the open has read back to its sector and no
    other sector changes.  A failed [malloc] gives a null handle, which
    the close ignores. *)
Theorem inode_open_close_balance (mem_ok : bool) (s : Z) (fs : filesys) :
  one_inode_per_sector fs ->
  (forall a i, find_inode a (open_inodes fs) = Some i -> sector i = s ->
     0 < open_cnt i < 2147483647) ->
  exists h fs1 fs2,
    inode_open mem_ok s fs = Ok (h, fs1)
    /\ inode_close h fs1 = Ok fs2
    /\ open_inodes fs2 = open_inodes fs
    /\ free_map (store fs2) = free_map (store fs)
    /\ (forall x, x <> s -> disk (store fs2) x = disk (store fs) x)
    /\ (In s (map (fun e => sector (snd e)) (open_inodes fs)) -> fs2 = fs).
Proof.
  intros [Hsec Haddr] Hcnt. unfold inode_open.
  destruct (find_sector s (open_inodes fs)) as [a|] eqn:Ef.
  - destruct (find_sector_some s _ a Haddr Ef) as (i & F & Hs).
    specialize (Hcnt a i F Hs).
    set (i1 := set_open_cnt i (s32 (open_cnt i + 1))).
    set (fs1 := {| store := store fs; open_inodes := update_inode a i1 (open_inodes fs) |}).
    assert (F1 : find_inode a (open_inodes fs1) = Some i1).
    { unfold fs1. cbn [open_inodes]. rewrite find_inode_update, Nat.eqb_refl, F.
      reflexivity. }
    destruct (inode_close_cases a i1 fs1 F1) as (Hc & _ & _).
    assert (Hone : s32 (open_cnt i1 - 1) = open_cnt i).
    { unfold i1. cbn [set_open_cnt open_cnt].
      rewrite (s32_small (open_cnt i + 1)) by lia. rewrite s32_small by lia. lia. }
    rewrite Hone in Hc.
    assert (Hnz : open_cnt (set_open_cnt i1 (open_cnt i)) <> 0)
      by (cbn [set_open_cnt open_cnt]; lia).
    specialize (Hc Hnz).
    replace (set_open_cnt i1 (open_cnt i)) with i in Hc
      by (unfold i1; rewrite set_open_cnt_restore; reflexivity).
    replace (open_inodes fs1) with (update_inode a i1 (open_inodes fs)) in Hc
      by reflexivity.
    replace (store fs1) with (store fs) in Hc by reflexivity.
    rewrite (update_inode_restore a i i1 _ F) in Hc.
    exists (Some a), fs1, fs.
    split; [rewrite (inode_reopen_ok a i fs F); reflexivity|].
    split; [rewrite Hc; destruct fs; reflexivity|].
    repeat split; reflexivity.
  - destruct mem_ok.
    + set (a := fresh_addr (open_inodes fs)).
      set (i := {| sector := s; open_cnt := 1; removed := false; deny_write_cnt := 0;
                   data := decode_inode (cache_read s (store fs)) |}).
      set (fs1 := {| store := store fs; open_inodes := (a, i) :: open_inodes fs |}).
      assert (F1 : find_inode a (open_inodes fs1) = Some i).
      { unfold fs1. cbn [open_inodes find_inode]. rewrite Nat.eqb_refl. reflexivity. }
      destruct (inode_close_cases a i fs1 F1) as (_ & _ & Hc).
      specialize (Hc eq_refl eq_refl).
      exists (Some a), fs1, {| store := cache_write s (encode_inode (data i)) (store fs);
                               open_inodes := open_inodes fs |}.
      split; [reflexivity|].
      split.
      { rewrite Hc. unfold fs1. cbn [open_inodes list_remove store sector i].
        rewrite Nat.eqb_refl. reflexivity. }
      cbn [store open_inodes].
      split; [reflexivity|]. split; [reflexivity|].
      split.
      { intros x Hx. unfold cache_write. cbn [disk].
        destruct (Z.eqb_spec x s); [contradiction | reflexivity]. }
      intros Hin. exfalso. exact (find_sector_none s _ Ef Hin).
    + exists None, fs, fs. split; [reflexivity|]. split; [reflexivity|].
      repeat split; reflexivity.
Qed.

Lemma inode_open_close_balance_witness :
  exists h fs1 fs2,
    inode_open true 7 sample_fs = Ok (h, fs1)
    /\ inode_close h fs1 = Ok fs2
    /\ fs2 = sample_fs.
Proof.
  destruct (inode_open_close_balance true 7 sample_fs)
    as (h & fs1 & fs2 & Eo & Ec & _ & _ & _ & Hsame).
  - split; cbn; repeat constructor; intros [].
  - intros a i F Hs. cbn [sample_fs open_inodes find_inode] in F.
    destruct (Nat.eqb a 1); [|discriminate]. inversion F; subst. cbn. lia.
  - exists h, fs1, fs2. split; [exact Eo|]. split; [exact Ec|].
    apply Hsame. left. reflexivity.
Defined.

(** X12: In a state with at most one inode per sector [inode_open] does not
    fail: it returns a handle to an inode whose number is the sector asked
    for, and leaves again at most one inode per sector; or, when [malloc]
    fails for a sector that is not open, a null handle and the state as it
    was. *)
Theorem inode_open_gives_inumber (mem_ok : bool) (s : Z) (fs : filesys) :
  one_inode_per_sector fs ->
  exists h fs',
    inode_open mem_ok s fs = Ok (h, fs')
    /\ one_inode_per_sector fs'
    /\ match h with
       | Some a =>
         exists i, find_inode a (open_inodes fs') = Some i /\ inode_get_inumber i = s
       | None =>
         mem_ok = false /\ fs' = fs
         /\ ~ In s (map (fun e => sector (snd e)) (open_inodes fs))
       end.
Proof.
  intros Hone. assert (Hone' := Hone). destruct Hone' as [Hsec Haddr].
  destruct (inode_open mem_ok s fs) as [[h fs']| |] eqn:Eo.
  - exists h, fs'. split; [reflexivity|].
    split; [exact (fs_step_one_inode_per_sector _ _ Hone (step_open _ _ _ _ _ Eo))|].
    unfold inode_open in Eo.
    destruct (find_sector s (open_inodes fs)) as [a|] eqn:Ef.
    + destruct (find_sector_some s _ a Haddr Ef) as (i & F & Hs).
      rewrite (inode_reopen_ok a i fs F) in Eo. injection Eo as <- <-.
      exists (set_open_cnt i (s32 (open_cnt i + 1))). split; [|exact Hs].
      cbn [open_inodes]. rewrite find_inode_update, Nat.eqb_refl, F. reflexivity.
    + destruct mem_ok; injection Eo as <- <-.
      * eexists. split.
        -- cbn [open_inodes find_inode]. rewrite Nat.eqb_refl. reflexivity.
        -- reflexivity.
      * split; [reflexivity|]. split; [reflexivity|]. exact (find_sector_none s _ Ef).
  - exfalso. unfold inode_open in Eo.
    destruct (find_sector s (open_inodes fs)) as [a|] eqn:Ef.
    + destruct (find_sector_some s _ a Haddr Ef) as (i & F & Hs).
      rewrite (inode_reopen_ok a i fs F) in Eo. discriminate.
    + destruct mem_ok; discriminate.
  - exfalso. unfold inode_open in Eo.
    destruct (find_sector s (open_inodes fs)) as [a|] eqn:Ef.
    + destruct (find_sector_some s _ a Haddr Ef) as (i & F & Hs).
      rewrite (inode_reopen_ok a i fs F) in Eo. discriminate.
    + destruct mem_ok; discriminate.
Qed.

Lemma inode_open_gives_inumber_witness :
  exists a fs' i,
    inode_open true 9 sample_fs = Ok (Some a, fs')
    /\ find_inode a (open_inodes fs') = Some i /\ inode_get_inumber i = 9.
Proof.
  destruct (inode_open_gives_inumber true 9 sample_fs) as (h & fs' & Eo & _ & Hh).
  - split; cbn; repeat constructor; intros [].
  - destruct h as [a|].
    + destruct Hh as (i & F & Hn). exists a, fs', i.
      split; [exact Eo|]. split; [exact F | exact Hn].
    + destruct Hh as (Hm & _). discriminate Hm.
Defined.

(** ** A removed inode is still a file *)

Lemma read_loop_removed b fuel : forall mem_ok i buffer size offset br bounce st,
  read_loop fuel mem_ok (set_removed i b) buffer size offset br bounce st
  = read_loop fuel mem_ok i buffer size offset br bounce st.
Proof.
  induction fuel as [|fuel IH]; intros; [reflexivity|].
  cbn [read_loop]. rewrite !IH. reflexivity.
Qed.

Lemma write_loop_removed b fuel : forall mem_ok i buffer size offset bw bounce st,
  write_loop fuel mem_ok (set_removed i b) buffer size offset bw bounce st
  = write_loop fuel mem_ok i buffer size offset bw bounce st.
Proof.
  induction fuel as [|fuel IH]; intros; [reflexivity|].
  cbn [write_loop]. rewrite !IH. reflexivity.
Qed.

(** X13: The [removed] flag is invisible to reads and writes: on an inode that
    has been removed and is still open they deliver and store what they
    would without the flag, and the flag stays. *)
Theorem removed_inode_reads_and_writes (stk : grow_stack) (mem_ok : bool) (i : inode)
    (b : bool) (buffer_ : list byte) (size offset : Z) (st : storage) :
  inode_read_at mem_ok (set_removed i b) buffer_ size offset st
  = inode_read_at mem_ok i buffer_ size offset st
  /\ inode_write_at stk mem_ok (set_removed i b) buffer_ size offset st
     = ('(n, i', st') <- inode_write_at stk mem_ok i buffer_ size offset st ;;
        Ok (n, set_removed i' b, st'))
  /\ inode_length (set_removed i b) = inode_length i.
Proof.
  split; [apply read_loop_removed|]. split; [|reflexivity].
  unfold inode_write_at. cbn [set_removed deny_write_cnt].
  destruct (negb (deny_write_cnt i =? 0)); [reflexivity|].
  change (inode_length (set_removed i b)) with (inode_length i).
  destruct (inode_length i <? s32 (offset + size)).
  - change (data (set_removed i b)) with (data i).
    destruct (inode_grow stk (data i) (s32 (offset + size)) st) as [[[l id] st1]| |];
      cbn [bind]; try reflexivity.
    change (set_data (set_removed i b) (set_length id l))
      with (set_removed (set_data i (set_length id l)) b).
    rewrite write_loop_removed.
    change (sector (set_removed (set_data i (set_length id l)) b))
      with (sector (set_data i (set_length id l))).
    change (data (set_removed (set_data i (set_length id l)) b))
      with (data (set_data i (set_length id l))).
    destruct (write_loop _ _ _ _ _ _ _ _ _) as [[n st2]| |]; reflexivity.
  - cbn [bind]. rewrite write_loop_removed.
    destruct (write_loop _ _ _ _ _ _ _ _ _) as [[n st2]| |]; reflexivity.
Qed.

(** ** Transfers without a bounce buffer *)




(** X15: on a well-formed inode ([inode_ok]) whose allocated bytes beyond
    its length are zero ([tail_zero]) and on which writes are not denied,
    for [0 <= offset], [0 < size], [offset + size] within the 8460288 bytes
    of the block map and, if the file has to grow, a free map that holds
    the sectors which the growth takes: when [malloc] gives no bounce
    buffer for a write that begins with a partial sector ([offset] not on a
    sector boundary, or fewer than 512 bytes), [inode_write_at] returns 0,
    but only after it has grown the file: the file then ends where the
    write would have ended, with zeros from its old end on, as after a
    write of no bytes at that position, and the inode is well formed. *)
Theorem inode_write_at_without_bounce (stk : grow_stack) (i : inode)
    (buffer_ : list byte) (size offset : Z) (st : storage) :
  inode_ok i st -> tail_zero (data i) st ->
  deny_write_cnt i = 0 -> stack_ok stk ->
  0 <= offset -> 0 < size -> offset + size <= 8460288 ->
  (length (data i) < offset + size ->
   sectors_needed (blocks (data i))
                  (bytes_to_sectors (offset + size) - blocks (data i))
   <= Z.of_nat (List.length (free_map st))) ->
  offset mod 512 <> 0 \/ size < 512 ->
  exists i' st',
    inode_write_at stk false i buffer_ size offset st = Ok (0, i', st')
    /\ inode_ok i' st' /\ tail_zero (data i') st'
    /\ inode_length i' = Z.max (inode_length i) (offset + size)
    /\ file_contents i' st' = overwrite (file_contents i st) (offset + size) [].
Proof.
  intros Hok Htail Hdeny Hstk Ho Hsize Hend Hneed Hpart.
  assert (Hb0 : 0 <= blocks (data i)) by (destruct Hok as ((_ & ? & _) & _); lia).
  assert (HL : 0 <= length (data i) <= 8460288) by (destruct Hok as (_ & _ & ? & _); lia).
  assert (HbL : blocks (data i) = (length (data i) + 511) / 512).
  { destruct Hok as (_ & _ & _ & Hblocks & _).
    rewrite Hblocks. apply bytes_to_sectors_nonneg. lia. }
  unfold inode_write_at. rewrite Hdeny. cbn [Z.eqb negb].
  destruct (write_growth stk i size offset st Hok Hstk Ho ltac:(lia) Hend Hneed)
    as (i1 & st1 & Eg & Hok1 & _ & Hlen1 & _ & Hb1 & Hfr1 & Hz1 & _).
  rewrite Eg. cbn [bind].
  assert (HbL1 : blocks (data i1) = (length (data i1) + 511) / 512).
  { destruct Hok1 as (_ & _ & HL1 & Hblocks1 & _).
    rewrite Hblocks1. apply bytes_to_sectors_nonneg. lia. }
  assert (Ew : write_loop (Z.to_nat size + 1) false i1 buffer_ size offset 0 false st1
               = Ok (0, st1)).
  { replace (Z.to_nat size + 1)%nat with (S (Z.to_nat size)) by lia.
    cbn [write_loop].
    destruct (Z.ltb_spec 0 size); [|lia].
    unfold BLOCK_SECTOR_SIZE, inode_length.
    rewrite Z.rem_mod_nonneg by lia.
    rewrite (s32_small (length (data i1) - offset)) by lia.
    rewrite chunk_size_min by lia.
    destruct (Z.leb_spec (Z.min size (512 - offset mod 512)) 0); [lia|].
    replace ((offset mod 512 =? 0) && (Z.min size (512 - offset mod 512) =? 512))
      with false; [reflexivity|].
    symmetry. apply andb_false_iff.
    destruct Hpart as [Hp|Hp]; [left | right]; apply Z.eqb_neq; lia. }
  rewrite Ew. cbn [bind].
  assert (Hbyte : forall p, 0 <= p < 512 * blocks (data i1) ->
            file_byte (data i1) st1 p
            = if p <? length (data i) then file_byte (data i) st p else x00).
  { intros p Hp. destruct (Z.ltb_spec p (length (data i))) as [Hlt|Hge].
    - apply Hfr1; lia.
    - destruct (Z.lt_ge_cases p (512 * blocks (data i))) as [Hold|Hnew].
      + rewrite Hfr1 by lia. apply Htail. lia.
      + apply Hz1; lia. }
  exists i1, st1. split; [reflexivity|]. split; [exact Hok1|].
  split.
  { intros p Hp. rewrite Hbyte by lia.
    destruct (Z.ltb_spec p (length (data i))); [lia | reflexivity]. }
  split; [exact Hlen1|].
  unfold overwrite. rewrite length_file_contents. cbn [List.length Z.of_nat].
  rewrite Z.add_0_r, Z2Nat.id by lia. rewrite <- Hlen1.
  unfold file_contents at 1. apply map_ext_zrange. intros p Hp.
  replace ((offset + size <=? p) && (p <? offset + size)) with false
    by (symmetry; apply andb_false_iff;
        destruct (Z.lt_ge_cases p (offset + size));
        [left; apply Z.leb_gt | right; apply Z.ltb_ge]; lia).
  rewrite Hbyte by lia.
  destruct (Z.ltb_spec p (length (data i))) as [Hlt|Hge].
  - rewrite zget_file_contents by lia. reflexivity.
  - rewrite zget_overflow; [reflexivity|]. rewrite length_file_contents. lia.
Qed.

Lemma inode_write_at_without_bounce_witness :
  exists i' st',
    inode_write_at sample_stack false sample_file [x01; x02; x03] 3 1500
      sample_file_storage = Ok (0, i', st')
    /\ inode_length i' = 1503
    /\ file_contents i' st'
       = overwrite (file_contents sample_file sample_file_storage) 1503 [].
Proof.
  destruct (inode_write_at_without_bounce sample_stack sample_file [x01; x02; x03] 3 1500
              sample_file_storage) as (i' & st' & Ew & _ & _ & Hl & Hc).
  - exact sample_file_ok.
  - exact sample_file_tail_zero.
  - reflexivity.
  - repeat split.
  - lia.
  - lia.
  - lia.
  - intros _. vm_compute. discriminate.
  - right. lia.
  - exists i', st'. split; [exact Ew|]. split; [exact Hl | exact Hc].
Defined.

(** ** The record on the device *)

(** X16: on a well-formed inode ([inode_ok]) with the fields of its record
    in the ranges of their types ([record_ok]) and no write denied, when
    [malloc] delivers the bounce buffer, for [0 <= offset], [size] the
    number of bytes given, [offset + size] within the 8460288 bytes of the
    block map and, if the file has to grow, a free map that holds the
    sectors which the growth takes: a write that extends the file stores
    the record, with its new length and block map, in the sector of the
    inode before it transfers any data, so that what [inode_open] would
    read from the sector afterwards is the record in memory; a write
    within the file leaves the inode structure and its sector alone. *)
Theorem inode_write_at_persists_record (stk : grow_stack) (i : inode)
    (buffer_ : list byte) (size offset : Z) (st : storage) :
  inode_ok i st -> record_ok (data i) ->
  deny_write_cnt i = 0 -> stack_ok stk ->
  0 <= offset -> size = Z.of_nat (List.length buffer_) ->
  offset + size <= 8460288 ->
  (length (data i) < offset + size ->
   sectors_needed (blocks (data i))
                  (bytes_to_sectors (offset + size) - blocks (data i))
   <= Z.of_nat (List.length (free_map st))) ->
  exists i' st',
    inode_write_at stk true i buffer_ size offset st = Ok (size, i', st')
    /\ inode_get_inumber i' = inode_get_inumber i
    /\ record_ok (data i')
    /\ (length (data i) < offset + size ->
        decode_inode (cache_read (sector i') st') = data i')
    /\ (offset + size <= length (data i) ->
        i' = i /\ cache_read (sector i') st' = cache_read (sector i) st).
Proof.
  intros Hok Hrec Hdeny Hstk Ho Hsize Hend Hneed.
  destruct (inode_write_at_full stk i buffer_ size offset st Hok Hdeny Hstk Ho Hsize
              Hend Hneed)
    as (i' & st' & Ew & Hok' & Hi' & Hlen' & Hh & _ & _ & _ & _ & _ & Hptr & _
        & Hdisk & Hsame).
  assert (Hsec : sector i' = sector i) by (rewrite Hi'; reflexivity).
  assert (Hrec' : record_ok (data i')).
  { destruct Hrec as (HL & HM & HU & HUr & HD & HDr & HB).
    destruct Hok as ((_ & _ & _ & Hfree) & _ & HL0 & _).
    destruct (Hptr (conj HD (conj HDr Hfree))) as (HD' & HDr' & _).
    destruct Hh as (_ & Hm & Hu & _). cbn [set_length magic unused] in Hm, Hu.
    destruct Hok' as (_ & _ & HL' & Hb' & _).
    split; [lia|]. split; [rewrite Hm; exact HM|].
    split; [rewrite Hu; exact HU|]. split; [rewrite Hu; exact HUr|].
    split; [exact HD'|]. split; [exact HDr'|].
    rewrite Hb'. apply bytes_to_sectors_range. }
  exists i', st'. split; [exact Ew|]. split; [exact Hsec|]. split; [exact Hrec'|].
  split.
  - intros Hlt. unfold cache_read. rewrite Hsec, Hdisk.
    destruct (Z.ltb_spec (length (data i)) (offset + size)); [|lia].
    apply decode_encode_inode. exact Hrec'.
  - intros Hge. split; [exact (Hsame Hge)|].
    unfold cache_read. rewrite Hsec, Hdisk.
    destruct (Z.ltb_spec (length (data i)) (offset + size)); [lia | reflexivity].
Qed.

Lemma inode_write_at_persists_record_witness :
  exists i' st',
    inode_write_at sample_stack true sample_file [x01; x02; x03] 3 1500 sample_file_storage
    = Ok (3, i', st')
    /\ decode_inode (cache_read 7 st') = data i'.
Proof.
  destruct (inode_write_at_persists_record sample_stack sample_file [x01; x02; x03]
              3 1500 sample_file_storage) as (i' & st' & Ew & Hs & _ & Hd & _).
  - exact sample_file_ok.
  - exact sample_file_record_ok.
  - reflexivity.
  - repeat split.
  - lia.
  - reflexivity.
  - lia.
  - intros _. vm_compute. discriminate.
  - exists i', st'. split; [exact Ew|].
    change 7 with (inode_get_inumber sample_file). rewrite <- Hs.
    apply Hd. cbn. lia.
Defined.

(** ** The resolver outside the block map *)

(** X17: Positions from 16524 sectors on resolve to the invalid sector whatever
    the length says, and so do positions from -512 down; the positions -511
    to -1 divide to block 0 and resolve to the first direct block. *)
Theorem byte_to_sector_out_of_range (i : inode) (pos : Z) (st : storage) :
  (8460288 <= pos < 2147483648 -> byte_to_sector i pos st = SECTOR_NONE)
  /\ (-2147483648 <= pos <= -512 -> byte_to_sector i pos st = SECTOR_NONE)
  /\ (-512 < pos < 0 -> 0 <= length (data i) ->
      byte_to_sector i pos st = zget (direct (data i)) 0 0).
Proof.
  unfold byte_to_sector, BLOCK_SECTOR_SIZE, DIRECT_BLOCKS, INDIRECT_BLOCKS, DOUBLY_BLOCKS.
  split; [|split].
  - intros Hp. destruct (pos <? length (data i)); [|reflexivity].
    rewrite Z.quot_div_nonneg by lia.
    rewrite (u32_small (pos / 512)) by lia.
    destruct (Z.ltb_spec (pos / 512) 12); [lia|].
    destruct (Z.ltb_spec (pos / 512) 140); [lia|].
    destruct (Z.ltb_spec (pos / 512) 16524); [lia | reflexivity].
  - intros Hp. destruct (pos <? length (data i)); [|reflexivity].
    assert (Hq : -4194304 <= Z.quot pos 512 <= -1).
    { rewrite <- (Z.opp_involutive pos), Z.quot_opp_l by lia.
      rewrite Z.quot_div_nonneg by lia. lia. }
    assert (Hu : u32 (Z.quot pos 512) = Z.quot pos 512 + 4294967296).
    { unfold u32. symmetry. apply (Z.mod_unique _ _ (-1)); lia. }
    rewrite Hu.
    destruct (Z.ltb_spec (pos ÷ 512 + 4294967296) 12); [lia|].
    destruct (Z.ltb_spec (pos ÷ 512 + 4294967296) 140); [lia|].
    destruct (Z.ltb_spec (pos ÷ 512 + 4294967296) 16524); [lia | reflexivity].
  - intros Hp HL. destruct (Z.ltb_spec pos (length (data i))); [|lia].
    assert (Hq : Z.quot pos 512 = 0).
    { rewrite <- (Z.opp_involutive pos), Z.quot_opp_l by lia.
      rewrite Z.quot_div_nonneg by lia. lia. }
    rewrite Hq. reflexivity.
Qed.

Lemma byte_to_sector_out_of_range_witness :
  byte_to_sector sample_file (-1) sample_file_storage = 100
  /\ byte_to_sector sample_file (-512) sample_file_storage = SECTOR_NONE
  /\ byte_to_sector (set_data sample_file (set_length sample_file_disk 8460289))
       8460288 sample_file_storage = SECTOR_NONE.
Proof.
  split; [|split].
  - destruct (byte_to_sector_out_of_range sample_file (-1) sample_file_storage)
      as (_ & _ & H).
    apply H; cbn; lia.
  - destruct (byte_to_sector_out_of_range sample_file (-512) sample_file_storage)
      as (_ & H & _).
    apply H. lia.
  - destruct (byte_to_sector_out_of_range
                (set_data sample_file (set_length sample_file_disk 8460289)) 8460288
                sample_file_storage) as (H & _).
    apply H. lia.
Defined.

(** ** Closing without allowing writes again *)

(** X18: An opener that has denied writes and closes the inode without calling
    [inode_allow_write] leaves more denials than openers behind: the close
    itself succeeds, but the next [inode_allow_write] and the next
    [inode_deny_write] on the inode fail their assertion. *)
Theorem close_without_allow_write (fs : filesys) (a : nat) (i : inode) :
  find_inode a (open_inodes fs) = Some i ->
  2 <= open_cnt i < 2147483647 -> deny_write_cnt i = open_cnt i ->
  exists fs' j,
    inode_close (Some a) fs = Ok fs'
    /\ find_inode a (open_inodes fs') = Some j
    /\ inode_get_open_cnt j = open_cnt i - 1
    /\ deny_write_cnt j = open_cnt i
    /\ inode_allow_write_ptr (Some a) fs' = Fault
    /\ inode_deny_write_ptr (Some a) fs' = Fault.
Proof.
  intros F Hcnt Hdeny.
  destruct (inode_close_cases a i fs F) as (Hc & _ & _).
  assert (Hone : s32 (open_cnt i - 1) = open_cnt i - 1) by (apply s32_small; lia).
  rewrite Hone in Hc.
  specialize (Hc ltac:(cbn [set_open_cnt open_cnt]; lia)).
  set (j := set_open_cnt i (open_cnt i - 1)) in *.
  assert (Fj : find_inode a (update_inode a j (open_inodes fs)) = Some j).
  { rewrite find_inode_update, Nat.eqb_refl, F. reflexivity. }
  exists {| store := store fs; open_inodes := update_inode a j (open_inodes fs) |}, j.
  split; [exact Hc|]. split; [exact Fj|].
  split; [reflexivity|]. split; [exact Hdeny|].
  unfold inode_allow_write_ptr, inode_deny_write_ptr, deref. cbn [open_inodes].
  rewrite Fj. cbn [bind].
  unfold inode_allow_write, inode_deny_write.
  cbn [j set_open_cnt set_deny_write_cnt deny_write_cnt open_cnt].
  rewrite Hdeny. rewrite (s32_small (open_cnt i + 1)) by lia.
  destruct (Z.ltb_spec 0 (open_cnt i)); [|lia].
  destruct (Z.leb_spec (open_cnt i) (open_cnt i - 1)); [lia|].
  destruct (Z.leb_spec (open_cnt i + 1) (open_cnt i - 1)); [lia|].
  split; reflexivity.
Qed.

Lemma close_without_allow_write_witness :
  exists fs',
    inode_close (Some 1%nat)
      {| store := blank_storage [];
         open_inodes := [(1%nat, set_deny_write_cnt (sample_inode 2 (decode_inode zeros)) 2)] |}
    = Ok fs'
    /\ inode_allow_write_ptr (Some 1%nat) fs' = Fault.
Proof.
  destruct (close_without_allow_write
              {| store := blank_storage [];
                 open_inodes :=
                   [(1%nat, set_deny_write_cnt (sample_inode 2 (decode_inode zeros)) 2)] |}
              1%nat (set_deny_write_cnt (sample_inode 2 (decode_inode zeros)) 2))
    as (fs' & j & Ec & _ & _ & _ & Ea & _).
  - reflexivity.
  - cbn. lia.
  - reflexivity.
  - exists fs'. split; [exact Ec | exact Ea].
Defined.

(** ** Deferred deletion (C7) *)




(** ** The deny-write gate (C8) *)

(** A write that is allowed and has room, and the read of the same range
    after it. *)
Lemma write_then_read_back stk i buffer_ buf size offset st :
  inode_ok i st -> deny_write_cnt i = 0 -> stack_ok stk ->
  0 <= offset -> size = Z.of_nat (List.length buffer_) ->
  offset + size <= 8460288 ->
  (length (data i) < offset + size ->
   sectors_needed (blocks (data i))
                  (bytes_to_sectors (offset + size) - blocks (data i))
   <= Z.of_nat (List.length (free_map st))) ->
  size <= Z.of_nat (List.length buf) ->
  exists i' st',
    inode_write_at stk true i buffer_ size offset st = Ok (size, i', st')
    /\ inode_read_at true i' buf size offset st'
       = Ok (size, buffer_ ++ skipn (Z.to_nat size) buf)
    /\ i' = set_data i (data i')
    /\ length (data i') = Z.max (length (data i)) (offset + size).
Proof.
  intros Hok Hdeny Hstk Ho Hsize Hend Hneed Hbuf.
  destruct (inode_write_at_full stk i buffer_ size offset st Hok Hdeny Hstk Ho Hsize
              Hend Hneed)
    as (i' & st' & Ew & Hok' & Hi' & Hlen' & _ & _ & Hin & _).
  exists i', st'. split; [exact Ew|]. split; [|split; [exact Hi' | exact Hlen']].
  rewrite (inode_read_at_slice i' buf size offset st' Hok') by lia.
  destruct (file_slice i' st' offset size Ho ltac:(lia)) as [Hlen Hmap].
  set (got := firstn (Z.to_nat size) (skipn (Z.to_nat offset) (file_contents i' st'))) in *.
  assert (Hgl : Z.of_nat (List.length got) = size) by lia.
  assert (Hgot : got = buffer_).
  { rewrite <- Hmap, Hgl. rewrite Hsize.
    apply (list_eq_map_zrange buffer_ _ offset x00).
    intros t Ht. rewrite Hin by lia. f_equal. lia. }
  rewrite Hgl. rewrite Hgot at 1.
  replace (List.length got) with (Z.to_nat size) by lia. reflexivity.
Qed.

(** C8: while the deny-write counter of an inode is positive,
    [inode_write_at] returns 0 and leaves the inode structure (its length
    with it) and the storage as they are, whatever the offset and the size.
    [n] calls of [inode_deny_write] on an inode whose counter is zero, by
    [n] of its openers, lead to such an inode; [n] calls of
    [inode_allow_write] after them give back the inode structure as it was,
    and the write that follows them is a write again: on a well-formed
    inode, within the capacity of the block map and with room on the
    device, it returns [size], the inode has the length that the write
    calls for, and the read of the range gives the bytes written. *)
Theorem deny_write_gate (stk : grow_stack) (mem_ok : bool) (i : inode)
    (buffer_ : list byte) (size offset : Z) (st : storage) :
  (0 < deny_write_cnt i ->
   inode_write_at stk mem_ok i buffer_ size offset st = Ok (0, i, st))
  /\ (forall n : nat,
      deny_write_cnt i = 0 -> Z.of_nat n <= open_cnt i < 2147483648 ->
      exists i',
        iterate n inode_deny_write i = Ok i'
        /\ deny_write_cnt i' = Z.of_nat n
        /\ (0 < Z.of_nat n ->
            inode_write_at stk mem_ok i' buffer_ size offset st = Ok (0, i', st))
        /\ iterate n inode_allow_write i' = Ok i
        /\ (forall buf,
            inode_ok i st -> stack_ok stk ->
            0 <= offset -> size = Z.of_nat (List.length buffer_) ->
            offset + size <= 8460288 ->
            (length (data i) < offset + size ->
             sectors_needed (blocks (data i))
                            (bytes_to_sectors (offset + size) - blocks (data i))
             <= Z.of_nat (List.length (free_map st))) ->
            size <= Z.of_nat (List.length buf) ->
            exists i2 st2,
              (i'' <- iterate n inode_allow_write i' ;;
               inode_write_at stk true i'' buffer_ size offset st)
              = Ok (size, i2, st2)
              /\ inode_read_at true i2 buf size offset st2
                 = Ok (size, buffer_ ++ skipn (Z.to_nat size) buf)
              /\ deny_write_cnt i2 = 0
              /\ inode_length i2 = Z.max (inode_length i) (offset + size))).
Proof.
  assert (Hgate : forall j, 0 < deny_write_cnt j ->
            inode_write_at stk mem_ok j buffer_ size offset st = Ok (0, j, st)).
  { intros j Hj. unfold inode_write_at.
    destruct (Z.eqb_spec (deny_write_cnt j) 0); [lia | reflexivity]. }
  split; [apply Hgate|].
  intros n Hz Hn.
  exists (set_deny_write_cnt i (deny_write_cnt i + Z.of_nat n)).
  assert (Hallow : iterate n inode_allow_write
                     (set_deny_write_cnt i (deny_write_cnt i + Z.of_nat n)) = Ok i).
  { rewrite iterate_allow; cbn [deny_write_cnt open_cnt set_deny_write_cnt]; try lia.
    f_equal. rewrite Hz. replace (0 + Z.of_nat n - Z.of_nat n) with 0 by lia.
    rewrite <- Hz. destruct i; reflexivity. }
  split; [apply iterate_deny; lia|].
  split; [cbn [deny_write_cnt set_deny_write_cnt]; lia|].
  split.
  { intros Hpos. apply Hgate. cbn [deny_write_cnt set_deny_write_cnt]. lia. }
  split; [exact Hallow|].
  intros buf Hok Hstk Ho Hsize Hend Hneed Hbuf.
  rewrite Hallow. cbn [bind].
  destruct (write_then_read_back stk i buffer_ buf size offset st Hok Hz Hstk Ho Hsize
              Hend Hneed Hbuf) as (i2 & st2 & Ew & Er & Hi2 & Hlen2).
  exists i2, st2. split; [exact Ew|]. split; [exact Er|].
  split; [rewrite Hi2; exact Hz | exact Hlen2].
Qed.

(** An instance: the one opener of the sample file denies writes, a write
    of three bytes at 1500 returns 0; the opener allows writes again, and
    the same write returns 3, extends the file to 1503 bytes, and the read
    gives the three bytes back. *)
Lemma deny_write_gate_witness :
  exists i',
    iterate 1 inode_deny_write sample_file = Ok i'
    /\ inode_write_at sample_stack true i' [x01; x02; x03] 3 1500 sample_file_storage
       = Ok (0, i', sample_file_storage)
    /\ exists i2 st2,
        (i'' <- iterate 1 inode_allow_write i' ;;
         inode_write_at sample_stack true i'' [x01; x02; x03] 3 1500 sample_file_storage)
        = Ok (3, i2, st2)
        /\ inode_read_at true i2 (repeat x00 3) 3 1500 st2 = Ok (3, [x01; x02; x03])
        /\ inode_length i2 = 1503.
Proof.
  destruct (deny_write_gate sample_stack true sample_file [x01; x02; x03] 3 1500
              sample_file_storage) as (_ & H).
  destruct (H 1%nat) as (i' & Hd & _ & Hw & _ & Hn).
  - reflexivity.
  - cbn. lia.
  - exists i'. split; [exact Hd|]. split; [apply Hw; lia|].
    destruct (Hn (repeat x00 3)) as (i2 & st2 & Ew & Er & _ & Hl).
    + exact sample_file_ok.
    + repeat split.
    + lia.
    + reflexivity.
    + lia.
    + intros _. vm_compute. discriminate.
    + cbn. lia.
    + exists i2, st2. split; [exact Ew|]. split; [exact Er | exact Hl].
Defined.
